

(** * Website time tracker: session state machine, flush and status queries

    A shallow embedding of [src/background/service-worker.js] (session
    handlers, flush, status and statistics queries, the message switch), of
    the storage gateway it imports ([src/shared/storage.js]), of the date
    and display helpers of [src/shared/utils.js] and of the content
    script's throttle, with the properties of the specification, and
    further properties of the code, stated over it.

    Conventions of the embedding.
    - Timestamps are the integers returned by [Date.now()]; a nullable
      timestamp is an [option Z].  JavaScript tests such fields by
      truthiness, so [null] and [0] are both "absent" to the code; the
      tests are written out with [truthy_num] and [truthy_str].
    - An [async] function is a computation over the [World] (the module
      level [state] object, the contents of [chrome.storage.local] and the
      wall clock) that either resolves with a value or rejects.  Mutations
      made before a rejection stay in the world, as in JavaScript.
    - [dispatch] and [reachable] describe the schedules in which a handler
      runs to its end before the next event is handled, and the flush that
      [handleActivityDetected] starts without awaiting it runs to its end
      before the status read that follows.  The worker itself does not
      enforce that: a handler is suspended at each [await] and other
      listeners run meanwhile.  [tabChangeAroundSignal] is such a schedule,
      with [handleTabChange] split at its tab lookup.  Time passes only at
      an [await] of a host call ([chrome.storage.local], [chrome.tabs]):
      the host decides how long the call takes ([delay]) and whether it
      rejects ([rejects]).
    - Storage holds what the tracker writes: daily records under the daily
      prefix, the limits table under the limits key; a value of another
      shape reads as an empty object.
    - Calendar arithmetic is done on local day numbers (days since
      1970-01-01 in the host's time zone).  While the worker runs local time
      is ahead of UTC by one offset, [tz]; the retention cutoff lies 90 days
      back, where another offset may have been in force, and is converted by
      the host ([utcOfLocal]). *)

From stdpp Require Import base option strings gmap list pretty.

From Stdlib Require Import ZArith Lia Ascii.

Open Scope Z_scope.

(** * Definitions *)

(** ** Constants ([src/shared/constants.js]) *)

Definition INACTIVITY_TIMEOUT_MS : Z := 15000.

Definition DATA_RETENTION_DAYS : Z := 90.

Definition LIMITS : string := "limits".

Definition DAILY_PREFIX : string := "daily:".

Definition MS_PER_DAY : Z := 86400000.

(** ** Data model *)

(** A stored limit is either the legacy bare number or the structured
    [{limit, period}] object. *)
Inductive LimitValue :=
  | LegacyMs (n : Z)
  | Config (limit : Z) (period : string).

(** What a key of [chrome.storage.local] can hold. *)
Inductive StoredValue :=
  | DailyRecord (data : gmap string Z)
  | LimitsTable (table : gmap string LimitValue)
  | OtherValue (raw : string).

(** The module-level [state] object of the service worker. *)
Record State := mkState {
  activeTabId : option Z;
  activeDomain : option string;
  sessionStartTime : option Z;
  lastActivityTime : option Z;
  isTracking : bool;
  pendingTime : gmap string Z;
  lastPersistTime : option Z
}.

Definition initialState : State :=
  mkState None None None None false ∅ None.

Record World := mkWorld {
  state : State;
  storage : gmap string StoredValue;
  now : Z;
  calls : nat
}.

Definition set_activeTabId (v : option Z) (s : State) : State :=
  mkState v (activeDomain s) (sessionStartTime s) (lastActivityTime s)
          (isTracking s) (pendingTime s) (lastPersistTime s).

Definition set_activeDomain (v : option string) (s : State) : State :=
  mkState (activeTabId s) v (sessionStartTime s) (lastActivityTime s)
          (isTracking s) (pendingTime s) (lastPersistTime s).

Definition set_sessionStartTime (v : option Z) (s : State) : State :=
  mkState (activeTabId s) (activeDomain s) v (lastActivityTime s)
          (isTracking s) (pendingTime s) (lastPersistTime s).

Definition set_lastActivityTime (v : option Z) (s : State) : State :=
  mkState (activeTabId s) (activeDomain s) (sessionStartTime s) v
          (isTracking s) (pendingTime s) (lastPersistTime s).

Definition set_isTracking (v : bool) (s : State) : State :=
  mkState (activeTabId s) (activeDomain s) (sessionStartTime s)
          (lastActivityTime s) v (pendingTime s) (lastPersistTime s).

Definition set_pendingTime (v : gmap string Z) (s : State) : State :=
  mkState (activeTabId s) (activeDomain s) (sessionStartTime s)
          (lastActivityTime s) (isTracking s) v (lastPersistTime s).

Definition set_lastPersistTime (v : option Z) (s : State) : State :=
  mkState (activeTabId s) (activeDomain s) (sessionStartTime s)
          (lastActivityTime s) (isTracking s) (pendingTime s) v.

(** ** JavaScript coercions used by the handlers *)

(** [!!x] for a nullable number: [null] and [0] are falsy. *)
Definition truthy_num (x : option Z) : bool :=
  match x with Some n => negb (n =? 0) | None => false end.

(** [!!x] for a nullable string: [null] and the empty string are falsy. *)
Definition truthy_str (x : option string) : bool :=
  match x with Some s => negb (String.eqb s "") | None => false end.

(** [null] in arithmetic is [0]. *)
Definition to_number (x : option Z) : Z := default 0 x.

(** [obj[key] || 0] on a domain -> milliseconds object. *)
Definition get_or_zero (m : gmap string Z) (k : string) : Z :=
  default 0 (m !! k).

(** ** Asynchronous computations *)

Inductive Outcome (A : Type) :=
  | Resolved (a : A)
  | Rejected.

Arguments Resolved {A} a.
Arguments Rejected {A}.

Definition Async (A : Type) : Type := World → Outcome A * World.

Global Instance Async_ret : MRet Async := λ A a w, (Resolved a, w).

Global Instance Async_bind : MBind Async := λ A B k m w,
  match m w with
  | (Resolved a, w') => k a w'
  | (Rejected, w') => (Rejected, w')
  end.

(** [try { m } catch { h }] *)
Definition try_catch {A} (m : Async A) (h : Async A) : Async A :=
  λ w, match m w with
       | (Resolved a, w') => (Resolved a, w')
       | (Rejected, w') => h w'
       end.

Definition get_state : Async State := λ w, (Resolved (state w), w).

Definition modify_state (f : State → State) : Async unit :=
  λ w, (Resolved tt, mkWorld (f (state w)) (storage w) (now w) (calls w)).

Definition read_storage : Async (gmap string StoredValue) :=
  λ w, (Resolved (storage w), w).

Definition modify_storage (f : gmap string StoredValue → gmap string StoredValue)
    : Async unit :=
  λ w, (Resolved tt, mkWorld (state w) (f (storage w)) (now w) (calls w)).

Definition when (b : bool) (m : Async unit) : Async unit :=
  if b then m else mret tt.

(** [Date.now()] *)
Definition Date_now : Async Z := λ w, (Resolved (now w), w).

(** The outcome and the final world of running a computation. *)
Definition result_of {A} (m : Async A) (w : World) : Outcome A := fst (m w).

Definition world_after {A} (m : Async A) (w : World) : World := snd (m w).

(** Unfolds the plumbing of a computation. *)
Ltac run :=
  unfold mbind, mret, Async_bind, Async_ret, when, get_state, modify_state,
    Date_now, read_storage, modify_storage, try_catch; simpl.

(** ** Calendar and strings *)

(** Civil date of a day number (days since 1970-01-01), proleptic
    Gregorian calendar. *)
Definition civil_of_day (d : Z) : Z * Z * Z :=
  let z := d + 719468 in
  let era := z / 146097 in
  let doe := z - era * 146097 in
  let yoe := (doe - doe / 1460 + doe / 36524 - doe / 146096) / 365 in
  let doy := doe - (365 * yoe + yoe / 4 - yoe / 100) in
  let mp := (5 * doy + 2) / 153 in
  let day := doy - (153 * mp + 2) / 5 + 1 in
  let month := if mp <? 10 then mp + 3 else mp - 9 in
  let year := yoe + era * 400 + (if month <=? 2 then 1 else 0) in
  (year, month, day).

(** [String(n).padStart(2, '0')] *)
Definition pad2 (n : Z) : string :=
  let s := pretty n in
  if (String.length s <? 2)%nat then "0" +:+ s else s.

(** [formatDateKey(date)], on the local day number of [date]. *)
Definition formatDateKey (d : Z) : string :=
  let '(year, month, day) := civil_of_day d in
  pretty year +:+ "-" +:+ pad2 month +:+ "-" +:+ pad2 day.

#[global] Arguments civil_of_day : simpl never.
#[global] Arguments pad2 : simpl never.
#[global] Arguments formatDateKey : simpl never.

(** [str.startsWith(p)] *)
Definition startsWith (p s : string) : bool := String.prefix p s.

(** [str.replace(p, '')]: removes the first occurrence of [p]. *)
Fixpoint remove_first (p s : string) : string :=
  if String.prefix p s
  then String.substring (String.length p) (String.length s - String.length p) s
  else match s with
       | EmptyString => EmptyString
       | String c s' => String c (remove_first p s')
       end.

(** ** URLs and status records *)

(** [SKIP_PROTOCOLS] *)
Definition SKIP_PROTOCOLS : list string :=
  ["chrome:"; "chrome-extension:"; "about:"; "file:"; "devtools:"; "edge:"; "brave:"].

(** [shouldTrackUrl(url)] *)
Definition shouldTrackUrl (url : option string) : bool :=
  match url with
  | Some u =>
      if negb (truthy_str url) then false
      else negb (existsb (λ protocol, startsWith protocol u) SKIP_PROTOCOLS)
  | None => false
  end.

(** The response to [GET_DOMAIN_STATUS]; fields a branch leaves out are
    [None]. *)
Record DomainStatus := mkStatus {
  hasLimit : bool;
  limitExceeded : bool;
  limit : option Z;
  period : option string;
  totalTime : option Z;
  periodTime : option Z;
  exceededBy : option Z;
  remainingTime : option Z;
  domain : option string
}.

#[global] Arguments remove_first : simpl never.

Section Host.

(** The host: how long the n-th host call takes (milliseconds), whether it
    rejects, the local time zone offset in force while the worker runs
    (milliseconds east of UTC), the time value of a local time (the host's
    conversion from local time to UTC, which knows the offset that was in
    force at that local time, daylight saving included), the time value
    [new Date(str)] parses a string to ([None] is an invalid date) and the
    host name [new URL(url)] finds in a URL ([None]: the constructor
    throws). *)
Variable delay : nat → nat.
Variable rejects : nat → bool.
Variable tz : Z.
Variable utcOfLocal : Z → Z.
Variable Date_parse : string → option Z.
Variable URL_hostname : string → option string.

(** Local day number of a timestamp. *)
Definition localDay (t : Z) : Z := (t + tz) / MS_PER_DAY.

(** [d.setDate(d.getDate() + n)] for a date [d] of time value [t]: the local
    calendar date moves by [n] days, the local time of day stays, and the
    result is converted back to a time value. *)
Definition setDate_plus (t n : Z) : Z :=
  utcOfLocal (t + tz + n * MS_PER_DAY).

#[global] Arguments localDay : simpl never.

(** [getTodayKey()] *)
Definition getTodayKey : Async string :=
  t ← Date_now; mret (formatDateKey (localDay t)).

(** [extractDomain(url)] *)
Definition extractDomain (url : option string) : option string :=
  match url with
  | Some u => if negb (truthy_str url) then None else URL_hostname u
  | None => None
  end.

(** ** Host calls *)

(** Awaiting a host call: the clock advances by the call's duration and the
    call may reject. *)
Definition host_call : Async unit := λ w,
  let w' := mkWorld (state w) (storage w)
                    (now w + Z.of_nat (delay (calls w))) (S (calls w)) in
  if rejects (calls w) then (Rejected, w') else (Resolved tt, w').

(** [chrome.storage.local.get(key)], [get(keys)] and [get(null)]: the caller
    looks its keys up in the result. *)
Definition storage_get : Async (gmap string StoredValue) :=
  host_call;; read_storage.

(** [chrome.storage.local.set({[key]: v})] *)
Definition storage_set (key : string) (v : StoredValue) : Async unit :=
  host_call;; modify_storage (insert key v).

(** [chrome.storage.local.remove(keys)] *)
Definition storage_remove (keys : list string) : Async unit :=
  host_call;; modify_storage (λ m, foldr delete m keys).

(** ** Storage gateway ([src/shared/storage.js]) *)

(** [result[key] || {}] read as a daily record. *)
Definition as_daily (v : option StoredValue) : gmap string Z :=
  match v with Some (DailyRecord d) => d | _ => ∅ end.

(** [result[STORAGE_KEYS.LIMITS] || {}] *)
Definition as_limits (v : option StoredValue) : gmap string LimitValue :=
  match v with Some (LimitsTable t) => t | _ => ∅ end.

Definition getDailyData (date : string) : Async (gmap string Z) :=
  result ← storage_get; mret (as_daily (result !! (DAILY_PREFIX +:+ date))).

Definition saveDailyData (date : string) (data : gmap string Z) : Async unit :=
  storage_set (DAILY_PREFIX +:+ date) (DailyRecord data).

(** The body of the migration loop of [getLimits]. *)
Definition migrate (value : LimitValue) : LimitValue :=
  match value with
  | LegacyMs n => Config n "day"
  | Config l p => Config l p
  end.

Definition getLimits : Async (gmap string LimitValue) :=
  result ← storage_get;
  mret (map_fold (λ domain value migrated, <[domain := migrate value]> migrated)
                 ∅ (as_limits (result !! LIMITS))).

(** The loop [for ([domain, time] of Object.entries(src))
    acc[domain] = (acc[domain] || 0) + time], shared by [persistPendingTime]
    and [aggregateDomains]. *)
Definition add_entries (src acc : gmap string Z) : gmap string Z :=
  map_fold (λ domain time acc, <[domain := get_or_zero acc domain + time]> acc)
           acc src.

#[global] Arguments add_entries : simpl never.

Definition aggregateDomains (dataArray : list (gmap string Z)) : gmap string Z :=
  foldl (λ acc dayData, add_entries dayData acc) ∅ dataArray.

(** [getTimeRange(startDate, endDate)], on the local day numbers of the two
    dates: one key per day from the first to the last, one batched read. *)
Definition getTimeRange (startDay endDay : Z) : Async (gmap string (gmap string Z)) :=
  let keys := (λ d, DAILY_PREFIX +:+ formatDateKey d)
                <$> seqZ startDay (endDay - startDay + 1) in
  result ← storage_get;
  mret (foldl (λ acc key,
                 <[remove_first DAILY_PREFIX key := as_daily (result !! key)]> acc)
              ∅ keys).

(** The filter of [cleanupOldData]: [new Date(dateStr) < cutoffDate], false
    on an invalid date. *)
Definition isExpired (cutoffDate : Z) (key : string) : bool :=
  if negb (startsWith DAILY_PREFIX key) then false
  else match Date_parse (remove_first DAILY_PREFIX key) with
       | Some t => t <? cutoffDate
       | None => false
       end.

(** [cleanupOldData()]; the cutoff is the current date moved back by the
    retention in local time, [setDate(getDate() - DATA_RETENTION_DAYS)]. *)
Definition cleanupOldData : Async unit :=
  t ← Date_now;
  let cutoffDate := setDate_plus t (- DATA_RETENTION_DAYS) in
  allData ← storage_get;
  let keysToRemove := List.filter (isExpired cutoffDate) (map_to_list allData).*1 in
  if (0 <? length keysToRemove)%nat then storage_remove keysToRemove else mret tt.

(** ** Service worker: pending buffer and flush *)

Definition addPendingTime (domain : option string) (milliseconds : Z)
    (s : State) : State :=
  if negb (truthy_str domain) || (milliseconds <=? 0) then s
  else match domain with
       | Some d => set_pendingTime
           (<[d := get_or_zero (pendingTime s) d + milliseconds]> (pendingTime s)) s
       | None => s
       end.

(** The roll-forward at the head of [persistPendingTime] (lines 338-349). *)
Definition rollForward : Async unit :=
  s ← get_state;
  if isTracking s && truthy_num (sessionStartTime s) && truthy_str (activeDomain s)
  then
    t ← Date_now;
    let elapsed := t - to_number (sessionStartTime s) in
    when (0 <? elapsed) (modify_state (addPendingTime (activeDomain s) elapsed));;
    modify_state (set_sessionStartTime (Some t))
  else mret tt.

Definition persistPendingTime : Async unit :=
  rollForward;;
  s ← get_state;
  if decide (pendingTime s = ∅) then mret tt
  else
    todayKey ← getTodayKey;
    todayData ← getDailyData todayKey;
    saveDailyData todayKey (add_entries (pendingTime s) todayData);;
    modify_state (set_pendingTime ∅).

(** ** Service worker: session state machine *)

Definition finalizeCurrentSession : Async unit :=
  s ← get_state;
  if negb (isTracking s) || negb (truthy_num (sessionStartTime s))
     || negb (truthy_str (activeDomain s))
  then mret tt
  else
    t ← Date_now;
    let elapsed :=
      if truthy_num (lastActivityTime s) then
        if INACTIVITY_TIMEOUT_MS <=? t - to_number (lastActivityTime s)
        then to_number (lastActivityTime s) - to_number (sessionStartTime s)
        else t - to_number (sessionStartTime s)
      else t - to_number (sessionStartTime s) in
    when (0 <? elapsed)
         (modify_state (addPendingTime (activeDomain s) elapsed);;
          persistPendingTime);;
    modify_state (set_isTracking false);;
    modify_state (set_sessionStartTime None);;
    modify_state (set_lastActivityTime None).

Definition checkInactivityTimeout : Async unit :=
  s ← get_state;
  if negb (isTracking s) || negb (truthy_num (lastActivityTime s)) then mret tt
  else
    t ← Date_now;
    if INACTIVITY_TIMEOUT_MS <=? t - to_number (lastActivityTime s) then
      let activeTime := to_number (lastActivityTime s) - to_number (sessionStartTime s) in
      when ((0 <? activeTime) && truthy_str (activeDomain s))
           (modify_state (addPendingTime (activeDomain s) activeTime));;
      modify_state (set_isTracking false);;
      modify_state (set_sessionStartTime None);;
      modify_state (set_lastActivityTime None)
    else mret tt.

(** The [try] block of [handleTabChange] (lines 175-194), from its
    [await chrome.tabs.get(tabId)] on; [url] is [tab.url] of the tab the
    lookup resolves with.  The handler is suspended at that await until the
    host answers. *)
Definition recordTab (tabId : Z) (url : option string) : Async unit :=
  try_catch
    (host_call;;
     if negb (shouldTrackUrl url) then
       modify_state (set_activeTabId (Some tabId));;
       modify_state (set_activeDomain None)
     else
       modify_state (set_activeTabId (Some tabId));;
       modify_state (set_activeDomain (extractDomain url));;
       modify_state (set_sessionStartTime None);;
       modify_state (set_lastActivityTime None);;
       modify_state (set_isTracking false))
    (mret tt).

(** [handleTabChange(tabId)] *)
Definition handleTabChange (tabId : Z) (url : option string) : Async unit :=
  finalizeCurrentSession;;
  recordTab tabId url.

(** ** Service worker: status queries *)

(** The session time [Date.now() - state.sessionStartTime] that the status
    queries add when [domain] is the one being tracked. *)
Definition liveSessionTime (domain : string) : Async Z :=
  s ← get_state;
  if isTracking s && bool_decide (activeDomain s = Some domain)
     && truthy_num (sessionStartTime s)
  then t ← Date_now; mret (t - to_number (sessionStartTime s))
  else mret 0.

(** [getTimeForPeriod(domain, period)] *)
Definition getTimeForPeriod (domain : string) (period : string) : Async Z :=
  t ← Date_now;
  let today := localDay t in
  let startDay :=
    if String.eqb period "day" then today
    else if String.eqb period "week" then today - 6
    else if String.eqb period "month" then today - 29
    else today in
  rangeData ← getTimeRange startDay today;
  let aggregated := aggregateDomains (map_to_list rangeData).*2 in
  s ← get_state;
  live ← liveSessionTime domain;
  mret (get_or_zero aggregated domain + get_or_zero (pendingTime s) domain + live).

(** [limits[domain]] read as a limit config: its [limit] and [period]. *)
Definition config_of (v : LimitValue) : Z * string :=
  match v with
  | LegacyMs n => (n, "day")
  | Config l p => (l, p)
  end.

(** [getDomainStatus(domain)] *)
Definition getDomainStatus (domain : string) : Async DomainStatus :=
  if negb (truthy_str (Some domain)) then
    mret (mkStatus false false None None None None None None None)
  else
    limits ← getLimits;
    todayKey ← getTodayKey;
    todayData ← getDailyData todayKey;
    s ← get_state;
    live ← liveSessionTime domain;
    let todayTime :=
      get_or_zero todayData domain + get_or_zero (pendingTime s) domain + live in
    match limits !! domain with
    | None =>
        mret (mkStatus false false None None (Some todayTime) None None None
                       (Some domain))
    | Some limitConfig =>
        let '(limit, period) := config_of limitConfig in
        periodTime ← getTimeForPeriod domain period;
        let limitExceeded := limit <? periodTime in
        mret (mkStatus true limitExceeded (Some limit) (Some period)
                       (Some todayTime) (Some periodTime)
                       (Some (if limitExceeded then periodTime - limit else 0))
                       (Some (Z.max 0 (limit - periodTime)))
                       (Some domain))
    end.

(** ** Service worker: activity signal *)

(** Lines 203-219 of [handleActivityDetected]: either the signal's tab is
    (or turns out to be) the active one and handling continues, or the
    handler answers with a status read. *)
Inductive Resolution :=
  | Continue
  | Answer (r : DomainStatus).

Definition confirmActiveTab (tabId : Z) (domain : string) (activeTab : option Z)
    : Async Resolution :=
  s ← get_state;
  if bool_decide (activeTabId s = None) || negb (bool_decide (activeTabId s = Some tabId))
  then
    try_catch
      (host_call;;
       if bool_decide (activeTab = Some tabId) then
         modify_state (set_activeTabId (Some tabId));;
         modify_state (set_activeDomain (Some domain));;
         mret Continue
       else r ← getDomainStatus domain; mret (Answer r))
      (r ← getDomainStatus domain; mret (Answer r))
  else mret Continue.

(** Lines 222-226: the signal's domain differs from the tracked one. *)
Definition switchDomain (domain : string) : Async unit :=
  s ← get_state;
  if negb (bool_decide (Some domain = activeDomain s)) then
    finalizeCurrentSession;;
    modify_state (set_activeDomain (Some domain));;
    modify_state (set_isTracking false)
  else mret tt.

(** Lines 228-255: the inline inactivity check, the start of a session and
    the update of [lastActivityTime]; returns the [now] it read. *)
Definition recordActivity : Async Z :=
  t ← Date_now;
  s ← get_state;
  (if isTracking s && truthy_num (lastActivityTime s) then
     if INACTIVITY_TIMEOUT_MS <=? t - to_number (lastActivityTime s) then
       let activeTime :=
         to_number (lastActivityTime s) - to_number (sessionStartTime s) in
       when ((0 <? activeTime) && truthy_str (activeDomain s))
            (modify_state (addPendingTime (activeDomain s) activeTime);;
             persistPendingTime);;
       modify_state (set_sessionStartTime (Some t))
     else mret tt
   else mret tt);;
  s' ← get_state;
  when (negb (isTracking s'))
       (modify_state (set_isTracking true);;
        modify_state (set_sessionStartTime (Some t)));;
  modify_state (set_lastActivityTime (Some t));;
  mret t.

(** Lines 257-262: the flush every 30 seconds of activity; it is not
    awaited and its rejection is caught. *)
Definition periodicPersist (t : Z) : Async unit :=
  s ← get_state;
  if match lastPersistTime s with
     | None => true
     | Some p => 30000 <? t - p
     end
  then
    modify_state (set_lastPersistTime (Some t));;
    try_catch persistPendingTime (mret tt)
  else mret tt.

(** [handleActivityDetected(tabId, domain)]: [tabId] is the tab of the
    content script that sent the signal, [activeTab] the id of the tab that
    [chrome.tabs.query] resolves with, if any. *)
Definition handleActivityDetected (tabId : Z) (domain : string)
    (activeTab : option Z) : Async DomainStatus :=
  r ← confirmActiveTab tabId domain activeTab;
  match r with
  | Answer status => mret status
  | Continue =>
      switchDomain domain;;
      t ← recordActivity;
      periodicPersist t;;
      getDomainStatus domain
  end.

(** ** Events *)

(** The invocations of the handlers by the host, with what the host
    answers to the handler's tab query. *)
Inductive Event :=
  | TabChanged (tabId : Z) (url : option string)
  | ActivityDetected (tabId : Z) (domain : string) (activeTab : option Z)
  | InactivitySweep
  | WindowBlurred
  | FlushTick.

Definition handle (e : Event) : Async unit :=
  match e with
  | TabChanged tabId url => handleTabChange tabId url
  | ActivityDetected tabId domain activeTab =>
      handleActivityDetected tabId domain activeTab;; mret tt
  | InactivitySweep => checkInactivityTimeout
  | WindowBlurred => finalizeCurrentSession
  | FlushTick => persistPendingTime
  end.

(** The world after the host dispatches [e] when the clock reads [t] and
    the handler has run to its end, no other listener running while it is
    suspended at an [await]. *)
Definition dispatch (t : Z) (e : Event) (w : World) : World :=
  world_after (handle e) (mkWorld (state w) (storage w) t (calls w)).

(** ** Vocabulary of the properties *)

(** The state after the roll-forward of a flush that starts in [w]. *)
Definition rolled (w : World) : State := state (world_after rollForward w).

(** The key of today's record, as a flush that starts in [w] computes it. *)
Definition todayStorageKey (w : World) : string :=
  DAILY_PREFIX +:+ formatDateKey (localDay (now w)).

#[global] Arguments todayStorageKey : simpl never.

(** The world after one host call that started in [w]. *)
Definition after_call (w : World) : World :=
  mkWorld (state w) (storage w) (now w + Z.of_nat (delay (calls w))) (S (calls w)).

(** The value [liveSessionTime] reads in [w]. *)
Definition live (domain : string) (w : World) : Z :=
  if isTracking (state w) && bool_decide (activeDomain (state w) = Some domain)
     && truthy_num (sessionStartTime (state w))
  then now w - to_number (sessionStartTime (state w))
  else 0.

(** The status of a domain that has a limit, given the period total. *)
Definition limitedStatus (domain : string) (limit : Z) (period : string)
    (todayTime periodTime : Z) : DomainStatus :=
  mkStatus true (limit <? periodTime) (Some limit) (Some period)
           (Some todayTime) (Some periodTime)
           (Some (if limit <? periodTime then periodTime - limit else 0))
           (Some (Z.max 0 (limit - periodTime)))
           (Some domain).

(** A computation is quiet when it leaves the state and storage alone and
    does not turn the clock back. *)
Definition quiet {A} (m : Async A) : Prop :=
  ∀ w, state (world_after m w) = state w
       ∧ storage (world_after m w) = storage w
       ∧ now w ≤ now (world_after m w).

(** What the activity step does after a gap, by the amount
    [lastActivityTime - sessionStartTime]: with a positive amount and a
    non-empty domain, a flush runs at once; if it resolves the pending
    buffer is empty, today's record has gained at least that amount for the
    domain and the session restarts now; with nothing to credit the session
    restarts now and nothing else changes. *)
Definition gapOutcome (w : World) (last : Z) : Prop :=
  let activeTime := last - to_number (sessionStartTime (state w)) in
  let w' := world_after recordActivity w in
  if (0 <? activeTime) && truthy_str (activeDomain (state w)) then
    if rejects (calls w) || rejects (S (calls w)) then
      result_of recordActivity w = Rejected
    else
      result_of recordActivity w = Resolved (now w) ∧
      sessionStartTime (state w') = Some (now w) ∧
      lastActivityTime (state w') = Some (now w) ∧
      isTracking (state w') = true ∧
      pendingTime (state w') = ∅ ∧
      ∃ d record,
        activeDomain (state w) = Some d ∧
        storage w' = <[todayStorageKey w := DailyRecord record]> (storage w) ∧
        get_or_zero (as_daily (storage w !! todayStorageKey w)) d
          + get_or_zero (pendingTime (state w)) d + activeTime
        ≤ get_or_zero record d
  else
    recordActivity w =
      (Resolved (now w),
       mkWorld (set_lastActivityTime (Some (now w))
                  (set_sessionStartTime (Some (now w)) (state w)))
               (storage w) (now w) (calls w)).

(** The test of the periodic flush. *)
Definition persistDue (s : State) (t : Z) : bool :=
  match lastPersistTime s with
  | None => true
  | Some p => 30000 <? t - p
  end.

(** A worker that has just been pointed at a tab: nothing tracked, nothing
    pending, no flush made yet. *)
Definition idleOn (tab : Z) (d : string) : State :=
  mkState (Some tab) (Some d) None None false ∅ None.

(** A session on [d] with an empty pending buffer. *)
Definition trackingOn (tab : Z) (d : string) (start last : Z) (lp : option Z)
    : State :=
  mkState (Some tab) (Some d) (Some start) (Some last) true ∅ lp.

(** What the code relies on: while tracking, the session start and the
    domain are values its truthiness tests accept, and every pending amount
    is positive. *)
Definition Inv (s : State) : Prop :=
  (isTracking s = true →
     truthy_num (sessionStartTime s) = true ∧ truthy_str (activeDomain s) = true) ∧
  (∀ d v, pendingTime s !! d = Some v → 0 < v).

(** A property of the state, at a positive clock reading. *)
Definition ok (P : State → Prop) (w : World) : Prop := P (state w) ∧ 0 < now w.

(** [triple P m Q R]: from a world in [P], [m] resolves into [Q] or rejects
    into [R]. *)
Definition triple {A} (P : World → Prop) (m : Async A)
    (Q : A → World → Prop) (R : World → Prop) : Prop :=
  ∀ w, P w → match m w with
             | (Resolved a, w') => Q a w'
             | (Rejected, w') => R w'
             end.

(** [keeps P m]: [m] ends in [P], however it ends. *)
Definition keeps {A} (P : World → Prop) (m : Async A) : Prop :=
  triple P m (λ _, P) P.

(** The invariant together with the domain the signal being handled is
    for. *)
Definition InvOn (d : string) (s : State) : Prop :=
  Inv s ∧ activeDomain s = Some d.

(** Events the host can deliver: the clock reads a positive time and an
    activity signal names a domain (the content script reports none
    otherwise). *)
Definition plausible (t : Z) (e : Event) : Prop :=
  0 < t ∧ match e with
          | ActivityDetected _ d _ => d ≠ ""
          | _ => True
          end.

(** The worlds the worker reaches when its handlers run one after another:
    a fresh worker over any storage, then any sequence of plausible events,
    each handled to its end before the next. *)
Inductive reachable : World → Prop :=
  | reachable_init (st : gmap string StoredValue) (t : Z) (c : nat) :
      reachable (mkWorld initialState st t c)
  | reachable_dispatch (t : Z) (e : Event) (w : World) :
      reachable w → plausible t e → reachable (dispatch t e w).

(** The elapsed time [finalizeCurrentSession] computes for a session that
    started at [start], in a world [w]. *)
Definition finalElapsed (w : World) (start : Z) : Z :=
  if truthy_num (lastActivityTime (state w)) then
    if INACTIVITY_TIMEOUT_MS <=? now w - to_number (lastActivityTime (state w))
    then to_number (lastActivityTime (state w)) - start
    else now w - start
  else now w - start.

(** ** A concrete host and example worlds *)

(** Storage calls that take no time and never reject, or always reject;
    local time is UTC. *)
Definition instant : nat → nat := λ _, 0%nat.

Definition reliable : nat → bool := λ _, false.

Definition failing : nat → bool := λ _, true.

Definition utc : Z := 0.

(** The conversion from local time in a zone that keeps one offset all
    year. *)
Definition fixedOffset (offset : Z) : Z → Z := λ local, local - offset.

(** A host name reader for plain URLs: what stands between [://] and the
    next [/]. *)
Fixpoint after_scheme (s : string) : option string :=
  match s with
  | String ":"%char (String "/"%char (String "/"%char rest)) => Some rest
  | String _ s' => after_scheme s'
  | EmptyString => None
  end.

Fixpoint until_slash (s : string) : string :=
  match s with
  | String c s' => if Ascii.eqb c "/"%char then EmptyString else String c (until_slash s')
  | EmptyString => EmptyString
  end.

Definition hostname_of (url : string) : option string :=
  until_slash <$> after_scheme url.

(** A date parser for the [YYYY-MM-DD] keys the tracker writes: the time
    value of that day's midnight, UTC. *)
Definition digit (c : Ascii.ascii) : option Z :=
  let n := Z.of_nat (Ascii.nat_of_ascii c) - 48 in
  if (0 <=? n) && (n <=? 9) then Some n else None.

Fixpoint digits (s : string) (acc : Z) : option Z :=
  match s with
  | EmptyString => Some acc
  | String c s' => d ← digit c; digits s' (10 * acc + d)
  end.

Definition day_of_civil (y m d : Z) : Z :=
  let y' := if m <=? 2 then y - 1 else y in
  let era := y' / 400 in
  let yoe := y' - era * 400 in
  let doy := (153 * (if 2 <? m then m - 3 else m + 9) + 2) / 5 + d - 1 in
  let doe := yoe * 365 + yoe / 4 - yoe / 100 + doy in
  era * 146097 + doe - 719468.

Definition parseIsoDate (s : string) : option Z :=
  if (String.length s =? 10)%nat
     && String.eqb (String.substring 4 1 s) "-"
     && String.eqb (String.substring 7 1 s) "-"
  then
    y ← digits (String.substring 0 4 s) 0;
    m ← digits (String.substring 5 2 s) 0;
    d ← digits (String.substring 8 2 s) 0;
    if (1 <=? m) && (m <=? 12) && (1 <=? d) && (d <=? 31)
    then Some (day_of_civil y m d * MS_PER_DAY) else None
  else None.

(** A fresh worker over empty storage, and one already pointed at tab 1 on
    [a.com]. *)
Definition fresh : World := mkWorld initialState ∅ 0 0.

Definition idleWorld : World := mkWorld (idleOn 1 "a.com") ∅ 0 0.

(** The events of the examples. *)
Definition signal : Event := ActivityDetected 1 "a.com" (Some 1).

(** The amount recorded for [d] under [key]. *)
Definition recorded (w : World) (key d : string) : Z :=
  get_or_zero (as_daily (storage w !! key)) d.

(** A worker with 5000 ms pending for [a.com] and no session. *)
Definition pendingWorld : World :=
  mkWorld (mkState (Some 1) (Some "a.com") None None false {["a.com" := 5000]} None)
          ∅ 1000 0.

(** Limits [{limit: 60000, period: "day"}] on [a.com], 70000 ms recorded on
    1970-01-01, the clock in that day. *)
Definition limitedWorld (recordedMs : Z) : World :=
  mkWorld initialState
          (<[LIMITS := LimitsTable {["a.com" := Config 60000 "day"]}]>
             {["daily:1970-01-01" := DailyRecord {["a.com" := recordedMs]}]})
          5000 0.

(** Storage on 2024-06-15, noon UTC: the limits table, a record of
    2024-01-01 (older than the cutoff, 2024-03-17 at noon), a record of
    2024-06-01 and a key of another kind. *)
Definition agedWorld : World :=
  mkWorld initialState
          (<[LIMITS := LimitsTable {["a.com" := Config 60000 "day"]}]>
             (<["daily:2024-01-01" := DailyRecord {["a.com" := 1000]}]>
                (<["daily:2024-06-01" := DailyRecord {["a.com" := 2000]}]>
                   {["meta" := OtherValue "v1"]})))
          (19889 * MS_PER_DAY + 43200000) 0.




(** A session on [a.com] from 1000 with its last activity at 11000, the
    clock at 31000. *)
Definition staleWorld : World :=
  mkWorld (trackingOn 1 "a.com" 1000 11000 (Some 11000)) ∅ 31000 0.

(** A limits table in the legacy format, [{"domain": 600000}], next to a
    structured entry. *)
Definition legacyWorld : World :=
  mkWorld initialState
          {[LIMITS := LimitsTable (<["domain" := LegacyMs 600000]>
                                     {["b.com" := Config 1000 "week"]})]}
          1000 0.

(** ** The rest of the storage gateway ([src/shared/storage.js]) *)

(** [setLimit(domain, milliseconds, period)] *)
Definition setLimit (domain : string) (milliseconds : Z) (period : string)
    : Async unit :=
  limits ← getLimits;
  storage_set LIMITS
    (LimitsTable (<[domain := Config milliseconds period]> limits)).

(** [removeLimit(domain)] *)
Definition removeLimit (domain : string) : Async unit :=
  limits ← getLimits;
  storage_set LIMITS (LimitsTable (delete domain limits)).


(** [addTimeForDomain(domain, milliseconds)] *)
Definition addTimeForDomain (domain : string) (milliseconds : Z) : Async Z :=
  todayKey ← getTodayKey;
  data ← getDailyData todayKey;
  let data' := <[domain := get_or_zero data domain + milliseconds]> data in
  saveDailyData todayKey data';;
  mret (get_or_zero data' domain).

(** [getAggregatedData(days)]: the range starts [days - 1] days before
    today. *)
Definition getAggregatedData (days : Z) : Async (gmap string Z) :=
  t ← Date_now;
  rangeData ← getTimeRange (localDay t - days + 1) (localDay t);
  mret (aggregateDomains (map_to_list rangeData).*2).

(** ** Service worker: statistics and the message switch *)

(** The response to [GET_TODAY_STATS]. *)
Record TodayStats := mkTodayStats {
  date : string;
  data : gmap string Z;
  limits : gmap string LimitValue
}.

(** [getTodayStats()] *)
Definition getTodayStats : Async TodayStats :=
  todayKey ← getTodayKey;
  todayData ← getDailyData todayKey;
  limits ← getLimits;
  s ← get_state;
  let combined := add_entries (pendingTime s) todayData in
  if isTracking s && truthy_str (activeDomain s) && truthy_num (sessionStartTime s)
  then
    t ← Date_now;
    let sessionTime := t - to_number (sessionStartTime s) in
    match activeDomain s with
    | Some d =>
        mret (mkTodayStats todayKey
                (<[d := get_or_zero combined d + sessionTime]> combined) limits)
    | None => mret (mkTodayStats todayKey combined limits)
    end
  else mret (mkTodayStats todayKey combined limits).

(** The response to [GET_STATS]; [allLimits] is its field [limits]. *)
Record Stats := mkStats {
  dailyData : gmap string (gmap string Z);
  allLimits : gmap string LimitValue
}.

(** The loop of [getStats] over the days before the end date: a day whose
    key is the one of today's statistics is skipped, the others are read
    one by one. *)
Fixpoint readDays (todayDate : string) (days : list Z)
    (dailyData : gmap string (gmap string Z))
    : Async (gmap string (gmap string Z)) :=
  match days with
  | [] => mret dailyData
  | day :: rest =>
      let dateKey := formatDateKey day in
      if negb (String.eqb dateKey todayDate) then
        dayData ← getDailyData dateKey;
        readDays todayDate rest (<[dateKey := dayData]> dailyData)
      else readDays todayDate rest dailyData
  end.

(** [getStats(days)]: the start date is the end date moved back by
    [days - 1] days, at the same time of day, so [current < endDate] holds
    for the [days - 1] days before the end date. *)
Definition getStats (days : Z) : Async Stats :=
  todayStats ← getTodayStats;
  limits ← getLimits;
  t ← Date_now;
  let startDay := localDay t - days + 1 in
  dailyData ← readDays (date todayStats) (seqZ startDay (days - 1))
                       {[date todayStats := data todayStats]};
  mret (mkStats dailyData limits).

(** The messages of content scripts, popup and dashboard, by
    [message.type], with the fields the switch reads. *)
Inductive Message :=
  | ACTIVITY_DETECTED (domain : string)
  | GET_DOMAIN_STATUS (domain : string)
  | GET_TODAY_STATS
  | GET_STATS (days : option Z)
  | SET_LIMIT (domain : string) (limit : Z) (period : option string)
  | REMOVE_LIMIT (domain : string)
  | GET_LIMITS
  | OtherMessage.

Inductive Response :=
  | StatusResponse (status : DomainStatus)
  | TodayStatsResponse (stats : TodayStats)
  | StatsResponse (stats : Stats)
  | Success
  | LimitsResponse (limits : gmap string LimitValue)
  | ErrorResponse (error : string).

(** [handleMessage(message, sender)]: [tabId] is [sender.tab.id] and
    [activeTab] the tab the host's query resolves with. *)
Definition handleMessage (message : Message) (tabId : Z) (activeTab : option Z)
    : Async Response :=
  match message with
  | ACTIVITY_DETECTED domain =>
      status ← handleActivityDetected tabId domain activeTab;
      mret (StatusResponse status)
  | GET_DOMAIN_STATUS domain =>
      status ← getDomainStatus domain; mret (StatusResponse status)
  | GET_TODAY_STATS => stats ← getTodayStats; mret (TodayStatsResponse stats)
  | GET_STATS days =>
      stats ← getStats (if truthy_num days then to_number days else 30);
      mret (StatsResponse stats)
  | SET_LIMIT domain limit period =>
      setLimit domain limit
        (if truthy_str period then default "" period else "day");;
      mret Success
  | REMOVE_LIMIT domain => removeLimit domain;; mret Success
  | GET_LIMITS => limits ← getLimits; mret (LimitsResponse limits)
  | OtherMessage => mret (ErrorResponse "Unknown message type")
  end.

(** ** The rest of [src/shared/utils.js], on local day numbers *)

(** [date.getDay()]: the day of the week of a local day, 0 for Sunday;
    1970-01-01 was a Thursday. *)
Definition getDay (date : Z) : Z := (date + 4) mod 7.

(** [getWeekStart(date)]: the day [setDate(diff)] lands on. *)
Definition getWeekStart (date : Z) : Z :=
  let day := getDay date in
  date - day + (if day =? 0 then -6 else 1).

(** [getWeekEnd(weekStart)] *)
Definition getWeekEnd (weekStart : Z) : Z := weekStart + 6.

(** [truncateDomain(domain, maxLength)]; [substring] takes a negative end
    for 0. *)
Definition truncateDomain (domain : option string) (maxLength : Z) : string :=
  match domain with
  | Some d =>
      if negb (truthy_str domain) then ""
      else if Z.of_nat (String.length d) <=? maxLength then d
      else String.substring 0 (Z.to_nat (maxLength - 3)) d +:+ "..."
  | None => ""
  end.

(** [getLastNDaysKeys(days)] *)
Definition getLastNDaysKeys (days : Z) : Async (list string) :=
  today ← Date_now;
  mret ((λ i, formatDateKey (localDay today - i)) <$> seqZ 0 days).

(** ** The content script's throttle ([src/content/content-script.js]) *)

Definition ACTIVITY_THROTTLE_MS : Z := 1000.

(** [handleActivity()] at a clock reading [now]: the new [lastReportTime]
    and whether an activity signal is sent. *)
Definition handleActivity (now lastReportTime : Z) : Z * bool :=
  if now - lastReportTime <? ACTIVITY_THROTTLE_MS then (lastReportTime, false)
  else (now, true).

(** The times at which signals are sent for page events at the given clock
    readings. *)
Fixpoint reports (lastReportTime : Z) (events : list Z) : list Z :=
  match events with
  | [] => []
  | now :: rest =>
      let '(lastReportTime', sent) := handleActivity now lastReportTime in
      if sent then now :: reports lastReportTime' rest
      else reports lastReportTime' rest
  end.

(** ** Vocabulary of the further properties *)

(** The civil date within a 400-year era, by the day of the era: what
    [civil_of_day] computes after it has split off the era. *)
Definition civil_in_era (doe : Z) : Z * Z * Z :=
  let yoe := (doe - doe / 1460 + doe / 36524 - doe / 146096) / 365 in
  let doy := doe - (365 * yoe + yoe / 4 - yoe / 100) in
  let mp := (5 * doy + 2) / 153 in
  let day := doy - (153 * mp + 2) / 5 + 1 in
  let month := if mp <? 10 then mp + 3 else mp - 9 in
  (yoe, month, day).

(** [pad2 n] has two characters and differs from [pad2 m] for the other
    [m] from 1 to 31. *)
Definition pad2_ok (n : Z) : bool :=
  (String.length (pad2 n) =? 2)%nat
  && forallb (λ m, (m =? n) || negb (String.eqb (pad2 m) (pad2 n)))
             (Z.of_nat <$> seq 1 31).

(** The amount recorded for a domain on a day, and over [n] days from
    [first] on. *)
Definition recordedOn (st : gmap string StoredValue) (day : Z) (d : string) : Z :=
  get_or_zero (as_daily (st !! (DAILY_PREFIX +:+ formatDateKey day))) d.

Definition recordedOver (st : gmap string StoredValue) (first n : Z) (d : string)
    : Z :=
  foldr (λ day sum, recordedOn st day d + sum) 0 (seqZ first n).

(** The number of days a limit period covers, today included, as
    [getTimeForPeriod] sets its start date. *)
Definition periodLength (period : string) : Z :=
  if String.eqb period "day" then 1
  else if String.eqb period "week" then 7
  else if String.eqb period "month" then 30
  else 1.

(** The data [getTodayStats] builds from the state and storage of [w] when
    it reads the clock at [t]: today's record, plus the pending amounts,
    plus the running session's time. *)
Definition combinedAt (w : World) (t : Z) : gmap string Z :=
  let s := state w in
  let combined :=
    add_entries (pendingTime s) (as_daily (storage w !! todayStorageKey w)) in
  if isTracking s && truthy_str (activeDomain s) && truthy_num (sessionStartTime s)
  then match activeDomain s with
       | Some d =>
           <[d := get_or_zero combined d + (t - to_number (sessionStartTime s))]>
             combined
       | None => combined
       end
  else combined.

(** Pending amounts that are not negative. *)
Definition NonNeg (s : State) : Prop :=
  ∀ d v, pendingTime s !! d = Some v → 0 ≤ v.

(** Storage [st'] has grown from [st]: every key that is not a daily record
    holds what it held, and no amount recorded for a domain under any key
    has gone down. *)
Definition grown (st st' : gmap string StoredValue) : Prop :=
  (∀ key, startsWith DAILY_PREFIX key = false → st' !! key = st !! key) ∧
  (∀ key d, get_or_zero (as_daily (st !! key)) d
            ≤ get_or_zero (as_daily (st' !! key)) d).

(** Worlds with such a buffer whose storage has grown from [st]. *)
Definition grownFrom (st : gmap string StoredValue) (w : World) : Prop :=
  NonNeg (state w) ∧ grown st (storage w).

(** The session times agree with [isTracking]: there are none while no
    session is tracked, and there is a last activity time while one is. *)
Definition Tidy (s : State) : Prop :=
  (isTracking s = false →
     sessionStartTime s = None ∧ lastActivityTime s = None) ∧
  (isTracking s = true → truthy_num (lastActivityTime s) = true).

(** The invariant with the session times, and with the domain the signal
    being handled is for. *)
Definition Sound (s : State) : Prop := Inv s ∧ Tidy s.

Definition SoundOn (d : string) (s : State) : Prop :=
  Sound s ∧ activeDomain s = Some d.

(** The property names every plain object inherits from
    [Object.prototype].  For such a name [obj[name]] finds the inherited
    value although the object has no entry of its own, so the lookups
    [limits[domain]], [todayData[domain]] and [state.pendingTime[domain]] of
    the worker are lookups in a table only for the other names. *)
Definition inheritedNames : list string :=
  ["constructor"; "__proto__"; "hasOwnProperty"; "isPrototypeOf";
   "propertyIsEnumerable"; "toLocaleString"; "toString"; "valueOf";
   "__defineGetter__"; "__defineSetter__"; "__lookupGetter__";
   "__lookupSetter__"].

(** ** Handlers that overlap *)

(** The world when the clock has moved on to [t]. *)
Definition atClock (t : Z) (w : World) : World :=
  mkWorld (state w) (storage w) t (calls w).

(** One schedule of two listeners that overlap.  [handleTabChange(tabId)]
    starts at [t1] and runs to its [await chrome.tabs.get(tabId)]; while the
    lookup is under way an activity signal of tab [signalTab] is handled, at
    [t2]; the tab arrives at [t3] and the tab change runs to its end.  (A
    tab change whose [finalizeCurrentSession] rejects ends there.) *)
Definition tabChangeAroundSignal (t1 t2 t3 : Z) (tabId : Z) (url : option string)
    (signalTab : Z) (domain : string) (activeTab : option Z) (w : World) : World :=
  match finalizeCurrentSession (atClock t1 w) with
  | (Resolved _, w1) =>
      let w2 := world_after (handleActivityDetected signalTab domain activeTab)
                            (atClock t2 w1) in
      world_after (recordTab tabId url) (atClock t3 w2)
  | (Rejected, w1) =>
      world_after (handleActivityDetected signalTab domain activeTab) (atClock t2 w1)
  end.

(** ** A further example world *)

(** A session on [a.com] from 1000 with its last activity at 11000 and its
    last periodic flush then, the clock at 12000. *)
Definition busyWorld : World :=
  mkWorld (trackingOn 1 "a.com" 1000 11000 (Some 11000)) ∅ 12000 0.

(** * Properties *)

(** ** The accumulation loop and the migration loop *)

Lemma add_entries_lookup (src acc : gmap string Z) (d : string) :
  add_entries src acc !! d =
    match src !! d with
    | Some t => Some (get_or_zero acc d + t)
    | None => acc !! d
    end.
Proof.
  unfold add_entries.
  apply (map_fold_weak_ind
           (λ r m, r !! d = match m !! d with
                            | Some t => Some (get_or_zero acc d + t)
                            | None => acc !! d
                            end)).
  - by rewrite lookup_empty.
  - intros i x m r Hfresh IH.
    destruct (decide (i = d)) as [->|Hne].
    + rewrite !lookup_insert_eq. unfold get_or_zero at 1.
      rewrite IH, Hfresh. done.
    + by rewrite !lookup_insert_ne.
Qed.

Lemma add_entries_get (src acc : gmap string Z) (d : string) :
  get_or_zero (add_entries src acc) d = get_or_zero acc d + get_or_zero src d.
Proof.
  unfold get_or_zero at 1 3. rewrite add_entries_lookup.
  destruct (src !! d); simpl; [done|]. unfold get_or_zero. lia.
Qed.

Lemma add_entries_empty (acc : gmap string Z) : add_entries ∅ acc = acc.
Proof. unfold add_entries. apply map_fold_empty. Qed.

Lemma migrate_loop (table : gmap string LimitValue) :
  map_fold (λ domain value migrated, <[domain := migrate value]> migrated) ∅ table
  = migrate <$> table.
Proof.
  apply (map_fold_weak_ind (λ r m, r = migrate <$> m)).
  - by rewrite fmap_empty.
  - intros i x m r _ ->. by rewrite fmap_insert.
Qed.

(** ** The flush *)

Lemma addPendingTime_pending (d : string) (ms : Z) (s : State) :
  d ≠ "" → 0 < ms →
  addPendingTime (Some d) ms s
  = set_pendingTime (<[d := get_or_zero (pendingTime s) d + ms]> (pendingTime s)) s.
Proof.
  intros Hd Hms. unfold addPendingTime, truthy_str.
  destruct (String.eqb_spec d "") as [?|_]; [done|].
  destruct (Z.leb_spec ms 0); [lia|done].
Qed.

Lemma addPendingTime_get (dom : option string) (ms : Z) (s : State) (d : string) :
  get_or_zero (pendingTime s) d ≤ get_or_zero (pendingTime (addPendingTime dom ms s)) d.
Proof.
  unfold addPendingTime.
  destruct (negb (truthy_str dom) || (ms <=? 0)) eqn:E; [done|].
  destruct dom as [d'|]; [|done]. simpl.
  apply orb_false_iff in E as [_ E]. apply Z.leb_gt in E.
  unfold get_or_zero at 2.
  destruct (decide (d' = d)) as [->|Hne].
  - rewrite lookup_insert_eq. simpl. lia.
  - rewrite lookup_insert_ne by done. done.
Qed.

Lemma rollForward_run (w : World) :
  rollForward w = (Resolved tt, mkWorld (rolled w) (storage w) (now w) (calls w)).
Proof.
  unfold rolled, world_after, rollForward. run.
  destruct w as [s st t c]; simpl.
  destruct (isTracking s && truthy_num (sessionStartTime s)
            && truthy_str (activeDomain s)); simpl; [|done].
  destruct (0 <? t - to_number (sessionStartTime s)); done.
Qed.

(** What a flush does once its roll-forward left a non-empty buffer: it
    reads today's record, writes the sum back and only then clears the
    buffer. *)
Lemma persistPendingTime_run (w : World) :
  pendingTime (rolled w) ≠ ∅ →
  persistPendingTime w =
    let t1 := now w + Z.of_nat (delay (calls w)) in
    let t2 := t1 + Z.of_nat (delay (S (calls w))) in
    if rejects (calls w) then
      (Rejected, mkWorld (rolled w) (storage w) t1 (S (calls w)))
    else if rejects (S (calls w)) then
      (Rejected, mkWorld (rolled w) (storage w) t2 (S (S (calls w))))
    else
      (Resolved tt,
       mkWorld (set_pendingTime ∅ (rolled w))
               (<[todayStorageKey w :=
                    DailyRecord (add_entries (pendingTime (rolled w))
                                   (as_daily (storage w !! todayStorageKey w)))]>
                  (storage w))
               t2 (S (S (calls w)))).
Proof.
  intros Hne. unfold persistPendingTime.
  unfold mbind at 1, Async_bind at 1. rewrite rollForward_run.
  run. destruct (decide (pendingTime (rolled w) = ∅)) as [?|_]; [done|].
  unfold getTodayKey, getDailyData, saveDailyData, storage_get, storage_set,
    host_call, todayStorageKey. run.
  destruct (rejects (calls w)); [done|]. simpl.
  destruct (rejects (S (calls w))); done.
Qed.

Lemma persistPendingTime_idle (w : World) :
  pendingTime (rolled w) = ∅ →
  persistPendingTime w = (Resolved tt, mkWorld (rolled w) (storage w) (now w) (calls w)).
Proof.
  intros He. unfold persistPendingTime.
  unfold mbind at 1, Async_bind at 1. rewrite rollForward_run.
  run. destruct (decide (pendingTime (rolled w) = ∅)); done.
Qed.

Lemma rolled_pending_mono (w : World) (d : string) :
  get_or_zero (pendingTime (state w)) d ≤ get_or_zero (pendingTime (rolled w)) d.
Proof.
  unfold rolled, world_after, rollForward. run.
  destruct w as [s st t c]; simpl.
  destruct (isTracking s && truthy_num (sessionStartTime s)
            && truthy_str (activeDomain s)); simpl; [|done].
  destruct (0 <? t - to_number (sessionStartTime s)); simpl; [|done].
  apply addPendingTime_get.
Qed.

Lemma rolled_tracking (w : World) (d : string) (start : Z) :
  isTracking (state w) = true →
  sessionStartTime (state w) = Some start → start ≠ 0 →
  activeDomain (state w) = Some d → d ≠ "" →
  rolled w =
    set_sessionStartTime (Some (now w))
      (if 0 <? now w - start
       then set_pendingTime
              (<[d := get_or_zero (pendingTime (state w)) d + (now w - start)]>
                 (pendingTime (state w))) (state w)
       else state w).
Proof.
  intros Htr Hst Hnz Hdom Hd.
  unfold rolled, world_after, rollForward. run.
  destruct w as [s st t c]; simpl in *. rewrite Htr, Hst, Hdom. simpl.
  destruct (Z.eqb_spec start 0) as [?|_]; [done|].
  destruct (String.eqb_spec d "") as [?|_]; [done|]. simpl.
  destruct (Z.ltb_spec 0 (t - start)); simpl; [|done].
  rewrite addPendingTime_pending by (done || lia). done.
Qed.

Lemma rolled_not_tracking (w : World) :
  isTracking (state w) = false → rolled w = state w.
Proof.
  intros Htr. unfold rolled, world_after, rollForward. run.
  destruct w as [s st t c]; simpl in *. by rewrite Htr.
Qed.

(** C3: [persistPendingTime] clears the pending buffer only after the write
    of today's record went through.  With [P] the buffer the flush is about
    to write (the pending amounts plus the roll-forward of a live session,
    so no amount of the buffer the flush started with is missing from it,
    and the very buffer it started with when no session is tracked):
    when the read and the write both resolve, the flush resolves, today's
    record holds for every domain its old value plus the amount of [P], and
    the buffer is empty; when the read or the write rejects, the flush
    rejects, storage is unchanged and the buffer is [P], and the buffer the
    next flush works on, whenever it runs, contains every amount of [P]. *)
Theorem persist_keeps_buffer_on_failure (w : World) :
  let P := pendingTime (rolled w) in
  let w' := world_after persistPendingTime w in
  let key := todayStorageKey w in
  P ≠ ∅ →
  (∀ d, get_or_zero (pendingTime (state w)) d ≤ get_or_zero P d) ∧
  (if isTracking (state w) then True else P = pendingTime (state w)) ∧
  if rejects (calls w) || rejects (S (calls w)) then
    result_of persistPendingTime w = Rejected ∧
    pendingTime (state w') = P ∧
    storage w' = storage w ∧
    ∀ t d, get_or_zero P d
           ≤ get_or_zero
               (pendingTime (rolled (mkWorld (state w') (storage w') t (calls w')))) d
  else
    result_of persistPendingTime w = Resolved tt ∧
    pendingTime (state w') = ∅ ∧
    ∃ record, storage w' = <[key := DailyRecord record]> (storage w) ∧
      ∀ d, get_or_zero record d
           = get_or_zero (as_daily (storage w !! key)) d + get_or_zero P d.
Proof.
  intros P w' key HP. split.
  { intros d. apply rolled_pending_mono. }
  split.
  { destruct (isTracking (state w)) eqn:Htr; [done|].
    subst P. by rewrite rolled_not_tracking. }
  subst w'. unfold result_of, world_after.
  rewrite persistPendingTime_run by done. simpl.
  destruct (rejects (calls w)); simpl.
  - repeat split. intros t d.
    apply (rolled_pending_mono (mkWorld (rolled w) _ t _) d).
  - destruct (rejects (S (calls w))); simpl.
    + repeat split. intros t d.
      apply (rolled_pending_mono (mkWorld (rolled w) _ t _) d).
    + repeat split. eexists. split; [done|].
      intros d. apply add_entries_get.
Qed.

(** ** Limits: legacy entries are upgraded on read *)

Lemma getLimits_run (w : World) :
  getLimits w =
    let w' := mkWorld (state w) (storage w)
                      (now w + Z.of_nat (delay (calls w))) (S (calls w)) in
    if rejects (calls w) then (Rejected, w')
    else (Resolved (migrate <$> as_limits (storage w !! LIMITS)), w').
Proof.
  unfold getLimits, storage_get, host_call. run.
  destruct (rejects (calls w)); [done|]. simpl. by rewrite migrate_loop.
Qed.

(** C8: [getLimits] makes one storage read and no write: whatever is stored
    under the limits key is left as it was, and unless the read rejects the
    result has, for every domain, [{limit: n, period: "day"}] where the
    stored table has the bare number [n], the stored entry where it is
    structured, and nothing where the table has nothing (or where no table
    is stored). *)
Theorem getLimits_upgrades_legacy_on_read (stored : option StoredValue) (w : World) :
  storage w !! LIMITS = stored →
  storage (world_after getLimits w) = storage w ∧
  storage (world_after getLimits w) !! LIMITS = stored ∧
  ∃ limits,
    result_of getLimits w = (if rejects (calls w) then Rejected else Resolved limits) ∧
    ∀ domain,
      limits !! domain =
        match stored with
        | Some (LimitsTable table) =>
            match table !! domain with
            | Some (LegacyMs n) => Some (Config n "day")
            | Some (Config l p) => Some (Config l p)
            | None => None
            end
        | _ => None
        end.
Proof.
  intros Hstored. unfold world_after, result_of. rewrite getLimits_run. cbv zeta.
  assert (storage w !! LIMITS = stored
          ∧ ∀ domain,
              (migrate <$> as_limits (storage w !! LIMITS)) !! domain =
                match stored with
                | Some (LimitsTable table) =>
                    match table !! domain with
                    | Some (LegacyMs n) => Some (Config n "day")
                    | Some (Config l p) => Some (Config l p)
                    | None => None
                    end
                | _ => None
                end) as [Hkept Hlimits].
  { split; [exact Hstored|]. intros domain. rewrite lookup_fmap, Hstored.
    destruct stored as [[data|table|raw]|]; simpl; rewrite ?lookup_empty; try done.
    destruct (table !! domain) as [[n|l p]|]; done. }
  destruct (rejects (calls w)); simpl;
    (split; [done|]); (split; [exact Hkept|]);
    exists (migrate <$> as_limits (storage w !! LIMITS)); (split; [done|]);
    exact Hlimits.
Qed.

(** ** Retention cleanup *)

Lemma elem_of_stored_keys (m : gmap string StoredValue) (key : string) :
  key ∈ (map_to_list m).*1 ↔ is_Some (m !! key).
Proof.
  rewrite list_elem_of_fmap. split.
  - intros [[k v] [-> Hin]]. apply elem_of_map_to_list in Hin. by exists v.
  - intros [v Hv]. exists (key, v). split; [done|]. by apply elem_of_map_to_list.
Qed.

Lemma elem_of_keysToRemove (cutoff : Z) (m : gmap string StoredValue) (key : string) :
  key ∈ List.filter (isExpired cutoff) (map_to_list m).*1
  ↔ is_Some (m !! key) ∧ isExpired cutoff key = true.
Proof.
  rewrite list_elem_of_In, filter_In, <- list_elem_of_In, elem_of_stored_keys.
  done.
Qed.


Lemma cleanupOldData_storage (w : World) :
  rejects (calls w) = false → rejects (S (calls w)) = false →
  ∀ key,
    storage (world_after cleanupOldData w) !! key =
      if isExpired (setDate_plus (now w) (- DATA_RETENTION_DAYS)) key then None
      else storage w !! key.
Proof.
  intros H1 H2 key. unfold world_after, cleanupOldData, storage_get, host_call.
  run. rewrite H1. simpl.
  set (cutoff := setDate_plus (now w) (- DATA_RETENTION_DAYS)).
  set (keys := List.filter (isExpired cutoff) (map_to_list (storage w)).*1).
  assert (storage w !! key = None ∨ isExpired cutoff key = false
          → key ∉ keys) as Hout.
  { intros Hor Hin. apply elem_of_keysToRemove in Hin as [[v Hv] He].
    destruct Hor; congruence. }
  destruct (0 <? length keys)%nat eqn:Hlen.
  - unfold storage_remove, host_call. run. rewrite H2. simpl.
    destruct (isExpired cutoff key) eqn:He.
    + destruct (storage w !! key) as [v|] eqn:Hv.
      * apply lookup_foldr_delete. apply elem_of_keysToRemove. eauto.
      * rewrite lookup_foldr_delete_not_elem_of; [done|]. apply Hout. by left.
    + rewrite lookup_foldr_delete_not_elem_of; [done|]. apply Hout. by right.
  - simpl. destruct (isExpired cutoff key) eqn:He; [|done].
    destruct (storage w !! key) as [v|] eqn:Hv; [|done].
    assert (key ∈ keys) as Hin by (apply elem_of_keysToRemove; eauto).
    destruct keys; [by apply elem_of_nil in Hin|done].
Qed.


(** ** Status queries *)

Lemma liveSessionTime_run (domain : string) (w : World) :
  liveSessionTime domain w = (Resolved (live domain w), w).
Proof.
  unfold liveSessionTime, live. run.
  by destruct (isTracking (state w)
               && bool_decide (activeDomain (state w) = Some domain)
               && truthy_num (sessionStartTime (state w))).
Qed.

Lemma getDailyData_run (date : string) (w : World) :
  getDailyData date w =
    if rejects (calls w) then (Rejected, after_call w)
    else (Resolved (as_daily (storage w !! (DAILY_PREFIX +:+ date))), after_call w).
Proof.
  unfold getDailyData, storage_get, host_call, after_call. run.
  by destruct (rejects (calls w)).
Qed.

(** A read of a period total resolves unless its one storage read rejects,
    and changes neither the state nor storage. *)
Lemma getTimeForPeriod_run (domain period : string) (w : World) :
  ∃ total,
    getTimeForPeriod domain period w =
      if rejects (calls w) then (Rejected, after_call w)
      else (Resolved total, after_call w).
Proof.
  unfold getTimeForPeriod, getTimeRange, storage_get, host_call, after_call.
  run. destruct (rejects (calls w)); simpl.
  - by exists 0.
  - unfold mbind, Async_bind. rewrite liveSessionTime_run. simpl. eauto.
Qed.

(** The total for the period [day] is today's recorded time plus the
    pending and the live session time. *)
Lemma getTimeForPeriod_day (domain : string) (w : World) :
  rejects (calls w) = false →
  getTimeForPeriod domain "day" w =
    (Resolved (get_or_zero (as_daily (storage w !! todayStorageKey w)) domain
               + get_or_zero (pendingTime (state w)) domain
               + live domain (after_call w)),
     after_call w).
Proof.
  intros Hok.
  unfold getTimeForPeriod, getTimeRange, storage_get, host_call, after_call.
  run. rewrite Hok. simpl.
  unfold mbind, Async_bind. rewrite liveSessionTime_run. simpl.
  replace (localDay (now w) - localDay (now w) + 1) with 1 by lia.
  rewrite seqZ_cons, seqZ_nil by lia. simpl.
  rewrite insert_empty, map_to_list_singleton. simpl.
  unfold aggregateDomains. simpl.
  rewrite add_entries_get. unfold todayStorageKey, get_or_zero at 1.
  rewrite lookup_empty. simpl. done.
Qed.

(** [getDomainStatus] on a domain with a limit, when its three storage reads
    resolve: the answer is built from the total that [getTimeForPeriod]
    returns for the limit's period. *)
Lemma getDomainStatus_limited (domain : string) (w : World) (cfg : LimitValue) :
  domain ≠ "" →
  as_limits (storage w !! LIMITS) !! domain = Some cfg →
  rejects (calls w) = false →
  rejects (S (calls w)) = false →
  rejects (S (S (calls w))) = false →
  ∃ todayTime,
    getDomainStatus domain w =
      let w2 := after_call (after_call w) in
      let '(limit, period) := config_of (migrate cfg) in
      match getTimeForPeriod domain period w2 with
      | (Resolved periodTime, w3) =>
          (Resolved (limitedStatus domain limit period todayTime periodTime), w3)
      | (Rejected, w3) => (Rejected, w3)
      end.
Proof.
  intros Hd Hcfg H0 H1 H2.
  unfold getDomainStatus, truthy_str.
  destruct (String.eqb_spec domain "") as [?|_]; [done|]. simpl.
  unfold mbind at 1, Async_bind at 1. rewrite getLimits_run. simpl. rewrite H0.
  unfold getTodayKey. run.
  rewrite getDailyData_run. simpl. rewrite H1.
  rewrite liveSessionTime_run, lookup_fmap, Hcfg. simpl.
  eexists. destruct (config_of (migrate cfg)) as [limit period].
  unfold after_call. simpl.
  destruct (getTimeForPeriod domain period _) as [[pt|] w3]; reflexivity.
Qed.

Lemma config_of_migrate (cfg : LimitValue) : config_of (migrate cfg) = config_of cfg.
Proof. by destruct cfg. Qed.

(** C10: for a domain with a limit, [getDomainStatus] (its three storage
    reads resolving) answers with [hasLimit], and on the period total [pt]
    and the limit [l] it reports: [limitExceeded] exactly when [pt > l];
    [exceededBy = pt - l] when exceeded and [0] otherwise;
    [remainingTime = max(0, l - pt)], which is never negative.  When the
    total equals the limit the answer is not exceeded, exceeded by 0, with 0
    remaining. *)
Theorem limit_test_is_strict (domain : string) (w : World) (cfg : LimitValue) :
  domain ≠ "" →
  as_limits (storage w !! LIMITS) !! domain = Some cfg →
  rejects (calls w) = false →
  rejects (S (calls w)) = false →
  rejects (S (S (calls w))) = false →
  ∃ status l pt,
    result_of (getDomainStatus domain) w = Resolved status ∧
    hasLimit status = true ∧
    limit status = Some l ∧ l = (config_of cfg).1 ∧
    periodTime status = Some pt ∧
    (limitExceeded status = true ↔ l < pt) ∧
    exceededBy status = Some (if limitExceeded status then pt - l else 0) ∧
    remainingTime status = Some (Z.max 0 (l - pt)) ∧
    0 ≤ Z.max 0 (l - pt) ∧
    (pt = l →
       limitExceeded status = false ∧ exceededBy status = Some 0
       ∧ remainingTime status = Some 0).
Proof.
  intros Hd Hcfg H0 H1 H2.
  destruct (getDomainStatus_limited domain w cfg Hd Hcfg H0 H1 H2) as [today Hrun].
  unfold result_of. rewrite Hrun. clear Hrun. simpl.
  rewrite config_of_migrate. destruct (config_of cfg) as [l period]. simpl.
  destruct (getTimeForPeriod_run domain period (after_call (after_call w)))
    as [pt Hpt].
  rewrite Hpt. simpl. rewrite H2. simpl.
  exists (limitedStatus domain l period today pt), l, pt. simpl.
  split; [done|]. split; [done|]. split; [done|]. split; [done|].
  split; [done|]. split; [apply Z.ltb_lt|]. split; [done|].
  split; [done|]. split; [lia|].
  intros ->. rewrite Z.ltb_irrefl. repeat split. f_equal. lia.
Qed.

(** C7: a domain with the limit [{limit: 60000, period: "day"}] and 70000 ms
    in today's record, nothing pending for it and no session running on it:
    [getDomainStatus] (its three storage reads resolving) answers
    [hasLimit = true], [limitExceeded = true], [exceededBy = 10000].  Today
    is the local day on which the period total is read, after the reads of
    the limits and of today's record. *)
Theorem status_exceeded_by_10000 (domain : string) (w : World)
    (record : gmap string Z) :
  domain ≠ "" →
  as_limits (storage w !! LIMITS) !! domain = Some (Config 60000 "day") →
  storage w !! todayStorageKey (after_call (after_call w))
    = Some (DailyRecord record) →
  record !! domain = Some 70000 →
  pendingTime (state w) !! domain = None →
  isTracking (state w) = false ∨ activeDomain (state w) ≠ Some domain →
  rejects (calls w) = false →
  rejects (S (calls w)) = false →
  rejects (S (S (calls w))) = false →
  ∃ status,
    result_of (getDomainStatus domain) w = Resolved status ∧
    hasLimit status = true ∧
    limitExceeded status = true ∧
    exceededBy status = Some 10000.
Proof.
  intros Hd Hcfg Hrec Hdom Hpend Hidle H0 H1 H2.
  destruct (getDomainStatus_limited domain w _ Hd Hcfg H0 H1 H2) as [today Hrun].
  unfold result_of. rewrite Hrun. clear Hrun. simpl.
  rewrite getTimeForPeriod_day by done.
  change (storage (after_call (after_call w))) with (storage w).
  rewrite Hrec. simpl.
  assert (live domain (after_call (after_call (after_call w))) = 0) as ->.
  { unfold live. simpl. destruct Hidle as [->|Hne]; [done|].
    rewrite bool_decide_eq_false_2 by done. by rewrite andb_false_r. }
  unfold get_or_zero. rewrite Hdom, Hpend. simpl.
  eexists. repeat split.
Qed.

(** ** Flush: roll-forward of a live session *)

(** What the roll-forward does to a live session whose start time and
    domain the code sees (a non-zero start, a non-empty domain), read at a
    clock that is not behind the session start. *)
Lemma rollForward_credit (w : World) (d : string) (start : Z) :
  isTracking (state w) = true →
  sessionStartTime (state w) = Some start → start ≠ 0 →
  activeDomain (state w) = Some d → d ≠ "" →
  start ≤ now w →
  get_or_zero (pendingTime (rolled w)) d
    = get_or_zero (pendingTime (state w)) d + (now w - start) ∧
  (∀ d', d' ≠ d → pendingTime (rolled w) !! d' = pendingTime (state w) !! d') ∧
  sessionStartTime (rolled w) = Some (now w) ∧
  isTracking (rolled w) = true ∧
  activeDomain (rolled w) = Some d ∧
  lastActivityTime (rolled w) = lastActivityTime (state w).
Proof.
  intros Htr Hst Hnz Hdom Hd Hle.
  rewrite (rolled_tracking w d start) by done.
  destruct (Z.ltb_spec 0 (now w - start)); simpl.
  - unfold get_or_zero at 1. rewrite lookup_insert_eq. simpl.
    repeat split; try done. intros d' Hne. by rewrite lookup_insert_ne.
  - repeat split; try done. lia.
Qed.

(** The state of a flush's outcome: the rolled state, with the buffer
    cleared if the flush resolved after a write. *)
Lemma persistPendingTime_state (w : World) :
  let w' := world_after persistPendingTime w in
  (state w' = rolled w ∨
   (result_of persistPendingTime w = Resolved tt
    ∧ state w' = set_pendingTime ∅ (rolled w))) ∧
  now w ≤ now w'.
Proof.
  unfold world_after, result_of.
  destruct (decide (pendingTime (rolled w) = ∅)) as [He|Hne].
  - rewrite persistPendingTime_idle by done. simpl. split; [by left|lia].
  - rewrite persistPendingTime_run by done. simpl.
    destruct (rejects (calls w)); simpl; [split; [by left|lia]|].
    destruct (rejects (S (calls w))); simpl; (split; [|lia]); [by left|by right].
Qed.

Lemma persistPendingTime_resolved_empty (w : World) :
  result_of persistPendingTime w = Resolved tt →
  pendingTime (state (world_after persistPendingTime w)) = ∅.
Proof.
  unfold world_after, result_of.
  destruct (decide (pendingTime (rolled w) = ∅)) as [He|Hne].
  - rewrite persistPendingTime_idle by done. done.
  - rewrite persistPendingTime_run by done. simpl.
    destruct (rejects (calls w)); simpl; [done|].
    destruct (rejects (S (calls w))); simpl; done.
Qed.

(** C5, as the code has it: after a flush that resolved the pending buffer
    is empty, and a second flush with no activity in between, reading the
    clock at [t], resolves without any storage call and leaves storage and
    the (empty) buffer as they are, provided no session is being tracked or
    the clock has not moved past the first flush's reading.  (While a
    session is tracked, a later flush rolls it forward and writes the time
    elapsed since the first.) *)
Theorem second_flush_is_noop (w : World) (t : Z) :
  let w1 := world_after persistPendingTime w in
  let w1t := mkWorld (state w1) (storage w1) t (calls w1) in
  let w2 := world_after persistPendingTime w1t in
  result_of persistPendingTime w = Resolved tt →
  isTracking (state w) = false ∨ t ≤ now w →
  pendingTime (state w1) = ∅ ∧
  result_of persistPendingTime w1t = Resolved tt ∧
  calls w2 = calls w1 ∧
  storage w2 = storage w1 ∧
  pendingTime (state w2) = ∅.
Proof.
  intros w1 w1t w2 Hres Hcase.
  pose proof (persistPendingTime_resolved_empty w Hres) as Hempty.
  fold w1 in Hempty. split; [done|].
  assert (pendingTime (rolled w1t) = ∅) as Hr.
  { destruct (persistPendingTime_state w) as [Hst _]. fold w1 in Hst.
    assert (∀ s, pendingTime s = ∅ →
              (isTracking s = false ∨
               (isTracking s = true ∧ ∃ t0, sessionStartTime s = Some t0 ∧ t ≤ t0)
               ∨ truthy_num (sessionStartTime s) && truthy_str (activeDomain s) = false) →
              ∀ st c, pendingTime (rolled (mkWorld s st t c)) = ∅) as Hgen.
    { intros s Hs Hc st c. unfold rolled, world_after, rollForward. run.
      destruct Hc as [->|[[-> [t0 [-> Hle]]]|Hc]]; simpl; [done| |].
      - destruct (negb (t0 =? 0) && truthy_str (activeDomain s)); simpl; [|done].
        destruct (Z.ltb_spec 0 (t - t0)); [lia|done].
      - rewrite <- andb_assoc, Hc, andb_false_r. done. }
    apply Hgen; [done|].
    assert (isTracking (state w1) = isTracking (rolled w)
            ∧ sessionStartTime (state w1) = sessionStartTime (rolled w)
            ∧ activeDomain (state w1) = activeDomain (rolled w)) as (-> & -> & ->).
    { destruct Hst as [->|[_ ->]]; done. }
    destruct Hcase as [Hidle|Hle].
    { left. by rewrite rolled_not_tracking. }
    destruct (isTracking (state w)) eqn:Htr; [|left; by rewrite rolled_not_tracking].
    destruct (truthy_num (sessionStartTime (state w))
              && truthy_str (activeDomain (state w))) eqn:Htruthy.
    - right. left. apply andb_true_iff in Htruthy as [Hs Hd].
      destruct (sessionStartTime (state w)) as [start|] eqn:Hstart; [|done].
      destruct (activeDomain (state w)) as [d|] eqn:Hdom; [|done].
      simpl in Hs, Hd. apply negb_true_iff in Hs, Hd.
      apply Z.eqb_neq in Hs. apply String.eqb_neq in Hd.
      rewrite (rolled_tracking w d start) by done. simpl.
      split; [by destruct (0 <? now w - start)|eauto].
    - right. right.
      assert (rolled w = state w) as ->; [|done].
      unfold rolled, world_after, rollForward. run.
      rewrite <- andb_assoc, Htruthy, andb_false_r. done. }
  subst w2. unfold result_of, world_after.
  rewrite persistPendingTime_idle by done. simpl. done.
Qed.

(** ** Computations that only read *)

Lemma quiet_ret {A} (a : A) : quiet (mret a).
Proof. intros w. unfold world_after. simpl. repeat split. lia. Qed.

Lemma quiet_bind {A B} (m : Async A) (k : A → Async B) :
  quiet m → (∀ a, quiet (k a)) → quiet (m ≫= k).
Proof.
  intros Hm Hk w. destruct (Hm w) as (Hs & Hst & Ht).
  unfold world_after in *. unfold mbind, Async_bind.
  destruct (m w) as [[a|] w1]; simpl in *; [|done].
  destruct (Hk a w1) as (Hs' & Hst' & Ht'). unfold world_after in *.
  rewrite Hs', Hst'. repeat split; try done. lia.
Qed.

Lemma quiet_try_catch {A} (m h : Async A) :
  quiet m → quiet h → quiet (try_catch m h).
Proof.
  intros Hm Hh w. destruct (Hm w) as (Hs & Hst & Ht).
  unfold world_after, try_catch in *.
  destruct (m w) as [[a|] w1]; simpl in *; [done|].
  destruct (Hh w1) as (Hs' & Hst' & Ht'). unfold world_after in *.
  rewrite Hs', Hst'. repeat split; try done. lia.
Qed.

Lemma quiet_host_call : quiet host_call.
Proof.
  intros w. unfold world_after, host_call.
  destruct (rejects (calls w)); simpl; repeat split; lia.
Qed.

Lemma quiet_get_state : quiet get_state.
Proof. intros w. unfold world_after. simpl. repeat split. lia. Qed.

Lemma quiet_Date_now : quiet Date_now.
Proof. intros w. unfold world_after. simpl. repeat split. lia. Qed.

Lemma quiet_read_storage : quiet read_storage.
Proof. intros w. unfold world_after. simpl. repeat split. lia. Qed.

Ltac quiet_step :=
  repeat first
    [ apply quiet_ret | apply quiet_host_call | apply quiet_get_state
    | apply quiet_Date_now | apply quiet_read_storage
    | apply quiet_bind; [|intros ?]
    | apply quiet_try_catch ].

Lemma quiet_storage_get : quiet storage_get.
Proof. unfold storage_get. quiet_step. Qed.

Lemma quiet_getLimits : quiet getLimits.
Proof. unfold getLimits. apply quiet_bind; [apply quiet_storage_get|]. intros ?. quiet_step. Qed.

Lemma quiet_getDailyData (date : string) : quiet (getDailyData date).
Proof. unfold getDailyData. apply quiet_bind; [apply quiet_storage_get|]. intros ?. quiet_step. Qed.

Lemma quiet_liveSessionTime (domain : string) : quiet (liveSessionTime domain).
Proof.
  unfold liveSessionTime. apply quiet_bind; [quiet_step|]. intros s.
  destruct (_ && _); quiet_step.
Qed.

Lemma quiet_getTimeForPeriod (domain period : string) :
  quiet (getTimeForPeriod domain period).
Proof.
  unfold getTimeForPeriod, getTimeRange.
  apply quiet_bind; [quiet_step|]. intros t.
  apply quiet_bind.
  { apply quiet_bind; [apply quiet_storage_get|]. intros ?. quiet_step. }
  intros ?. apply quiet_bind; [quiet_step|]. intros ?.
  apply quiet_bind; [apply quiet_liveSessionTime|]. intros ?. quiet_step.
Qed.

Lemma quiet_getDomainStatus (domain : string) : quiet (getDomainStatus domain).
Proof.
  unfold getDomainStatus. destruct (negb _); [quiet_step|].
  apply quiet_bind; [apply quiet_getLimits|]. intros limits.
  apply quiet_bind; [unfold getTodayKey; quiet_step|]. intros key.
  apply quiet_bind; [apply quiet_getDailyData|]. intros today.
  apply quiet_bind; [quiet_step|]. intros s.
  apply quiet_bind; [apply quiet_liveSessionTime|]. intros l.
  destruct (limits !! domain) as [cfg|]; [|quiet_step].
  destruct (config_of cfg) as [lim per].
  apply quiet_bind; [apply quiet_getTimeForPeriod|]. intros ?. quiet_step.
Qed.

(** ** Activity signals *)

Lemma truthy_num_Some (n : Z) : n ≠ 0 → truthy_num (Some n) = true.
Proof. intros H. unfold truthy_num. by destruct (Z.eqb_spec n 0). Qed.

Lemma truthy_str_Some (d : string) : d ≠ "" → truthy_str (Some d) = true.
Proof. intros H. unfold truthy_str. by destruct (String.eqb_spec d ""). Qed.

Lemma addPendingTime_isTracking (dom : option string) (ms : Z) (s : State) :
  isTracking (addPendingTime dom ms s) = isTracking s.
Proof.
  unfold addPendingTime. destruct (_ || _); [done|]. by destruct dom.
Qed.

Lemma rolled_isTracking (w : World) : isTracking (rolled w) = isTracking (state w).
Proof.
  unfold rolled, world_after, rollForward. run.
  destruct (isTracking (state w) && truthy_num (sessionStartTime (state w))
            && truthy_str (activeDomain (state w))); simpl; [|done].
  destruct (0 <? now w - to_number (sessionStartTime (state w))); simpl; [|done].
  apply addPendingTime_isTracking.
Qed.

(** The activity step when no session is running: a session starts now. *)
Lemma recordActivity_start (w : World) :
  isTracking (state w) = false →
  recordActivity w =
    (Resolved (now w),
     mkWorld (set_lastActivityTime (Some (now w))
                (set_sessionStartTime (Some (now w))
                   (set_isTracking true (state w))))
             (storage w) (now w) (calls w)).
Proof.
  intros Htr. unfold recordActivity. run. rewrite Htr. simpl.
  rewrite Htr. simpl. run. done.
Qed.

(** The activity step within the inactivity threshold: only
    [lastActivityTime] moves. *)
Lemma recordActivity_continue (w : World) (last : Z) :
  isTracking (state w) = true →
  lastActivityTime (state w) = Some last →
  now w - last < INACTIVITY_TIMEOUT_MS →
  recordActivity w =
    (Resolved (now w),
     mkWorld (set_lastActivityTime (Some (now w)) (state w))
             (storage w) (now w) (calls w)).
Proof.
  intros Htr Hlast Hgap. unfold recordActivity. run. rewrite Htr, Hlast. simpl.
  destruct (negb (last =? 0)); simpl.
  - destruct (Z.leb_spec INACTIVITY_TIMEOUT_MS (now w - last)); [lia|].
    simpl. rewrite Htr. done.
  - rewrite Htr. done.
Qed.

(** The activity step after a gap with nothing to credit: the session
    restarts now, without a flush. *)
Lemma recordActivity_gap_no_credit (w : World) (last : Z) :
  isTracking (state w) = true →
  lastActivityTime (state w) = Some last → last ≠ 0 →
  INACTIVITY_TIMEOUT_MS ≤ now w - last →
  (0 <? last - to_number (sessionStartTime (state w)))
    && truthy_str (activeDomain (state w)) = false →
  recordActivity w =
    (Resolved (now w),
     mkWorld (set_lastActivityTime (Some (now w))
                (set_sessionStartTime (Some (now w)) (state w)))
             (storage w) (now w) (calls w)).
Proof.
  intros Htr Hlast Hnz Hgap Hno. unfold recordActivity. run.
  rewrite Htr, Hlast. simpl. rewrite Hno.
  destruct (Z.eqb_spec last 0) as [?|_]; [done|]. simpl.
  destruct (Z.leb_spec INACTIVITY_TIMEOUT_MS (now w - last)); [|lia].
  simpl. rewrite Htr. done.
Qed.

(** The activity step after a gap with a positive amount to credit: the
    amount goes to the pending buffer and a flush runs before the session
    restarts. *)
Lemma recordActivity_gap_credit (w : World) (last : Z) :
  isTracking (state w) = true →
  lastActivityTime (state w) = Some last → last ≠ 0 →
  INACTIVITY_TIMEOUT_MS ≤ now w - last →
  (0 <? last - to_number (sessionStartTime (state w)))
    && truthy_str (activeDomain (state w)) = true →
  recordActivity w =
    let wa := mkWorld (addPendingTime (activeDomain (state w))
                         (last - to_number (sessionStartTime (state w))) (state w))
                      (storage w) (now w) (calls w) in
    match persistPendingTime wa with
    | (Resolved _, w') =>
        (Resolved (now w),
         mkWorld (set_lastActivityTime (Some (now w))
                    (set_sessionStartTime (Some (now w)) (state w')))
                 (storage w') (now w') (calls w'))
    | (Rejected, w') => (Rejected, w')
    end.
Proof.
  intros Htr Hlast Hnz Hgap Hyes. unfold recordActivity. run.
  rewrite Htr, Hlast. simpl. rewrite Hyes.
  destruct (Z.eqb_spec last 0) as [?|_]; [done|]. simpl.
  destruct (Z.leb_spec INACTIVITY_TIMEOUT_MS (now w - last)); [|lia].
  simpl.
  destruct (persistPendingTime _) as [[[]|] w'] eqn:Hp; simpl; [|done].
  assert (isTracking (state w') = true) as ->; [|done].
  pose proof (persistPendingTime_state
    (mkWorld (addPendingTime (activeDomain (state w))
                (last - to_number (sessionStartTime (state w))) (state w))
             (storage w) (now w) (calls w))) as [Hst _].
  unfold world_after, result_of in Hst. rewrite Hp in Hst. simpl in Hst.
  destruct Hst as [->|[_ ->]]; simpl; rewrite rolled_isTracking; simpl;
    by rewrite addPendingTime_isTracking.
Qed.

Lemma rolled_pending_nonempty (w : World) :
  pendingTime (state w) ≠ ∅ → pendingTime (rolled w) ≠ ∅.
Proof.
  intros Hne. unfold rolled, world_after, rollForward. run.
  destruct (isTracking (state w) && truthy_num (sessionStartTime (state w))
            && truthy_str (activeDomain (state w))); simpl; [|done].
  destruct (0 <? now w - to_number (sessionStartTime (state w))); simpl; [|done].
  unfold addPendingTime. destruct (_ || _); [done|].
  destruct (activeDomain (state w)); [|done]. simpl. apply insert_non_empty.
Qed.

Lemma recordActivity_after_gap (w : World) (last : Z) :
  isTracking (state w) = true →
  lastActivityTime (state w) = Some last → last ≠ 0 →
  INACTIVITY_TIMEOUT_MS ≤ now w - last →
  gapOutcome w last.
Proof.
  intros Htr Hlast Hnz Hgap. unfold gapOutcome.
  set (activeTime := last - to_number (sessionStartTime (state w))).
  set (w' := world_after recordActivity w).
  destruct ((0 <? activeTime) && truthy_str (activeDomain (state w))) eqn:Hc.
  2: { by apply (recordActivity_gap_no_credit w last). }
  apply andb_true_iff in Hc as Hc'. destruct Hc' as [Hpos Hdom].
  apply Z.ltb_lt in Hpos.
  destruct (activeDomain (state w)) as [d|] eqn:Hd; [|done].
  assert (d ≠ "") as Hdne.
  { simpl in Hdom. apply negb_true_iff in Hdom. by apply String.eqb_neq. }
  subst w'. unfold result_of, world_after.
  rewrite (recordActivity_gap_credit w last) by (done || by rewrite Hd).
  simpl. rewrite Hd.
  set (wa := mkWorld (addPendingTime (Some d) activeTime (state w))
                     (storage w) (now w) (calls w)).
  assert (pendingTime (state wa)
          = <[d := get_or_zero (pendingTime (state w)) d + activeTime]>
              (pendingTime (state w))) as Hwa.
  { subst wa. simpl. by rewrite addPendingTime_pending. }
  assert (pendingTime (rolled wa) ≠ ∅) as Hne.
  { apply rolled_pending_nonempty. rewrite Hwa. apply insert_non_empty. }
  rewrite persistPendingTime_run by done. simpl.
  destruct (rejects (calls w)); simpl; [done|].
  destruct (rejects (S (calls w))); simpl; [done|].
  fold activeTime. fold wa.
  split; [done|]. split; [done|]. split; [done|].
  split. { rewrite rolled_isTracking. subst wa. simpl.
           by rewrite addPendingTime_isTracking. }
  split; [done|].
  exists d. eexists. split; [done|]. split; [done|].
  rewrite add_entries_get.
  pose proof (rolled_pending_mono wa d) as Hmono.
  rewrite Hwa in Hmono. unfold get_or_zero at 1 in Hmono.
  rewrite lookup_insert_eq in Hmono. simpl in Hmono.
  change (todayStorageKey wa) with (todayStorageKey w). lia.
Qed.

(** What the activity step writes after a gap when the session has a
    positive time up to its last activity: the flush it calls runs while
    the session still counts as tracked from its old start, so the flush's
    roll-forward adds [now - sessionStartTime], the idle gap included, on
    top of the [lastActivityTime - sessionStartTime] just credited. *)
Lemma gap_credit (w : World) (d : string) (start last : Z) :
  isTracking (state w) = true →
  sessionStartTime (state w) = Some start → start ≠ 0 →
  lastActivityTime (state w) = Some last → last ≠ 0 →
  activeDomain (state w) = Some d → d ≠ "" →
  start < last →
  INACTIVITY_TIMEOUT_MS ≤ now w - last →
  rejects (calls w) = false → rejects (S (calls w)) = false →
  let w' := world_after recordActivity w in
  isTracking (state w') = true ∧
  sessionStartTime (state w') = Some (now w) ∧
  lastActivityTime (state w') = Some (now w) ∧
  pendingTime (state w') = ∅ ∧
  ∃ record,
    storage w' = <[todayStorageKey w := DailyRecord record]> (storage w) ∧
    get_or_zero record d
      = get_or_zero (as_daily (storage w !! todayStorageKey w)) d
        + get_or_zero (pendingTime (state w)) d
        + (last - start) + (now w - start).
Proof.
  intros Htr Hst Hsnz Hlast Hlnz Hdom Hd Hlt Hgap H1 H2 w'. subst w'.
  unfold world_after.
  rewrite (recordActivity_gap_credit w last); try done.
  2: { rewrite Hst, Hdom. simpl.
       destruct (Z.ltb_spec 0 (last - start)); [|lia].
       by destruct (String.eqb_spec d ""). }
  cbv zeta. rewrite Hst, Hdom. simpl.
  set (wa := mkWorld (addPendingTime (Some d) (last - start) (state w))
                     (storage w) (now w) (calls w)).
  assert (state wa
          = set_pendingTime
              (<[d := get_or_zero (pendingTime (state w)) d + (last - start)]>
                 (pendingTime (state w))) (state w)) as Hwa.
  { subst wa. simpl. by rewrite addPendingTime_pending by (done || lia). }
  assert (rolled wa
          = set_sessionStartTime (Some (now w))
              (set_pendingTime
                 (<[d := get_or_zero (pendingTime (state w)) d + (last - start)
                         + (now w - start)]> (pendingTime (state w))) (state w)))
    as Hrolled.
  { rewrite (rolled_tracking wa d start); rewrite ?Hwa; try done.
    change (now wa) with (now w).
    destruct (Z.ltb_spec 0 (now w - start)); [|unfold INACTIVITY_TIMEOUT_MS in *; lia].
    simpl. unfold get_or_zero at 1. rewrite lookup_insert_eq. simpl.
    by rewrite insert_insert_eq. }
  assert (pendingTime (rolled wa) ≠ ∅) as Hne.
  { rewrite Hrolled. simpl. apply insert_non_empty. }
  rewrite persistPendingTime_run by done. cbv zeta.
  change (calls wa) with (calls w). rewrite H1, H2, Hrolled. simpl.
  split; [done|]. split; [done|]. split; [done|]. split; [done|].
  eexists. split; [done|].
  rewrite add_entries_get. unfold get_or_zero at 2.
  rewrite lookup_insert_eq. simpl.
  change (todayStorageKey wa) with (todayStorageKey w). lia.
Qed.

(** Sequencing with a quiet computation does not change the state or
    storage a computation ends in. *)
Lemma then_quiet {A B C} (m : Async A) (n : A → Async B) (k : Async C) (w : World) :
  quiet k →
  state (world_after (a ← m; n a;; k) w) = state (world_after (a ← m; n a) w)
  ∧ storage (world_after (a ← m; n a;; k) w) = storage (world_after (a ← m; n a) w).
Proof.
  intros Hk. unfold world_after, mbind, Async_bind.
  destruct (m w) as [[a|] w1]; simpl; [|done].
  destruct (n a w1) as [[b|] w2]; simpl; [|done].
  destruct (Hk w2) as (Hs & Hst & _). done.
Qed.

(** An activity signal from the tab and domain already recorded as active
    goes straight to the activity step and the periodic flush. *)
Lemma handleActivityDetected_on_active_tab (tab : Z) (d : string) (q : option Z)
    (w : World) :
  activeTabId (state w) = Some tab →
  activeDomain (state w) = Some d →
  let w' := world_after (handleActivityDetected tab d q) w in
  let wr := world_after (t ← recordActivity; periodicPersist t) w in
  state w' = state wr ∧ storage w' = storage wr.
Proof.
  intros Htab Hdom w' wr. subst w' wr.
  pose proof (then_quiet recordActivity periodicPersist (getDomainStatus d) w
                (quiet_getDomainStatus d)) as Hq.
  assert (handleActivityDetected tab d q w
          = (t ← recordActivity; periodicPersist t;; getDomainStatus d) w) as Heq.
  { unfold handleActivityDetected, confirmActiveTab, switchDomain. run.
    rewrite Htab.
    rewrite bool_decide_eq_false_2 by done.
    rewrite bool_decide_eq_true_2 by done. simpl.
    rewrite Hdom. rewrite bool_decide_eq_true_2 by done. simpl. done. }
  unfold world_after in *. rewrite Heq. done.
Qed.

Lemma dispatch_activity (t : Z) (tab : Z) (d : string) (q : option Z) (w : World) :
  dispatch t (ActivityDetected tab d q) w
  = world_after (handleActivityDetected tab d q)
      (mkWorld (state w) (storage w) t (calls w)).
Proof.
  unfold dispatch, world_after, handle. run.
  by destruct (handleActivityDetected _ _ _ _) as [[?|] ?].
Qed.

Lemma periodicPersist_run (t : Z) (w : World) :
  periodicPersist t w =
    if persistDue (state w) t then
      (Resolved tt,
       world_after persistPendingTime
         (mkWorld (set_lastPersistTime (Some t) (state w))
                  (storage w) (now w) (calls w)))
    else (Resolved tt, w).
Proof.
  unfold periodicPersist, persistDue, world_after. run.
  destruct (match lastPersistTime (state w) with
            | Some p => 30000 <? t - p
            | None => true
            end); [|done].
  by destruct (persistPendingTime _) as [[[]|] w'].
Qed.

Lemma rolled_trackingOn (tab : Z) (d : string) (start last : Z) (lp : option Z)
    st t c :
  start ≠ 0 → d ≠ "" → t ≤ start →
  rolled (mkWorld (trackingOn tab d start last lp) st t c)
  = trackingOn tab d t last lp.
Proof.
  intros Hs Hd Hle. rewrite (rolled_tracking _ d start) by done. simpl.
  destruct (Z.ltb_spec 0 (t - start)); [lia|done].
Qed.

(** First signal on an idle worker at a non-zero clock reading [now w]: a
    session starts, nothing is credited. *)
Lemma first_activity (tab : Z) (d : string) (q : option Z) (w : World) :
  state w = idleOn tab d → d ≠ "" → now w ≠ 0 →
  let w' := world_after (handleActivityDetected tab d q) w in
  state w' = trackingOn tab d (now w) (now w) (Some (now w))
  ∧ storage w' = storage w.
Proof.
  intros Hst Hd Hnow w'. subst w'.
  destruct (handleActivityDetected_on_active_tab tab d q w) as [-> ->];
    [by rewrite Hst..|].
  unfold world_after, mbind, Async_bind.
  rewrite recordActivity_start by (by rewrite Hst).
  rewrite periodicPersist_run. rewrite Hst. simpl.
  change (set_lastPersistTime _ _)
    with (trackingOn tab d (now w) (now w) (Some (now w))).
  unfold world_after. rewrite persistPendingTime_idle.
  - simpl. by rewrite rolled_trackingOn by (done || lia).
  - by rewrite rolled_trackingOn by (done || lia).
Qed.

(** A later signal on the same tab and domain, [gap] after the only
    activity of the session at [t0]: within the threshold only
    [lastActivityTime] moves; at or past it the session restarts at the
    current time.  Either way nothing is credited. *)
Lemma second_activity (tab : Z) (d : string) (q : option Z) (t0 gap : Z) (w : World) :
  state w = trackingOn tab d t0 t0 (Some t0) → d ≠ "" → t0 ≠ 0 →
  now w = t0 + gap → 0 ≤ gap ≤ 30000 →
  let w' := world_after (handleActivityDetected tab d q) w in
  state w' = trackingOn tab d (if INACTIVITY_TIMEOUT_MS <=? gap then now w else t0)
                        (now w) (Some t0)
  ∧ storage w' = storage w.
Proof.
  intros Hst Hd Ht0 Hnow Hgap w'. subst w'.
  destruct (handleActivityDetected_on_active_tab tab d q w) as [-> ->];
    [by rewrite Hst..|].
  unfold world_after, mbind, Async_bind.
  assert (persistDue (trackingOn tab d t0 t0 (Some t0)) (now w) = false) as Hdue.
  { unfold persistDue. simpl. apply Z.ltb_ge. lia. }
  destruct (Z.leb_spec INACTIVITY_TIMEOUT_MS gap) as [Hge|Hlt].
  - rewrite (recordActivity_gap_no_credit w t0)
      by (rewrite ?Hst; simpl; first [done | lia | by rewrite Z.sub_diag]).
    rewrite periodicPersist_run, Hst. simpl.
    unfold persistDue in *. simpl in *. rewrite Hdue. done.
  - rewrite (recordActivity_continue w t0)
      by (rewrite ?Hst; simpl; first [done | lia]).
    rewrite periodicPersist_run, Hst. simpl.
    unfold persistDue in *. simpl in *. rewrite Hdue. done.
Qed.

(** The inline inactivity check in every case.  An activity step (lines
    228-255) that finds a session running with a non-zero
    [lastActivityTime] at least 15000 ms old ends as [gapOutcome] says: the
    session restarts at the current time ([sessionStartTime =
    lastActivityTime = now], still tracking); a positive
    [lastActivityTime - sessionStartTime] is credited and flushed at once
    (what the flush then writes is in [gap_credit]), a non-positive one is
    not credited and no flush runs.  In particular, on a worker idle on a
    tab, a signal at a clock reading [t0] other than 0 and the next one at
    [t0 + 20000], same tab and domain, credit nothing (empty buffer, storage
    untouched) and leave a session that started at [t0 + 20000]. *)
Theorem activity_after_gap_restarts_session :
  (∀ (w : World) (last : Z),
     isTracking (state w) = true →
     lastActivityTime (state w) = Some last → last ≠ 0 →
     INACTIVITY_TIMEOUT_MS ≤ now w - last →
     gapOutcome w last) ∧
  (∀ (tab : Z) (d : string) (q q' : option Z) (t0 : Z) (w : World),
     t0 ≠ 0 → d ≠ "" → state w = idleOn tab d →
     let w1 := dispatch t0 (ActivityDetected tab d q) w in
     let w2 := dispatch (t0 + 20000) (ActivityDetected tab d q') w1 in
     pendingTime (state w2) = ∅ ∧
     storage w2 = storage w ∧
     isTracking (state w2) = true ∧
     sessionStartTime (state w2) = Some (t0 + 20000) ∧
     lastActivityTime (state w2) = Some (t0 + 20000)).
Proof.
  split; [apply recordActivity_after_gap|].
  intros tab d q q' t0 w Ht0 Hd Hst w1 w2. subst w1 w2.
  rewrite !dispatch_activity.
  set (wa := mkWorld (state w) (storage w) t0 (calls w)).
  destruct (first_activity tab d q wa) as [Hs1 Hst1]; [done..|].
  set (w1 := world_after (handleActivityDetected tab d q) wa) in *.
  set (wb := mkWorld (state w1) (storage w1) (t0 + 20000) (calls w1)).
  destruct (second_activity tab d q' t0 20000 wb) as [Hs2 Hst2];
    [done|done|done|done|lia|].
  rewrite Hs2, Hst2. simpl. done.
Qed.

(** C4, as the code has it.  A flush that finds a session running with a
    non-zero [sessionStartTime] not ahead of the clock and a non-empty
    [activeDomain] first adds [now - sessionStartTime] to the domain's
    pending amount (the buffer [P] it then writes), leaves the other
    domains' amounts alone, and ends, resolved or rejected, with
    [sessionStartTime = now] and the session still tracked.  In particular,
    on a worker idle on a tab, signals at a clock reading [t0] other than 0
    and at [t0 + 10000], then a flush at [t0 + 10000]: the buffer the flush
    writes is exactly 10000 ms for that domain; when the read and the write
    resolve, today's record gains exactly 10000 ms for the domain and
    nothing for any other, otherwise the 10000 ms stay pending. *)
Theorem flush_rolls_session_forward :
  (∀ (w : World) (d : string) (start : Z),
     isTracking (state w) = true →
     sessionStartTime (state w) = Some start → start ≠ 0 →
     activeDomain (state w) = Some d → d ≠ "" →
     start ≤ now w →
     let P := pendingTime (rolled w) in
     let w' := world_after persistPendingTime w in
     get_or_zero P d = get_or_zero (pendingTime (state w)) d + (now w - start) ∧
     (∀ d', d' ≠ d → P !! d' = pendingTime (state w) !! d') ∧
     sessionStartTime (state w') = Some (now w) ∧
     isTracking (state w') = true ∧
     activeDomain (state w') = Some d) ∧
  (∀ (tab : Z) (d : string) (q q' : option Z) (t0 : Z) (w : World),
     t0 ≠ 0 → d ≠ "" → state w = idleOn tab d →
     let w1 := dispatch t0 (ActivityDetected tab d q) w in
     let w2 := dispatch (t0 + 10000) (ActivityDetected tab d q') w1 in
     let w2t := mkWorld (state w2) (storage w2) (t0 + 10000) (calls w2) in
     let w3 := dispatch (t0 + 10000) FlushTick w2 in
     pendingTime (rolled w2t) = {[d := 10000]} ∧
     isTracking (state w3) = true ∧
     sessionStartTime (state w3) = Some (t0 + 10000) ∧
     if rejects (calls w2) || rejects (S (calls w2)) then
       pendingTime (state w3) = {[d := 10000]} ∧ storage w3 = storage w
     else
       pendingTime (state w3) = ∅ ∧
       ∃ record,
         storage w3 = <[todayStorageKey w2t := DailyRecord record]> (storage w) ∧
         get_or_zero record d
           = get_or_zero (as_daily (storage w !! todayStorageKey w2t)) d + 10000 ∧
         ∀ d', d' ≠ d →
           record !! d' = as_daily (storage w !! todayStorageKey w2t) !! d').
Proof.
  split.
  - intros w d start Htr Hst Hnz Hdom Hd Hle P w'.
    destruct (rollForward_credit w d start) as (H1 & H2 & H3 & H4 & H5 & _);
      [done..|].
    split; [done|]. split; [done|].
    destruct (persistPendingTime_state w) as [[Hs|[_ Hs]] _];
      subst w'; rewrite Hs; done.
  - intros tab d q q' t0 w Ht0 Hd Hst w1 w2 w2t w3.
    assert (state w2 = trackingOn tab d t0 (t0 + 10000) (Some t0)
            ∧ storage w2 = storage w) as [Hs2 Hst2].
    { subst w2 w1. rewrite !dispatch_activity.
      set (wa := mkWorld (state w) (storage w) t0 (calls w)).
      destruct (first_activity tab d q wa) as [Hs1 Hst1]; [done..|].
      set (w1 := world_after (handleActivityDetected tab d q) wa) in *.
      set (wb := mkWorld (state w1) (storage w1) (t0 + 10000) (calls w1)).
      destruct (second_activity tab d q' t0 10000 wb) as [Hs2 Hst2];
        [done|done|done|done|lia|].
      rewrite Hs2, Hst2. done. }
    clearbody w2. clear w1.
    assert (rolled w2t
            = set_pendingTime {[d := 10000]}
                (trackingOn tab d (t0 + 10000) (t0 + 10000) (Some t0))) as Hr.
    { subst w2t. rewrite Hs2. rewrite (rolled_tracking _ d t0) by done. simpl.
      destruct (Z.ltb_spec 0 (t0 + 10000 - t0)); [|lia].
      unfold get_or_zero. rewrite lookup_empty. simpl.
      replace (0 + (t0 + 10000 - t0)) with 10000 by lia.
      by rewrite insert_empty. }
    split; [by rewrite Hr|].
    assert (pendingTime (rolled w2t) ≠ ∅) as Hne.
    { rewrite Hr. simpl. apply insert_non_empty. }
    subst w3. unfold dispatch, handle. fold w2t. unfold world_after.
    rewrite persistPendingTime_run by done. simpl. rewrite Hr, Hst2. simpl.
    destruct (rejects (calls w2)); simpl; [done|].
    destruct (rejects (S (calls w2))); simpl; [done|].
    repeat split. eexists. split; [done|]. split.
    + rewrite add_entries_get. unfold get_or_zero at 2.
      by rewrite lookup_singleton_eq.
    + intros d' Hne'. rewrite add_entries_lookup.
      by rewrite lookup_singleton_ne.
Qed.

(** ** The session invariant *)

Lemma triple_ret {A} (P : World → Prop) (a : A) Q R :
  (∀ w, P w → Q a w) → triple P (mret a) Q R.
Proof. intros H w Hw. by apply H. Qed.

Lemma triple_bind {A B} P (m : Async A) (k : A → Async B) Q Q' R :
  triple P m Q R → (∀ a, triple (Q a) (k a) Q' R) → triple P (m ≫= k) Q' R.
Proof.
  intros Hm Hk w Hw. specialize (Hm w Hw). unfold mbind, Async_bind.
  destruct (m w) as [[a|] w1]; [|done]. by apply Hk.
Qed.

Lemma triple_conseq {A} (P P' : World → Prop) (m : Async A)
    (Q Q' : A → World → Prop) (R R' : World → Prop) :
  triple P m Q R →
  (∀ w, P' w → P w) → (∀ a w, Q a w → Q' a w) → (∀ w, R w → R' w) →
  triple P' m Q' R'.
Proof.
  intros Hm HP HQ HR w Hw. specialize (Hm w (HP w Hw)).
  destruct (m w) as [[a|] w1]; auto.
Qed.

Lemma triple_try_catch {A} P (m h : Async A) Q R R' :
  triple P m Q R' → triple R' h Q R → triple P (try_catch m h) Q R.
Proof.
  intros Hm Hh w Hw. specialize (Hm w Hw). unfold try_catch.
  destruct (m w) as [[a|] w1]; [done|]. by apply Hh.
Qed.

Lemma triple_get_state P R :
  triple P get_state (λ s w, P w ∧ s = state w) R.
Proof. intros w Hw. simpl. done. Qed.

Lemma triple_Date_now P R :
  triple P Date_now (λ t w, P w ∧ t = now w) R.
Proof. intros w Hw. simpl. done. Qed.

Lemma triple_modify (f : State → State) (P : World → Prop) Q R :
  (∀ w, P w → Q tt (mkWorld (f (state w)) (storage w) (now w) (calls w))) →
  triple P (modify_state f) Q R.
Proof. intros H w Hw. simpl. by apply H. Qed.

Lemma keeps_bind {A B} P (m : Async A) (k : A → Async B) :
  keeps P m → (∀ a, keeps P (k a)) → keeps P (m ≫= k).
Proof. intros Hm Hk. by apply (triple_bind P m k (λ _, P)). Qed.

Lemma keeps_ret {A} P (a : A) : keeps P (mret a).
Proof. by apply triple_ret. Qed.

Lemma keeps_try_catch {A} P (m h : Async A) :
  keeps P m → keeps P h → keeps P (try_catch m h).
Proof. intros Hm Hh. by apply (triple_try_catch P m h (λ _, P) P P). Qed.

Lemma keeps_modify (f : State → State) (P : State → Prop) :
  (∀ s, P s → P (f s)) → keeps (ok P) (modify_state f).
Proof. intros H. apply triple_modify. intros w [Hs Ht]. split; [by apply H|done]. Qed.

Lemma keeps_when (P : World → Prop) (b : bool) (m : Async unit) :
  keeps P m → keeps P (when b m).
Proof. intros Hm. destruct b; [done|]. apply keeps_ret. Qed.

(** A quiet computation keeps every property of the state. *)
Lemma keeps_quiet {A} (P : State → Prop) (m : Async A) :
  quiet m → keeps (ok P) m.
Proof.
  intros Hq w [Hs Ht]. destruct (Hq w) as (Hst & _ & Hnow).
  unfold world_after in *. destruct (m w) as [[a|] w1]; simpl in *;
    (split; [by rewrite Hst|lia]).
Qed.

Lemma Inv_addPendingTime (dom : option string) (ms : Z) (s : State) :
  Inv s → Inv (addPendingTime dom ms s).
Proof.
  intros [Htr Hpos]. unfold addPendingTime.
  destruct (negb (truthy_str dom) || (ms <=? 0)) eqn:E; [done|].
  destruct dom as [d|]; [|done].
  apply orb_false_iff in E as [_ E]. apply Z.leb_gt in E.
  split; [done|]. simpl. intros d' v.
  destruct (decide (d = d')) as [->|Hne].
  - rewrite lookup_insert_eq. intros [= <-]. unfold get_or_zero.
    destruct (pendingTime s !! d') as [v0|] eqn:Hv; simpl; [|lia].
    specialize (Hpos d' v0 Hv). lia.
  - rewrite lookup_insert_ne by done. apply Hpos.
Qed.

Lemma addPendingTime_activeDomain (dom : option string) (ms : Z) (s : State) :
  activeDomain (addPendingTime dom ms s) = activeDomain s.
Proof. unfold addPendingTime. destruct (_ || _); [done|]. by destruct dom. Qed.

Lemma rolled_activeDomain (w : World) : activeDomain (rolled w) = activeDomain (state w).
Proof.
  unfold rolled, world_after, rollForward. run.
  destruct (isTracking (state w) && truthy_num (sessionStartTime (state w))
            && truthy_str (activeDomain (state w))); simpl; [|done].
  destruct (0 <? now w - to_number (sessionStartTime (state w))); simpl; [|done].
  apply addPendingTime_activeDomain.
Qed.

Lemma Inv_rolled (w : World) : ok Inv w → Inv (rolled w).
Proof.
  intros [HI Ht]. unfold rolled, world_after, rollForward. run.
  destruct (isTracking (state w) && truthy_num (sessionStartTime (state w))
            && truthy_str (activeDomain (state w))) eqn:E; simpl; [|done].
  apply andb_true_iff in E as [_ Hdom].
  assert (∀ s, Inv s → truthy_str (activeDomain s) = true →
               Inv (set_sessionStartTime (Some (now w)) s)) as Hset.
  { intros s [_ Hp] Hd. split; [|done]. intros _. simpl. split; [|done].
    apply negb_true_iff, Z.eqb_neq. lia. }
  destruct (0 <? now w - to_number (sessionStartTime (state w))); simpl.
  - apply Hset; [by apply Inv_addPendingTime|].
    by rewrite addPendingTime_activeDomain.
  - by apply Hset.
Qed.

Lemma Inv_clear (s : State) : Inv s → Inv (set_pendingTime ∅ s).
Proof. intros [Htr _]. split; [done|]. simpl. intros d v. by rewrite lookup_empty. Qed.

(** The flush keeps the invariant and the active domain, resolved or
    rejected. *)
Lemma keeps_persistPendingTime (P : State → Prop) :
  (∀ w, ok P w → P (rolled w)) →
  (∀ s, P s → P (set_pendingTime ∅ s)) →
  keeps (ok P) persistPendingTime.
Proof.
  intros Hroll Hclear w Hw.
  destruct (persistPendingTime_state w) as [Hst Hnow].
  unfold world_after, result_of in *.
  assert (P (state (persistPendingTime w).2)) as HP.
  { destruct Hst as [->|[_ ->]]; [by apply Hroll|]. by apply Hclear, Hroll. }
  destruct Hw as [_ Ht].
  destruct (persistPendingTime w) as [[[]|] w1]; simpl in *; (split; [done|lia]).
Qed.

Lemma keeps_persist_Inv : keeps (ok Inv) persistPendingTime.
Proof. apply keeps_persistPendingTime; [apply Inv_rolled|apply Inv_clear]. Qed.

Lemma keeps_persist_InvOn (d : string) : keeps (ok (InvOn d)) persistPendingTime.
Proof.
  apply keeps_persistPendingTime.
  - intros w [[HI Hd] Ht]. split; [by apply Inv_rolled|].
    by rewrite rolled_activeDomain.
  - intros s [HI Hd]. split; [by apply Inv_clear|done].
Qed.

Lemma with_now {A} (P : State → Prop) (k : Z → Async A) Q R :
  (∀ t, 0 < t → triple (ok P) (k t) Q R) → triple (ok P) (Date_now ≫= k) Q R.
Proof. intros H w Hw. apply (H (now w)); [apply Hw|done]. Qed.

Lemma with_state {A} (P : World → Prop) (k : State → Async A) Q R :
  (∀ s, triple (λ w, P w ∧ state w = s) (k s) Q R) →
  triple P (get_state ≫= k) Q R.
Proof. intros H w Hw. by apply (H (state w)). Qed.

Lemma Inv_stop (s : State) :
  Inv s →
  Inv (set_lastActivityTime None (set_sessionStartTime None (set_isTracking false s))).
Proof. intros [_ Hp]. split; [done|]. exact Hp. Qed.

(** [finalizeCurrentSession] keeps the invariant, and when it resolves no
    session is left running. *)
Lemma finalize_stops :
  triple (ok Inv) finalizeCurrentSession
         (λ _ w, ok Inv w ∧ isTracking (state w) = false) (ok Inv).
Proof.
  intros w [HI Ht]. unfold finalizeCurrentSession. run.
  destruct (negb (isTracking (state w))
            || negb (truthy_num (sessionStartTime (state w)))
            || negb (truthy_str (activeDomain (state w)))) eqn:Hguard; simpl.
  - split; [done|]. destruct (isTracking (state w)) eqn:Htr; [|done].
    destruct HI as [Htruthy _]. destruct (Htruthy Htr) as [Hs Hd].
    rewrite Hs, Hd in Hguard. done.
  - match goal with |- context [0 <? ?e] => destruct (0 <? e) end; simpl.
    + match goal with |- context [persistPendingTime ?wa] =>
        pose proof (keeps_persist_Inv wa) as Hk;
        destruct (persistPendingTime wa) as [[[]|] w1]
      end; simpl in *.
      * destruct Hk as [HI1 Ht1]; [split; [by apply Inv_addPendingTime|done]|].
        split; [|done]. split; [by apply Inv_stop|done].
      * apply Hk. split; [by apply Inv_addPendingTime|done].
    + split; [|done]. split; [by apply Inv_stop|done].
Qed.

Lemma keeps_finalize : keeps (ok Inv) finalizeCurrentSession.
Proof.
  eapply triple_conseq; [apply finalize_stops|..]; simpl; try done.
  by intros _ w [? _].
Qed.

Lemma keeps_checkInactivityTimeout : keeps (ok Inv) checkInactivityTimeout.
Proof.
  intros w [HI Ht]. unfold checkInactivityTimeout. run.
  destruct (negb (isTracking (state w))
            || negb (truthy_num (lastActivityTime (state w)))); simpl; [done|].
  destruct (INACTIVITY_TIMEOUT_MS <=? _); simpl; [|done].
  destruct (_ && _); simpl; (split; [apply Inv_stop|done]);
    [by apply Inv_addPendingTime|done].
Qed.

Lemma keeps_handleTabChange (tabId : Z) (url : option string) :
  keeps (ok Inv) (handleTabChange tabId url).
Proof.
  unfold handleTabChange, recordTab.
  apply (triple_bind _ _ _ (λ _ w, ok (λ s, Inv s ∧ isTracking s = false) w)).
  { eapply triple_conseq; [apply finalize_stops|..]; simpl; try done.
    intros _ w [[? ?] ?]. done. }
  intros _. apply (triple_try_catch _ _ _ _ _ (ok Inv)); [|by apply triple_ret].
  apply (triple_bind _ _ _ (λ _ w, ok (λ s, Inv s ∧ isTracking s = false) w)).
  { eapply triple_conseq;
      [apply (keeps_quiet (λ s, Inv s ∧ isTracking s = false)), quiet_host_call
      |done|done|by intros w [[? _] ?]]. }
  intros _ w [[[_ Hp] Hidle] Ht].
  destruct (negb (shouldTrackUrl url)); simpl; (split; [|done]);
    (split; [simpl; congruence|exact Hp]).
Qed.

Lemma InvOn_restart (d : string) (t : Z) (s : State) :
  d ≠ "" → t ≠ 0 → InvOn d s → InvOn d (set_sessionStartTime (Some t) s).
Proof.
  intros Hd Ht [[_ Hp] Hdom]. split; [|done]. split; [|exact Hp].
  intros _. simpl. rewrite Hdom. split; [by apply truthy_num_Some|].
  by apply truthy_str_Some.
Qed.

Lemma InvOn_addPendingTime (d : string) (dom : option string) (ms : Z) (s : State) :
  InvOn d s → InvOn d (addPendingTime dom ms s).
Proof.
  intros [HI Hd]. split; [by apply Inv_addPendingTime|].
  by rewrite addPendingTime_activeDomain.
Qed.

Lemma keeps_recordActivity (d : string) :
  d ≠ "" → keeps (ok (InvOn d)) recordActivity.
Proof.
  intros Hd. unfold recordActivity. apply with_now. intros t Ht.
  apply with_state. intros s.
  apply (triple_bind _ _ _ (λ _, ok (InvOn d))).
  { eapply triple_conseq with (P := ok (InvOn d)) (Q := λ _, ok (InvOn d));
      [|by intros w [? _]|done|done].
    destruct (_ && _); [|by apply keeps_ret].
    destruct (INACTIVITY_TIMEOUT_MS <=? _); [|by apply keeps_ret].
    apply keeps_bind.
    - apply keeps_when. apply keeps_bind; [|intros _; apply keeps_persist_InvOn].
      apply keeps_modify. intros s0. apply InvOn_addPendingTime.
    - intros _. apply keeps_modify. intros s0. apply InvOn_restart; [done|lia]. }
  intros _. apply with_state. intros s'.
  apply (triple_bind _ _ _ (λ _, ok (InvOn d))).
  { destruct (negb (isTracking s')); simpl; [|by intros w [? _]].
    intros w [[[[_ Hp] Hdom] Hnow] _]. simpl. split; [|done].
    split; [|done]. split; [|exact Hp]. intros _. simpl.
    rewrite Hdom. split; [apply truthy_num_Some; lia|by apply truthy_str_Some]. }
  intros _. apply keeps_bind; [|intros _; apply keeps_ret].
  apply keeps_modify. intros s0 [[Htr Hp] Hdom]. done.
Qed.

Lemma keeps_periodicPersist (d : string) (t : Z) :
  keeps (ok (InvOn d)) (periodicPersist t).
Proof.
  unfold periodicPersist. apply with_state. intros s.
  eapply triple_conseq with (P := ok (InvOn d)) (Q := λ _, ok (InvOn d));
    [|by intros w [? _]|done|done].
  destruct (match lastPersistTime s with Some p => _ | None => _ end);
    [|by apply keeps_ret].
  apply keeps_bind.
  - apply keeps_modify. intros s0 [[Htr Hp] Hdom]. done.
  - intros _. apply keeps_try_catch; [apply keeps_persist_InvOn|apply keeps_ret].
Qed.

Lemma switchDomain_sets (d : string) :
  d ≠ "" →
  triple (ok Inv) (switchDomain d) (λ _, ok (InvOn d)) (ok Inv).
Proof.
  intros Hd. unfold switchDomain. apply with_state. intros s.
  destruct (bool_decide (Some d = activeDomain s)) eqn:Heq; simpl.
  - apply bool_decide_eq_true in Heq. intros w [[HI Ht] <-]. simpl. done.
  - apply (triple_bind _ _ _ (λ _, ok Inv)).
    { eapply triple_conseq; [apply keeps_finalize|..]; simpl; try done.
      by intros w [? _]. }
    intros _ w [[_ Hp] Ht]. simpl. split; [|done]. split; [|done].
    split; [done|exact Hp].
Qed.

Lemma keeps_handleActivityDetected (tabId : Z) (d : string) (q : option Z) :
  d ≠ "" → keeps (ok Inv) (handleActivityDetected tabId d q).
Proof.
  intros Hd. unfold handleActivityDetected.
  apply (triple_bind _ _ _ (λ _, ok Inv)).
  { unfold confirmActiveTab. apply with_state. intros s.
    eapply triple_conseq with (P := ok Inv) (Q := λ _, ok Inv);
      [|by intros w [? _]|done|done].
    destruct (_ || _); [|by apply keeps_ret].
    assert (keeps (ok Inv) (r ← getDomainStatus d; mret (Answer r))) as Hans.
    { apply keeps_bind; [apply keeps_quiet, quiet_getDomainStatus|].
      intros r. apply keeps_ret. }
    apply keeps_try_catch; [|done].
    apply keeps_bind; [apply keeps_quiet, quiet_host_call|]. intros _.
    destruct (bool_decide _); [|done].
    intros w [[Htruthy Hp] Ht]. simpl. split; [|done]. split; [|exact Hp].
    simpl. intros Htr. destruct (Htruthy Htr) as [Hs _].
    split; [done|by apply truthy_str_Some]. }
  intros [|status]; [|by apply keeps_ret].
  apply (triple_bind _ _ _ (λ _, ok (InvOn d))); [by apply switchDomain_sets|].
  intros _. eapply triple_conseq with (P := ok (InvOn d)) (Q := λ _, ok (InvOn d))
                                      (R := ok (InvOn d));
    [|done|by intros _ w [[? _] ?]|by intros w [[? _] ?]].
  apply keeps_bind; [by apply keeps_recordActivity|]. intros t.
  apply keeps_bind; [apply keeps_periodicPersist|]. intros _.
  apply keeps_quiet, quiet_getDomainStatus.
Qed.

Lemma keeps_handle (t : Z) (e : Event) : plausible t e → keeps (ok Inv) (handle e).
Proof.
  intros [_ He]. destruct e as [tab url|tab d q| | |]; simpl.
  - apply keeps_handleTabChange.
  - apply keeps_bind; [by apply keeps_handleActivityDetected|].
    intros _. apply keeps_ret.
  - apply keeps_checkInactivityTimeout.
  - apply keeps_finalize.
  - apply keeps_persist_Inv.
Qed.

Lemma Inv_initial : Inv initialState.
Proof. split; [done|]. simpl. intros d v. by rewrite lookup_empty. Qed.

Lemma reachable_Inv (w : World) : reachable w → Inv (state w).
Proof.
  induction 1 as [st t c|t e w Hreach IH Hpl]; [apply Inv_initial|].
  unfold dispatch, world_after.
  pose proof (keeps_handle t e Hpl (mkWorld (state w) (storage w) t (calls w)))
    as Hk.
  destruct (handle e _) as [[[]|] w']; simpl; apply Hk; (split; [done|apply Hpl]).
Qed.

(** The session invariant when the handlers run one after another, each to
    its end before the next event is handled: in every world reached that
    way from a fresh worker by tab changes, activity signals, inactivity
    sweeps, finalizations and flushes delivered at clock readings above 0,
    the signals naming a non-empty domain, a tracked session has a
    [sessionStartTime] and an [activeDomain] that are not null (nor 0, nor
    empty), and every amount in the pending buffer is positive.  Handlers
    that overlap break it: see [tab_change_around_signal]. *)
Theorem reachable_states_are_consistent (w : World) :
  reachable w →
  (isTracking (state w) = true →
     (∃ t, sessionStartTime (state w) = Some t ∧ t ≠ 0) ∧
     (∃ d, activeDomain (state w) = Some d ∧ d ≠ "")) ∧
  (∀ d v, pendingTime (state w) !! d = Some v → 0 ≤ v ∧ 0 < v).
Proof.
  intros Hreach. destruct (reachable_Inv w Hreach) as [Htruthy Hp].
  split.
  - intros Htr. destruct (Htruthy Htr) as [Hs Hd]. split.
    + destruct (sessionStartTime (state w)) as [t|]; [|done].
      exists t. split; [done|]. simpl in Hs.
      by apply negb_true_iff, Z.eqb_neq in Hs.
    + destruct (activeDomain (state w)) as [d|]; [|done].
      exists d. split; [done|]. simpl in Hd.
      by apply negb_true_iff, String.eqb_neq in Hd.
  - intros d v Hv. specialize (Hp d v Hv). lia.
Qed.

(** ** Finalizing a session *)

Lemma finalize_idle (w : World) :
  isTracking (state w) = false →
  finalizeCurrentSession w = (Resolved tt, w).
Proof. intros Htr. unfold finalizeCurrentSession. run. by rewrite Htr. Qed.

(** What finalizing a live session writes: the flush it calls runs while
    the session still counts as tracked, so the flush's roll-forward adds
    [now - sessionStartTime] on top of the elapsed time just credited. *)
Lemma finalize_credit (w : World) (d : string) (start : Z) :
  isTracking (state w) = true →
  sessionStartTime (state w) = Some start → start ≠ 0 →
  activeDomain (state w) = Some d → d ≠ "" →
  0 < finalElapsed w start → 0 < now w - start →
  rejects (calls w) = false → rejects (S (calls w)) = false →
  let w' := world_after finalizeCurrentSession w in
  isTracking (state w') = false ∧
  sessionStartTime (state w') = None ∧
  lastActivityTime (state w') = None ∧
  pendingTime (state w') = ∅ ∧
  ∃ record,
    storage w' = <[todayStorageKey w := DailyRecord record]> (storage w) ∧
    get_or_zero record d
      = get_or_zero (as_daily (storage w !! todayStorageKey w)) d
        + get_or_zero (pendingTime (state w)) d
        + finalElapsed w start + (now w - start).
Proof.
  intros Htr Hst Hnz Hdom Hd He Hnow H1 H2 w'.
  set (wa := mkWorld (addPendingTime (Some d) (finalElapsed w start) (state w))
                     (storage w) (now w) (calls w)).
  assert (pendingTime (state wa)
          = <[d := get_or_zero (pendingTime (state w)) d + finalElapsed w start]>
              (pendingTime (state w))) as Hwa.
  { subst wa. simpl. by rewrite addPendingTime_pending. }
  assert (rolled wa
          = set_sessionStartTime (Some (now w))
              (set_pendingTime
                 (<[d := get_or_zero (pendingTime (state wa)) d + (now w - start)]>
                    (pendingTime (state wa))) (state wa))) as Hr.
  { rewrite (rolled_tracking wa d start);
      [|subst wa; simpl; by rewrite ?addPendingTime_isTracking,
                                    ?addPendingTime_pending by done..].
    simpl. by destruct (Z.ltb_spec 0 (now w - start)); [|lia]. }
  assert (pendingTime (rolled wa) ≠ ∅) as Hne.
  { rewrite Hr. simpl. apply insert_non_empty. }
  assert (finalizeCurrentSession w =
            match persistPendingTime wa with
            | (Resolved _, w1) =>
                (Resolved tt,
                 mkWorld (set_lastActivityTime None
                            (set_sessionStartTime None
                               (set_isTracking false (state w1))))
                         (storage w1) (now w1) (calls w1))
            | (Rejected, w1) => (Rejected, w1)
            end) as Hrun.
  { unfold finalizeCurrentSession. run. rewrite Htr, Hst, Hdom. simpl.
    rewrite (proj2 (Z.eqb_neq start 0)), (proj2 (String.eqb_neq d "")) by done.
    simpl. fold (finalElapsed w start).
    rewrite (proj2 (Z.ltb_lt 0 (finalElapsed w start))) by done.
    fold wa. by destruct (persistPendingTime wa) as [[[]|] w1]. }
  subst w'. unfold world_after. rewrite Hrun.
  rewrite persistPendingTime_run by done. simpl. rewrite H1, H2. simpl.
  repeat split. eexists. split; [done|].
  rewrite add_entries_get, Hr. simpl.
  unfold get_or_zero at 2. rewrite lookup_insert_eq. simpl.
  change (pendingTime (addPendingTime _ _ _)) with (pendingTime (state wa)).
  rewrite Hwa. unfold get_or_zero at 2. rewrite lookup_insert_eq. simpl.
  change (todayStorageKey wa) with (todayStorageKey w). lia.
Qed.

(** ** A tab change overtaken by an activity signal *)

(** The worker is idle on a tab; a tab change to a page that is not tracked
    is suspended at its tab lookup while a signal of the old tab starts a
    session; no host call rejects.  When the lookup resolves, the branch for
    pages that are not tracked clears [activeDomain] and leaves the session
    fields alone: the worker tracks a session without a domain, at any
    clock readings. *)
Lemma tab_change_around_signal (t1 t2 t3 tabId tab : Z) (d : string)
    (url q : option _) (w : World) :
  state w = idleOn tab d → d ≠ "" → t2 ≠ 0 →
  shouldTrackUrl url = false →
  (∀ n, rejects n = false) →
  let w' := tabChangeAroundSignal t1 t2 t3 tabId url tab d q w in
  state w' = mkState (Some tabId) None (Some t2) (Some t2) true ∅ (Some t2).
Proof.
  intros Hst Hd Ht2 Hurl Hres w'. subst w'. unfold tabChangeAroundSignal.
  rewrite finalize_idle by (simpl; by rewrite Hst). cbv zeta.
  destruct (first_activity tab d q (atClock t2 (atClock t1 w))) as [Hs2 _];
    [exact Hst|exact Hd|exact Ht2|].
  set (w2 := world_after (handleActivityDetected tab d q) _) in *.
  unfold world_after, recordTab, try_catch, host_call. run.
  rewrite Hres, Hurl. simpl. by rewrite Hs2.
Qed.

(** ** The storage gateway: daily records *)

Lemma saveDailyData_run (date : string) (data : gmap string Z) (w : World) :
  saveDailyData date data w =
    if rejects (calls w) then (Rejected, after_call w)
    else (Resolved tt,
          mkWorld (state w) (<[DAILY_PREFIX +:+ date := DailyRecord data]> (storage w))
                  (now w + Z.of_nat (delay (calls w))) (S (calls w))).
Proof.
  unfold saveDailyData, storage_set, host_call, after_call. run.
  by destruct (rejects (calls w)).
Qed.

Lemma daily_key_inj (date date' : string) :
  DAILY_PREFIX +:+ date = DAILY_PREFIX +:+ date' → date = date'.
Proof. apply (inj (String.app DAILY_PREFIX)). Qed.

Lemma daily_key_not_limits (date : string) : DAILY_PREFIX +:+ date ≠ LIMITS.
Proof. discriminate. Qed.

(** X1: A record saved for a date is the record read back for that date, and
    saving it leaves the records of the other dates and the limits table as
    they were; a save that rejects changes nothing. *)
Theorem daily_record_round_trip (date : string) (data : gmap string Z) (w : World) :
  let w' := world_after (saveDailyData date data) w in
  if rejects (calls w) then
    result_of (saveDailyData date data) w = Rejected ∧ storage w' = storage w
  else
    result_of (saveDailyData date data) w = Resolved tt ∧
    result_of (getDailyData date) w'
      = (if rejects (S (calls w)) then Rejected else Resolved data) ∧
    (∀ date', date' = date ∨
              storage w' !! (DAILY_PREFIX +:+ date')
                = storage w !! (DAILY_PREFIX +:+ date')) ∧
    storage w' !! LIMITS = storage w !! LIMITS.
Proof.
  unfold world_after, result_of. rewrite saveDailyData_run.
  destruct (rejects (calls w)) eqn:H1; simpl; [done|].
  split; [done|]. rewrite getDailyData_run. simpl.
  split; [|split].
  - destruct (rejects (S (calls w))); simpl; [done|].
    by rewrite lookup_insert_eq.
  - intros date'. destruct (decide (date' = date)) as [->|Hne]; [by left|right].
    rewrite lookup_insert_ne; [done|]. intros Heq. by apply daily_key_inj in Heq.
  - rewrite lookup_insert_ne; [done|]. apply daily_key_not_limits.
Qed.

(** X2: [addTimeForDomain] adds the amount to the domain's value in today's
    record (0 when the domain has none), returns the new value and leaves
    the other domains of the record alone; when the read or the write
    rejects it rejects and storage is unchanged. *)
Theorem addTimeForDomain_adds (d : string) (ms : Z) (w : World) :
  let key := todayStorageKey w in
  let old := as_daily (storage w !! key) in
  let w' := world_after (addTimeForDomain d ms) w in
  if rejects (calls w) || rejects (S (calls w)) then
    result_of (addTimeForDomain d ms) w = Rejected ∧ storage w' = storage w
  else
    result_of (addTimeForDomain d ms) w = Resolved (get_or_zero old d + ms) ∧
    ∃ record,
      storage w' = <[key := DailyRecord record]> (storage w) ∧
      record !! d = Some (get_or_zero old d + ms) ∧
      ∀ d', d' = d ∨ record !! d' = old !! d'.
Proof.
  unfold world_after, result_of, addTimeForDomain, getTodayKey. run.
  rewrite getDailyData_run. fold (todayStorageKey w).
  destruct (rejects (calls w)) eqn:H1; simpl; [done|].
  rewrite saveDailyData_run. simpl.
  destruct (rejects (S (calls w))) eqn:H2; simpl; [done|].
  unfold get_or_zero at 1. rewrite lookup_insert_eq. simpl.
  split; [done|]. eexists. split; [done|]. split; [by rewrite lookup_insert_eq|].
  intros d'. destruct (decide (d' = d)) as [->|Hne]; [by left|right].
  by rewrite lookup_insert_ne.
Qed.

(** ** The storage gateway: the limits table *)







(** ** The storage gateway: ranges and sums *)

Lemma aggregate_acc_get (l : list (gmap string Z)) (acc : gmap string Z) (d : string) :
  get_or_zero (foldl (λ acc dayData, add_entries dayData acc) acc l) d
  = get_or_zero acc d + foldr (λ dayData sum, get_or_zero dayData d + sum) 0 l.
Proof.
  revert acc. induction l as [|m l IH]; intros acc; simpl; [lia|].
  rewrite IH, add_entries_get. lia.
Qed.

Lemma aggregate_acc_lookup_None (l : list (gmap string Z)) (acc : gmap string Z)
    (d : string) :
  foldl (λ acc dayData, add_entries dayData acc) acc l !! d = None
  ↔ acc !! d = None ∧ Forall (λ dayData, dayData !! d = None) l.
Proof.
  revert acc. induction l as [|m l IH]; intros acc; simpl.
  - split; [by intros ?; split|by intros [? _]].
  - rewrite IH, add_entries_lookup, Forall_cons.
    destruct (m !! d) as [t|]; split.
    + intros [[=] _].
    + intros [_ [[=] _]].
    + intros [? ?]. done.
    + intros [? [_ ?]]. done.
Qed.

(** X5: [aggregateDomains] gives every domain the sum of its values over the
    daily records (a record without the domain counts 0), has an entry for a
    domain exactly when some record has one, and is empty for no records. *)
Theorem aggregateDomains_sums (dataArray : list (gmap string Z)) (d : string) :
  get_or_zero (aggregateDomains dataArray) d
    = foldr (λ dayData sum, get_or_zero dayData d + sum) 0 dataArray ∧
  (aggregateDomains dataArray !! d = None
   ↔ Forall (λ dayData, dayData !! d = None) dataArray) ∧
  aggregateDomains [] = ∅.
Proof.
  unfold aggregateDomains. split; [|split; [|done]].
  - rewrite aggregate_acc_get. unfold get_or_zero at 1. by rewrite lookup_empty.
  - rewrite aggregate_acc_lookup_None, lookup_empty.
    split; [by intros [_ ?]|by intros ?; split].
Qed.

Lemma add_entries_comm (m1 m2 acc : gmap string Z) :
  add_entries m2 (add_entries m1 acc) = add_entries m1 (add_entries m2 acc).
Proof.
  apply map_eq. intros d. rewrite !add_entries_lookup, !add_entries_get.
  unfold get_or_zero.
  destruct (m1 !! d), (m2 !! d), (acc !! d); simpl; try done; f_equal; lia.
Qed.

Lemma aggregate_acc_perm (l1 l2 : list (gmap string Z)) (acc : gmap string Z) :
  l1 ≡ₚ l2 →
  foldl (λ acc dayData, add_entries dayData acc) acc l1
  = foldl (λ acc dayData, add_entries dayData acc) acc l2.
Proof.
  intros Hperm. revert acc.
  induction Hperm as [|m l l' _ IH|m1 m2 l|l l' l'' _ IH1 _ IH2]; intros acc; simpl.
  - done.
  - apply IH.
  - by rewrite add_entries_comm.
  - by rewrite IH1.
Qed.

(** X6: The order of the daily records does not matter to
    [aggregateDomains]. *)
Theorem aggregateDomains_any_order (l1 l2 : list (gmap string Z)) :
  l1 ≡ₚ l2 → aggregateDomains l1 = aggregateDomains l2.
Proof. apply aggregate_acc_perm. Qed.

Lemma substring_all (s : string) : String.substring 0 (String.length s) s = s.
Proof. induction s as [|c s IH]; simpl; [done|]. by rewrite IH. Qed.

Lemma prefix_append (p s : string) : String.prefix p (p +:+ s) = true.
Proof.
  induction p as [|c p IH]; simpl; [by destruct s|].
  destruct (Ascii.ascii_dec c c); [done|congruence].
Qed.

Lemma substring_append (p s : string) :
  String.substring (String.length p) (String.length (p +:+ s) - String.length p)
                   (p +:+ s) = s.
Proof.
  induction p as [|c p IH]; simpl.
  - rewrite Nat.sub_0_r. apply substring_all.
  - apply IH.
Qed.

Lemma remove_first_unfold (p s : string) :
  remove_first p s
  = if String.prefix p s
    then String.substring (String.length p) (String.length s - String.length p) s
    else match s with
         | EmptyString => EmptyString
         | String c s' => String c (remove_first p s')
         end.
Proof. by destruct s. Qed.

Lemma remove_first_daily (s : string) : remove_first DAILY_PREFIX (DAILY_PREFIX +:+ s) = s.
Proof. by rewrite remove_first_unfold, prefix_append, substring_append. Qed.

Lemma startsWith_daily (s : string) : startsWith DAILY_PREFIX (DAILY_PREFIX +:+ s) = true.
Proof. apply prefix_append. Qed.

Lemma range_fold_lookup (result : gmap string StoredValue) (days : list Z)
    (acc : gmap string (gmap string Z)) (k : string) :
  foldl (λ acc key,
           <[remove_first DAILY_PREFIX key := as_daily (result !! key)]> acc)
        acc ((λ d, DAILY_PREFIX +:+ formatDateKey d) <$> days) !! k
  = if decide (k ∈ formatDateKey <$> days)
    then Some (as_daily (result !! (DAILY_PREFIX +:+ k)))
    else acc !! k.
Proof.
  revert acc. induction days as [|d days IH]; intros acc.
  - destruct (decide (k ∈ formatDateKey <$> [])) as [Hin|_]; [|done].
    by apply elem_of_nil in Hin.
  - cbn [fmap list_fmap foldl]. fold (list_fmap _ _ formatDateKey days).
    fold (list_fmap _ _ (λ d, DAILY_PREFIX +:+ formatDateKey d) days).
    rewrite (IH _). rewrite remove_first_daily.
    destruct (decide (k ∈ formatDateKey <$> days)) as [Hin|Hout];
      destruct (decide (k ∈ formatDateKey d :: (formatDateKey <$> days)))
        as [Hin'|Hout']; try done.
    + exfalso. apply Hout'. by right.
    + apply elem_of_cons in Hin' as [->|Hin']; [|done]. by rewrite lookup_insert_eq.
    + rewrite lookup_insert_ne; [done|]. intros <-. apply Hout'. by left.
Qed.

(** X7: [getTimeRange] makes one read and no write. Its result has one entry
    per day from the first to the last, under the day's date key (the
    storage prefix taken off again); the entry is the stored record of the
    day, or the empty record when storage has none; it has no other entry.
    (An empty range gives an empty result.) *)
Theorem getTimeRange_one_entry_per_day (startDay endDay : Z) (w : World) :
  storage (world_after (getTimeRange startDay endDay) w) = storage w ∧
  ∃ rangeData,
    result_of (getTimeRange startDay endDay) w
      = (if rejects (calls w) then Rejected else Resolved rangeData) ∧
    ∀ k, rangeData !! k
         = if decide (k ∈ formatDateKey <$> seqZ startDay (endDay - startDay + 1))
           then Some (as_daily (storage w !! (DAILY_PREFIX +:+ k)))
           else None.
Proof.
  unfold getTimeRange, storage_get, host_call, result_of, world_after. run.
  destruct (rejects (calls w)); simpl.
  - split; [done|]. eexists (foldl _ ∅ _). split; [done|].
    intros k. rewrite (range_fold_lookup (storage w)). by rewrite lookup_empty.
  - split; [done|]. eexists. split; [done|].
    intros k. rewrite (range_fold_lookup (storage w)). by rewrite lookup_empty.
Qed.

(** ** The calendar: date keys *)

Lemma year_of_era_range (doe : Z) :
  0 ≤ doe < 146097 →
  let yoe := (doe - doe / 1460 + doe / 36524 - doe / 146096) / 365 in
  let doy := doe - (365 * yoe + yoe / 4 - yoe / 100) in
  0 ≤ yoe ≤ 399 ∧ 0 ≤ doy ≤ 365.
Proof. intros H. cbv zeta. Z.div_mod_to_equations. lia. Qed.

Lemma day_of_month_range (doy : Z) :
  0 ≤ doy ≤ 365 →
  let mp := (5 * doy + 2) / 153 in
  0 ≤ mp ≤ 11 ∧ 1 ≤ doy - (153 * mp + 2) / 5 + 1 ≤ 31.
Proof. intros H. cbv zeta. Z.div_mod_to_equations. lia. Qed.

(** The date of a day of the era is a date, and counting the days up to it
    gives the day back. *)
Lemma civil_in_era_spec (doe : Z) :
  0 ≤ doe < 146097 →
  let '(yoe, month, day) := civil_in_era doe in
  0 ≤ yoe ≤ 399 ∧ 1 ≤ month ≤ 12 ∧ 1 ≤ day ≤ 31 ∧
  yoe * 365 + yoe / 4 - yoe / 100
  + ((153 * (if 2 <? month then month - 3 else month + 9) + 2) / 5 + day - 1)
  = doe.
Proof.
  intros H. unfold civil_in_era. cbv zeta.
  destruct (year_of_era_range doe H) as [Hyoe Hdoy].
  set (yoe := (doe - doe / 1460 + doe / 36524 - doe / 146096) / 365) in *.
  set (doy := doe - (365 * yoe + yoe / 4 - yoe / 100)) in *.
  destruct (day_of_month_range doy Hdoy) as [Hmp Hday].
  set (mp := (5 * doy + 2) / 153) in *.
  split; [done|].
  destruct (Z.ltb_spec mp 10).
  - split; [lia|]. split; [done|].
    destruct (Z.ltb_spec 2 (mp + 3)); [|lia].
    replace (mp + 3 - 3) with mp by lia. lia.
  - split; [lia|]. split; [done|].
    destruct (Z.ltb_spec 2 (mp - 9)); [lia|].
    replace (mp - 9 + 9) with mp by lia. lia.
Qed.

Lemma civil_of_day_era (d : Z) :
  let z := d + 719468 in
  civil_of_day d =
    let '(yoe, month, day) := civil_in_era (z mod 146097) in
    (yoe + z / 146097 * 400 + (if month <=? 2 then 1 else 0), month, day).
Proof.
  intros z. unfold civil_of_day, civil_in_era. fold z.
  replace (z - z / 146097 * 146097) with (z mod 146097)
    by (rewrite Z.mod_eq by lia; lia).
  reflexivity.
Qed.

Lemma day_of_civil_of_day (d : Z) :
  let '(y, m, dd) := civil_of_day d in
  day_of_civil y m dd = d ∧ 1 ≤ m ≤ 12 ∧ 1 ≤ dd ≤ 31.
Proof.
  rewrite civil_of_day_era. cbv zeta.
  set (z := d + 719468).
  pose proof (Z.mod_pos_bound z 146097 ltac:(lia)) as Hb.
  pose proof (civil_in_era_spec _ Hb) as Hok.
  destruct (civil_in_era (z mod 146097)) as [[yoe month] day].
  destruct Hok as (? & ? & ? & Hdoe).
  split; [|lia].
  unfold day_of_civil.
  replace ((if month <=? 2 then yoe + z / 146097 * 400 + (if month <=? 2 then 1 else 0) - 1
            else yoe + z / 146097 * 400 + (if month <=? 2 then 1 else 0)))
    with (yoe + z / 146097 * 400) by (destruct (month <=? 2); lia).
  cbv zeta.
  replace ((yoe + z / 146097 * 400) / 400) with (z / 146097)
    by (rewrite Z.div_add by lia; rewrite (Z.div_small yoe) by lia; lia).
  replace (yoe + z / 146097 * 400 - z / 146097 * 400) with yoe by lia.
  rewrite Hdoe.
  pose proof (Z.div_mod z 146097 ltac:(lia)). lia.
Qed.

Lemma civil_of_day_inj (d1 d2 : Z) : civil_of_day d1 = civil_of_day d2 → d1 = d2.
Proof.
  intros Heq. pose proof (day_of_civil_of_day d1) as H1.
  pose proof (day_of_civil_of_day d2) as H2. rewrite Heq in H1.
  destruct (civil_of_day d2) as [[y m] dd]. destruct H1 as [<- _]. by destruct H2.
Qed.

Lemma civil_of_day_range (d : Z) :
  let '(_, m, dd) := civil_of_day d in 1 ≤ m ≤ 12 ∧ 1 ≤ dd ≤ 31.
Proof.
  pose proof (day_of_civil_of_day d) as H.
  destruct (civil_of_day d) as [[y m] dd]. by destruct H.
Qed.

Lemma string_length_app (s t : string) :
  String.length (s +:+ t) = (String.length s + String.length t)%nat.
Proof.
  induction s as [|c s IH]; [done|].
  change (String c s +:+ t) with (String c (s +:+ t)). simpl. by rewrite IH.
Qed.

Lemma string_app_inj_tail (s1 s2 t1 t2 : string) :
  s1 +:+ t1 = s2 +:+ t2 → String.length t1 = String.length t2 →
  s1 = s2 ∧ t1 = t2.
Proof.
  revert s2. induction s1 as [|c s1 IH]; intros [|c2 s2] Heq Hlen.
  - done.
  - apply (f_equal String.length) in Heq.
    rewrite !string_length_app in Heq. simpl in Heq. lia.
  - apply (f_equal String.length) in Heq.
    rewrite !string_length_app in Heq. simpl in Heq. lia.
  - change (String c (s1 +:+ t1) = String c2 (s2 +:+ t2)) in Heq.
    injection Heq as -> Heq. destruct (IH _ Heq Hlen) as [-> ->]. done.
Qed.

Lemma pad2_small : forallb pad2_ok (Z.of_nat <$> seq 1 31) = true.
Proof. vm_compute. reflexivity. Qed.

Lemma pad2_length (n : Z) : 1 ≤ n ≤ 31 → String.length (pad2 n) = 2%nat.
Proof.
  intros Hn. pose proof pad2_small as Hall. rewrite forallb_forall in Hall.
  specialize (Hall n). unfold pad2_ok in Hall.
  rewrite andb_true_iff, Nat.eqb_eq in Hall. apply Hall.
  apply list_elem_of_In, list_elem_of_fmap. exists (Z.to_nat n).
  split; [lia|]. apply elem_of_seq. lia.
Qed.

Lemma pad2_inj (m n : Z) : 1 ≤ m ≤ 31 → 1 ≤ n ≤ 31 → pad2 m = pad2 n → m = n.
Proof.
  intros Hm Hn Heq. pose proof pad2_small as Hall. rewrite forallb_forall in Hall.
  assert (∀ k, 1 ≤ k ≤ 31 → In k (Z.of_nat <$> seq 1 31)) as Hin.
  { intros k Hk. apply list_elem_of_In, list_elem_of_fmap. exists (Z.to_nat k).
    split; [lia|]. apply elem_of_seq. lia. }
  specialize (Hall n (Hin n Hn)). unfold pad2_ok in Hall.
  apply andb_prop in Hall as [_ Hall]. rewrite forallb_forall in Hall.
  specialize (Hall m (Hin m Hm)). rewrite Heq, String.eqb_refl in Hall.
  simpl in Hall. rewrite orb_false_r in Hall. by apply Z.eqb_eq.
Qed.

Lemma formatDateKey_inj (d1 d2 : Z) : formatDateKey d1 = formatDateKey d2 → d1 = d2.
Proof.
  unfold formatDateKey. intros Heq. apply civil_of_day_inj.
  pose proof (civil_of_day_range d1) as H1. pose proof (civil_of_day_range d2) as H2.
  destruct (civil_of_day d1) as [[y1 m1] dd1], (civil_of_day d2) as [[y2 m2] dd2].
  destruct H1 as [Hm1 Hd1], H2 as [Hm2 Hd2].
  apply string_app_inj_tail in Heq as [Hy Heq].
  2:{ rewrite !string_length_app, !pad2_length by lia. done. }
  apply (inj pretty) in Hy as ->.
  apply (inj (String.app "-")) in Heq.
  apply string_app_inj_tail in Heq as [Hm Heq].
  2:{ rewrite !string_length_app, !pad2_length by lia. done. }
  apply pad2_inj in Hm as ->; [|lia..].
  apply (inj (String.app "-")) in Heq.
  apply pad2_inj in Heq as ->; [done|lia..].
Qed.

(** X8: Two days have the same date key only when they are the same day: the
    records of different days never share a storage key. *)
Theorem date_keys_tell_days_apart (d1 d2 : Z) :
  formatDateKey d1 = formatDateKey d2 ↔ d1 = d2.
Proof. split; [apply formatDateKey_inj|by intros ->]. Qed.

(** ** Totals over a range of days *)

(** The records [getTimeRange] returns, taken in any order, are the records
    of the days of the range, one per day. *)
Lemma range_values (result : gmap string StoredValue) (days : list Z) :
  NoDup days →
  (map_to_list
     (foldl (λ acc key,
               <[remove_first DAILY_PREFIX key := as_daily (result !! key)]> acc)
            (∅ : gmap string (gmap string Z))
            ((λ d, DAILY_PREFIX +:+ formatDateKey d) <$> days))).*2
  ≡ₚ (λ d, as_daily (result !! (DAILY_PREFIX +:+ formatDateKey d))) <$> days.
Proof.
  induction days as [|day days IH] using rev_ind; intros Hnd.
  - simpl. by rewrite map_to_list_empty.
  - apply NoDup_app in Hnd as (Hnd & Hout & _).
    rewrite !fmap_app, foldl_app. simpl. rewrite remove_first_daily.
    rewrite map_to_list_insert.
    + rewrite fmap_cons. simpl. rewrite (IH Hnd).
      by rewrite <- Permutation_cons_append.
    + rewrite range_fold_lookup, lookup_empty.
      destruct (decide (formatDateKey day ∈ formatDateKey <$> days)) as [Hin|]; [|done].
      apply list_elem_of_fmap in Hin as (day' & Heq & Hin).
      apply formatDateKey_inj in Heq as <-.
      exfalso. apply (Hout day); [done|]. by left.
Qed.

Lemma range_total (result : gmap string StoredValue) (first n : Z) (d : string) :
  get_or_zero
    (aggregateDomains
       (map_to_list
          (foldl (λ acc key,
                    <[remove_first DAILY_PREFIX key := as_daily (result !! key)]> acc)
                 (∅ : gmap string (gmap string Z))
                 ((λ d, DAILY_PREFIX +:+ formatDateKey d) <$> seqZ first n))).*2) d
  = recordedOver result first n d.
Proof.
  unfold aggregateDomains.
  rewrite (aggregate_acc_perm _ _ _ (range_values result _ (NoDup_seqZ first n))).
  rewrite aggregate_acc_get. unfold get_or_zero at 1. rewrite lookup_empty.
  change (default 0 None) with 0. rewrite Z.add_0_l.
  unfold recordedOver, recordedOn. by rewrite foldr_fmap.
Qed.

(** X9: [getAggregatedData(days)] makes one read and no write, and gives
    every domain the sum of what is recorded for it on the [days] days that
    end today (nothing when [days] is 0 or less). *)
Theorem getAggregatedData_sums_last_days (days : Z) (d : string) (w : World) :
  storage (world_after (getAggregatedData days) w) = storage w ∧
  ∃ aggregated,
    result_of (getAggregatedData days) w
      = (if rejects (calls w) then Rejected else Resolved aggregated) ∧
    get_or_zero aggregated d
      = recordedOver (storage w) (localDay (now w) - days + 1) days d.
Proof.
  unfold getAggregatedData, getTimeRange, storage_get, host_call, result_of,
    world_after. run.
  replace (localDay (now w) - (localDay (now w) - days + 1) + 1) with days by lia.
  destruct (rejects (calls w)); simpl.
  - split; [done|]. eexists. split; [done|]. apply (range_total (storage w)).
  - split; [done|]. eexists. split; [done|]. apply (range_total (storage w)).
Qed.

(** X10: The total [getTimeForPeriod] returns: what is recorded for the
    domain over the days of the period (today alone for [day], the 7 days
    that end today for [week], the 30 days for [month], today alone for any
    other period name), plus the pending amount, plus the running session's
    time when the domain is the one tracked, read after the storage read.
    The query makes that one read and changes neither state nor storage. *)
Theorem period_total_covers_the_window (domain period : string) (w : World) :
  let n := periodLength period in
  getTimeForPeriod domain period w =
    if rejects (calls w) then (Rejected, after_call w)
    else (Resolved (recordedOver (storage w) (localDay (now w) - n + 1) n domain
                    + get_or_zero (pendingTime (state w)) domain
                    + live domain (after_call w)),
          after_call w).
Proof.
  unfold getTimeForPeriod, getTimeRange, storage_get, host_call, after_call.
  run. destruct (rejects (calls w)); simpl; [done|].
  unfold mbind, Async_bind. rewrite liveSessionTime_run. simpl.
  f_equal. f_equal. f_equal. f_equal.
  set (today := localDay (now w)).
  assert ((if String.eqb period "day" then today
           else if String.eqb period "week" then today - 6
           else if String.eqb period "month" then today - 29 else today)
          = today - periodLength period + 1) as ->.
  { unfold periodLength.
    destruct (String.eqb period "day"); [lia|].
    destruct (String.eqb period "week"); [lia|].
    destruct (String.eqb period "month"); lia. }
  replace (today - (today - periodLength period + 1) + 1)
    with (periodLength period) by lia.
  apply (range_total (storage w)).
Qed.

(** ** Retention: what the cleanup keeps *)

Lemma cleanupOldData_keeps (w : World) (key : string) :
  isExpired (setDate_plus (now w) (- DATA_RETENTION_DAYS)) key = false →
  storage (world_after cleanupOldData w) !! key = storage w !! key.
Proof.
  intros He. unfold world_after, cleanupOldData, storage_get, storage_remove, host_call.
  run. destruct (rejects (calls w)); simpl; [done|].
  set (keys := List.filter _ _).
  destruct (0 <? length keys)%nat; simpl; [|done].
  destruct (rejects (S (calls w))); simpl; [done|].
  apply lookup_foldr_delete_not_elem_of. intros Hin.
  apply elem_of_keysToRemove in Hin as [_ ?]. congruence.
Qed.

Lemma cleanupOldData_state (w : World) :
  state (world_after cleanupOldData w) = state w.
Proof.
  unfold world_after, cleanupOldData, storage_get, storage_remove, host_call.
  run. destruct (rejects (calls w)); simpl; [done|].
  destruct (0 <? length _)%nat; simpl; [|done].
  by destruct (rejects (S (calls w))).
Qed.

Lemma isExpired_day (cutoff day t : Z) :
  Date_parse (formatDateKey day) = Some t →
  isExpired cutoff (DAILY_PREFIX +:+ formatDateKey day) = (t <? cutoff).
Proof.
  intros Hp. unfold isExpired.
  by rewrite startsWith_daily, remove_first_daily, Hp.
Qed.

(** X11: How long a day's record is retained, when the date parser reads a
    date key as that day's midnight UTC (as [new Date] does with
    [YYYY-MM-DD]) and local time is within a day of UTC, whatever the
    daylight saving rules: the cleanup never touches the worker's state,
    keeps (whatever the host does) the record of today and of each of the 88
    days before, and, when its read and its removal resolve, leaves no
    record of a day more than 91 days back. *)
Theorem cleanup_retention_window (w : World) (day : Z) :
  let key := DAILY_PREFIX +:+ formatDateKey day in
  let w' := world_after cleanupOldData w in
  Date_parse (formatDateKey day) = Some (day * MS_PER_DAY) →
  (∀ local, - MS_PER_DAY ≤ local - utcOfLocal local ≤ MS_PER_DAY) →
  state w' = state w ∧
  (localDay (now w) - 88 ≤ day → storage w' !! key = storage w !! key) ∧
  (day < localDay (now w) - 91 →
   rejects (calls w) = false → rejects (S (calls w)) = false →
   storage w' !! key = None).
Proof.
  intros key w' Hp Hzone. subst key w'.
  pose proof (Z.div_mod (now w + tz) MS_PER_DAY ltac:(done)) as Hdm.
  pose proof (Z.mod_pos_bound (now w + tz) MS_PER_DAY ltac:(done)) as Hmb.
  fold (localDay (now w)) in Hdm.
  specialize (Hzone (now w + tz + - DATA_RETENTION_DAYS * MS_PER_DAY)).
  fold (setDate_plus (now w) (- DATA_RETENTION_DAYS)) in Hzone.
  set (cutoff := setDate_plus (now w) (- DATA_RETENTION_DAYS)) in *.
  unfold DATA_RETENTION_DAYS, MS_PER_DAY in *.
  split; [apply cleanupOldData_state|]. split.
  - intros Hday. apply cleanupOldData_keeps.
    rewrite (isExpired_day _ _ _ Hp). apply Z.ltb_ge.
    unfold DATA_RETENTION_DAYS, MS_PER_DAY. fold cutoff. lia.
  - intros Hday H1 H2. rewrite (cleanupOldData_storage w H1 H2).
    rewrite (isExpired_day _ _ _ Hp).
    replace (_ <? _) with true; [done|]. symmetry. apply Z.ltb_lt.
    unfold DATA_RETENTION_DAYS, MS_PER_DAY. fold cutoff. lia.
Qed.

(** ** Today's statistics and the status of a domain *)

Lemma getTodayStats_run (w : World) :
  getTodayStats w =
    if rejects (calls w) then (Rejected, after_call w)
    else if rejects (S (calls w)) then (Rejected, after_call (after_call w))
    else
      let w2 := after_call (after_call w) in
      (Resolved (mkTodayStats (formatDateKey (localDay (now w)))
                              (combinedAt w (now w2))
                              (migrate <$> as_limits (storage w !! LIMITS))),
       w2).
Proof.
  unfold getTodayStats, getTodayKey, combinedAt. run. rewrite getDailyData_run.
  fold (todayStorageKey w).
  destruct (rejects (calls w)); [done|]. simpl.
  unfold mbind, Async_bind. rewrite getLimits_run. unfold after_call. simpl.
  destruct (rejects (S (calls w))); [done|]. simpl.
  destruct (isTracking (state w) && truthy_str (activeDomain (state w))
            && truthy_num (sessionStartTime (state w))); simpl; [|done].
  by destruct (activeDomain (state w)).
Qed.

Lemma combinedAt_get (w : World) (t : Z) (d : string) :
  get_or_zero (combinedAt w t) d
  = recordedOn (storage w) (localDay (now w)) d
    + get_or_zero (pendingTime (state w)) d
    + (if String.eqb d "" then 0
       else live d (mkWorld (state w) (storage w) t (calls w))).
Proof.
  unfold combinedAt, live, recordedOn. fold (todayStorageKey w). simpl.
  destruct (isTracking (state w)); simpl.
  2:{ rewrite add_entries_get. destruct (String.eqb d ""); lia. }
  destruct (activeDomain (state w)) as [a|] eqn:Ha; simpl.
  2:{ rewrite add_entries_get. destruct (String.eqb d ""); lia. }
  destruct (String.eqb_spec a "") as [->|Hne]; simpl.
  { rewrite add_entries_get.
    destruct (String.eqb_spec d "") as [->|Hd]; [lia|].
    rewrite bool_decide_eq_false_2 by congruence. simpl. lia. }
  destruct (truthy_num (sessionStartTime (state w))); simpl.
  2:{ rewrite add_entries_get, andb_false_r. destruct (String.eqb d ""); lia. }
  destruct (decide (a = d)) as [->|Had].
  - unfold get_or_zero at 1. rewrite lookup_insert_eq. simpl.
    rewrite add_entries_get, bool_decide_eq_true_2 by done.
    destruct (String.eqb_spec d ""); [done|]. simpl. lia.
  - unfold get_or_zero at 1. rewrite lookup_insert_ne by done.
    fold (get_or_zero (add_entries (pendingTime (state w))
                         (as_daily (storage w !! todayStorageKey w))) d).
    rewrite add_entries_get, bool_decide_eq_false_2 by congruence. simpl.
    destruct (String.eqb d ""); lia.
Qed.

(** X12: [getTodayStats] reads today's record and the limits and writes
    nothing. Its date is today's key, its limits are the migrated table, and
    its data gives every domain what is recorded for it today plus its
    pending amount, plus the running session's time if the domain is the one
    tracked; a domain that is the empty string gets no session time. *)
Theorem today_stats_totals (w : World) :
  let w2 := after_call (after_call w) in
  if rejects (calls w) || rejects (S (calls w)) then
    result_of getTodayStats w = Rejected
  else
    ∃ stats,
      getTodayStats w = (Resolved stats, w2) ∧
      date stats = formatDateKey (localDay (now w)) ∧
      limits stats = migrate <$> as_limits (storage w !! LIMITS) ∧
      ∀ d, get_or_zero (data stats) d
           = recordedOn (storage w) (localDay (now w)) d
             + get_or_zero (pendingTime (state w)) d
             + (if String.eqb d "" then 0 else live d w2).
Proof.
  intros w2. unfold result_of. rewrite getTodayStats_run.
  destruct (rejects (calls w)); [done|].
  destruct (rejects (S (calls w))); [done|]. simpl.
  eexists. split; [done|]. split; [done|]. split; [done|]. simpl.
  intros d. apply combinedAt_get.
Qed.

Lemma getDomainStatus_run (d : string) (w : World) :
  d ≠ "" →
  getDomainStatus d w =
    if rejects (calls w) then (Rejected, after_call w)
    else if rejects (S (calls w)) then (Rejected, after_call (after_call w))
    else
      let w1 := after_call w in
      let w2 := after_call w1 in
      let todayTime :=
        recordedOn (storage w) (localDay (now w1)) d
        + get_or_zero (pendingTime (state w)) d + live d w2 in
      match as_limits (storage w !! LIMITS) !! d with
      | None =>
          (Resolved (mkStatus false false None None (Some todayTime) None None None
                              (Some d)), w2)
      | Some cfg =>
          let '(limit, period) := config_of cfg in
          match getTimeForPeriod d period w2 with
          | (Resolved periodTime, w3) =>
              (Resolved (limitedStatus d limit period todayTime periodTime), w3)
          | (Rejected, w3) => (Rejected, w3)
          end
      end.
Proof.
  intros Hd. unfold getDomainStatus, truthy_str.
  destruct (String.eqb_spec d "") as [?|_]; [done|]. simpl.
  unfold mbind at 1, Async_bind at 1. rewrite getLimits_run. simpl.
  destruct (rejects (calls w)); [done|].
  unfold getTodayKey. run. rewrite getDailyData_run. simpl.
  destruct (rejects (S (calls w))); [done|]. simpl.
  rewrite liveSessionTime_run, lookup_fmap. simpl.
  destruct (as_limits (storage w !! LIMITS) !! d) as [cfg|]; simpl; [|done].
  rewrite config_of_migrate. destruct (config_of cfg) as [limit period].
  unfold after_call. simpl.
  destruct (getTimeForPeriod d period _) as [[pt|] w3]; reflexivity.
Qed.

(** X13: The status of a domain that has no limit, after two reads (the
    limits, then today's record): no limit, not exceeded, and as total what
    is recorded for the domain today plus its pending amount plus the
    running session's time if the domain is the one tracked. State and
    storage are left as they were.  The domain is not empty and is none of
    the names a plain object inherits ([constructor], [__proto__], ...): for
    those [limits[domain]] finds the inherited value, not "no limit". *)
Theorem status_without_limit (d : string) (w : World) :
  d ≠ "" →
  d ∉ inheritedNames →
  as_limits (storage w !! LIMITS) !! d = None →
  let w1 := after_call w in
  let w2 := after_call w1 in
  getDomainStatus d w =
    if rejects (calls w) then (Rejected, w1)
    else if rejects (S (calls w)) then (Rejected, w2)
    else (Resolved
            (mkStatus false false None None
               (Some (recordedOn (storage w) (localDay (now w1)) d
                      + get_or_zero (pendingTime (state w)) d + live d w2))
               None None None (Some d)),
          w2).
Proof.
  intros Hd _ Hnone w1 w2. rewrite getDomainStatus_run by done.
  by rewrite Hnone.
Qed.


(** ** Requests that only read *)

Lemma quiet_getTodayStats : quiet getTodayStats.
Proof.
  unfold getTodayStats.
  apply quiet_bind; [unfold getTodayKey; quiet_step|]. intros key.
  apply quiet_bind; [apply quiet_getDailyData|]. intros today.
  apply quiet_bind; [apply quiet_getLimits|]. intros table.
  apply quiet_bind; [quiet_step|]. intros s.
  destruct (_ && _); [|quiet_step].
  apply quiet_bind; [quiet_step|]. intros t.
  destruct (activeDomain s); quiet_step.
Qed.

Lemma quiet_readDays (today : string) (days : list Z)
    (acc : gmap string (gmap string Z)) :
  quiet (readDays today days acc).
Proof.
  revert acc. induction days as [|day days IH]; intros acc; simpl; [quiet_step|].
  destruct (negb _); [|apply IH].
  apply quiet_bind; [apply quiet_getDailyData|]. intros dayData. apply IH.
Qed.

Lemma quiet_getStats (days : Z) : quiet (getStats days).
Proof.
  unfold getStats.
  apply quiet_bind; [apply quiet_getTodayStats|]. intros todayStats.
  apply quiet_bind; [apply quiet_getLimits|]. intros table.
  apply quiet_bind; [quiet_step|]. intros t.
  apply quiet_bind; [apply quiet_readDays|]. intros ?. quiet_step.
Qed.

(** X15: Of the messages, only an activity signal and the two limit updates
    can change anything: the status, statistics and limits requests, and a
    message of an unknown type, are answered without a change to the
    worker's state or to storage, whether their reads resolve or reject. *)
Theorem read_requests_change_nothing (message : Message) (tabId : Z)
    (activeTab : option Z) :
  match message with
  | ACTIVITY_DETECTED _ | SET_LIMIT _ _ _ | REMOVE_LIMIT _ => True
  | _ => quiet (handleMessage message tabId activeTab)
  end.
Proof.
  destruct message; simpl; try done.
  - apply quiet_bind; [apply quiet_getDomainStatus|]. intros ?. quiet_step.
  - apply quiet_bind; [apply quiet_getTodayStats|]. intros ?. quiet_step.
  - apply quiet_bind; [apply quiet_getStats|]. intros ?. quiet_step.
  - apply quiet_bind; [apply quiet_getLimits|]. intros ?. quiet_step.
Qed.

(** ** Statistics over several days *)

(** The records the loop of [getStats] collects. *)
Lemma readDays_run (today : string) (days : list Z)
    (acc : gmap string (gmap string Z)) (w : World) :
  (∀ n, rejects n = false) →
  ∃ w',
    readDays today days acc w
    = (Resolved
         (foldl (λ acc day,
                   if negb (String.eqb (formatDateKey day) today)
                   then <[formatDateKey day :=
                            as_daily (storage w
                                        !! (DAILY_PREFIX +:+ formatDateKey day))]> acc
                   else acc)
                acc days),
       w')
    ∧ state w' = state w ∧ storage w' = storage w.
Proof.
  intros Hok. revert acc w.
  induction days as [|day days IH]; intros acc w; simpl; [by exists w|].
  destruct (negb (String.eqb (formatDateKey day) today)); [|apply IH].
  unfold mbind, Async_bind. rewrite getDailyData_run, Hok.
  destruct (IH (<[formatDateKey day :=
                    as_daily (storage w !! (DAILY_PREFIX +:+ formatDateKey day))]> acc)
               (after_call w)) as (w' & Hrun & Hs & Hst).
  exists w'. by rewrite Hrun.
Qed.

Lemma readDays_lookup (today : string) (st : gmap string StoredValue)
    (days : list Z) (acc : gmap string (gmap string Z)) (k : string) :
  foldl (λ acc day,
           if negb (String.eqb (formatDateKey day) today)
           then <[formatDateKey day :=
                    as_daily (st !! (DAILY_PREFIX +:+ formatDateKey day))]> acc
           else acc)
        acc days !! k
  = if decide (k ≠ today ∧ k ∈ formatDateKey <$> days)
    then Some (as_daily (st !! (DAILY_PREFIX +:+ k)))
    else acc !! k.
Proof.
  revert acc. induction days as [|day days IH]; intros acc.
  - simpl. destruct (decide _) as [[_ Hin]|_]; [|done]. by apply elem_of_nil in Hin.
  - cbn [foldl]. rewrite IH. rewrite fmap_cons.
    destruct (decide (k ≠ today ∧ k ∈ formatDateKey <$> days)) as [[Hk Hin]|Hout].
    + rewrite decide_True; [done|]. split; [done|by right].
    + destruct (String.eqb_spec (formatDateKey day) today) as [Heq|Hne]; simpl.
      * destruct (decide _) as [[Hk Hin]|_]; [|done].
        apply elem_of_cons in Hin as [->|Hin]; [done|]. by destruct Hout.
      * destruct (decide (k = formatDateKey day)) as [->|Hkd].
        -- rewrite lookup_insert_eq. rewrite decide_True; [done|].
           split; [done|by left].
        -- rewrite lookup_insert_ne by done.
           destruct (decide _) as [[Hk Hin]|_]; [|done].
           apply elem_of_cons in Hin as [->|Hin]; [done|]. by destruct Hout.
Qed.

(** X16: What [getStats(days)] returns when every read resolves. Under the
    key of today's statistics it has their data, that is the record with the
    pending and the running session's time added, never the stored record
    alone. For each of the [days - 1] days before the day its end date falls
    on it has the stored record, empty when there is none, and it has no
    other entry; its limits are the migrated table. It changes neither state
    nor storage. *)
Theorem stats_cover_the_last_days (days : Z) (w : World) :
  (∀ n, rejects n = false) →
  let endDay := localDay (now (after_call (after_call (after_call w)))) in
  ∃ todayStats stats w',
    result_of getTodayStats w = Resolved todayStats ∧
    getStats days w = (Resolved stats, w') ∧
    state w' = state w ∧ storage w' = storage w ∧
    allLimits stats = migrate <$> as_limits (storage w !! LIMITS) ∧
    dailyData stats !! date todayStats = Some (data todayStats) ∧
    ∀ k, k = date todayStats ∨
         dailyData stats !! k
         = if decide (k ∈ formatDateKey <$> seqZ (endDay - days + 1) (days - 1))
           then Some (as_daily (storage w !! (DAILY_PREFIX +:+ k)))
           else None.
Proof.
  intros Hok endDay. subst endDay.
  unfold result_of, getStats. unfold mbind at 1, Async_bind at 1.
  rewrite getTodayStats_run, !Hok. cbv zeta.
  unfold mbind at 1, Async_bind at 1. rewrite getLimits_run, Hok. run.
  match goal with |- context [readDays ?today ?l ?acc ?w3] =>
    destruct (readDays_run today l acc w3 Hok) as (w' & Hrun & Hs & Hst);
    rewrite Hrun
  end.
  simpl in Hs, Hst. simpl.
  eexists _, _, w'. split; [done|]. split; [done|].
  split; [done|]. split; [done|]. split; [done|]. simpl.
  split.
  - rewrite readDays_lookup. rewrite decide_False by (by intros [? _]).
    by rewrite lookup_singleton_eq.
  - intros k. destruct (decide (k = formatDateKey (localDay (now w)))) as [|Hk];
      [by left|right].
    rewrite readDays_lookup.
    destruct (decide (k ∈ _)) as [Hin|Hout].
    + rewrite decide_True; done.
    + rewrite decide_False by (by intros [_ ?]).
      by rewrite lookup_singleton_ne.
Qed.

(** ** Limits set and removed by message *)


(** ** Signals from a tab that is not the active one *)

(** X18: A signal from a tab that neither the worker nor the host takes for
    the active one changes nothing: the handler only answers with the status
    of the signal's domain, read after the tab query. The read sits inside
    the [try] block, so when the query resolved and the read rejects, the
    [catch] block makes the read a second time. *)
Theorem signal_from_inactive_tab_only_reads (tabId : Z) (d : string)
    (activeTab : option Z) (w : World) :
  activeTabId (state w) ≠ Some tabId →
  activeTab ≠ Some tabId →
  let w' := world_after (handleActivityDetected tabId d activeTab) w in
  state w' = state w ∧ storage w' = storage w ∧
  handleActivityDetected tabId d activeTab w =
    match getDomainStatus d (after_call w) with
    | (Resolved status, w1) => (Resolved status, w1)
    | (Rejected, w1) =>
        if rejects (calls w) then (Rejected, w1) else getDomainStatus d w1
    end.
Proof.
  intros Htab Hq w'.
  assert (handleActivityDetected tabId d activeTab w =
            match getDomainStatus d (after_call w) with
            | (Resolved status, w1) => (Resolved status, w1)
            | (Rejected, w1) =>
                if rejects (calls w) then (Rejected, w1) else getDomainStatus d w1
            end) as Hrun.
  { unfold handleActivityDetected, confirmActiveTab. run.
    rewrite (bool_decide_eq_false_2 (activeTabId (state w) = Some tabId)) by done.
    rewrite orb_true_r. unfold try_catch, host_call. fold (after_call w).
    rewrite (bool_decide_eq_false_2 (activeTab = Some tabId)) by done.
    destruct (rejects (calls w)); simpl.
    - by destruct (getDomainStatus d (after_call w)) as [[status|] w1].
    - destruct (getDomainStatus d (after_call w)) as [[status|] w1]; simpl; [done|].
      by destruct (getDomainStatus d w1) as [[status|] w2]. }
  split; [|split; [|exact Hrun]]; subst w'; unfold world_after; rewrite Hrun.
  - destruct (quiet_getDomainStatus d (after_call w)) as (Hs & _ & _).
    unfold world_after in Hs.
    destruct (getDomainStatus d (after_call w)) as [[status|] w1]; simpl in *;
      [done|].
    destruct (rejects (calls w)); [done|].
    destruct (quiet_getDomainStatus d w1) as (Hs1 & _ & _).
    unfold world_after in Hs1. by rewrite Hs1.
  - destruct (quiet_getDomainStatus d (after_call w)) as (_ & Hst & _).
    unfold world_after in Hst.
    destruct (getDomainStatus d (after_call w)) as [[status|] w1]; simpl in *;
      [done|].
    destruct (rejects (calls w)); [done|].
    destruct (quiet_getDomainStatus d w1) as (_ & Hst1 & _).
    unfold world_after in Hst1. by rewrite Hst1.
Qed.

(** ** A signal from a tab that became active *)

(** X19: A running session is taken over, not closed, by a signal from
    another tab that the host reports as the active one: the handler records
    the signal's tab and domain before it compares domains, so it sees no
    mismatch, finalizes nothing and keeps the session start; with the last
    activity less than the timeout back and no periodic flush due, only the
    tab, the domain and the last activity time change. The time since the
    old session's start then counts for the new domain: a flush at a later
    time [t] credits it with [t - start]. *)
Theorem newly_active_tab_takes_over_session (tabId : Z) (d : string)
    (start last t : Z) (w : World) :
  let w1 := after_call w in
  let w' := world_after (handleActivityDetected tabId d (Some tabId)) w in
  activeTabId (state w) ≠ Some tabId →
  isTracking (state w) = true →
  sessionStartTime (state w) = Some start → start ≠ 0 →
  lastActivityTime (state w) = Some last →
  now w1 - last < INACTIVITY_TIMEOUT_MS →
  persistDue (state w) (now w1) = false →
  rejects (calls w) = false →
  d ≠ "" → start ≤ t →
  state w' = set_lastActivityTime (Some (now w1))
               (set_activeDomain (Some d) (set_activeTabId (Some tabId) (state w))) ∧
  storage w' = storage w ∧
  get_or_zero (pendingTime (rolled (mkWorld (state w') (storage w') t (calls w')))) d
    = get_or_zero (pendingTime (state w)) d + (t - start).
Proof.
  intros w1 w' Htab Htr Hst Hnz Hlast Hgap Hdue Hok Hd Hle.
  set (s' := set_lastActivityTime (Some (now w1))
               (set_activeDomain (Some d) (set_activeTabId (Some tabId) (state w)))).
  assert (handleActivityDetected tabId d (Some tabId) w
          = getDomainStatus d (mkWorld s' (storage w) (now w1) (S (calls w))))
    as Hrun.
  { unfold handleActivityDetected, confirmActiveTab. run.
    rewrite (bool_decide_eq_false_2 (activeTabId (state w) = Some tabId)) by done.
    rewrite orb_true_r. unfold try_catch, host_call. rewrite Hok. run.
    rewrite bool_decide_eq_true_2 by done. run.
    unfold switchDomain. run. rewrite bool_decide_eq_true_2 by done. run.
    rewrite (recordActivity_continue _ last) by (simpl; done).
    simpl. rewrite periodicPersist_run. simpl.
    unfold persistDue in *. simpl in *. by rewrite Hdue. }
  subst w'. unfold world_after. rewrite Hrun.
  destruct (quiet_getDomainStatus d (mkWorld s' (storage w) (now w1) (S (calls w))))
    as (Hs & Hsto & _).
  unfold world_after in Hs, Hsto.
  destruct (getDomainStatus d _) as [r wq]. simpl in Hs, Hsto |- *.
  rewrite Hs, Hsto. split; [done|]. split; [done|].
  apply (rollForward_credit (mkWorld s' _ t _) d start); simpl; done.
Qed.

(** ** The inactivity sweep followed by a flush *)

(** X20: The sweep followed by a flush, for a session on a non-empty
    domain [d] whose start is [start] and whose last activity, at a non-zero
    clock reading [last], is the timeout or longer ago.  The sweep stops the
    session without a host call (state apart, the world is as before) and
    adds to the pending amount of [d] the time from the session start to the
    last activity when that is positive, and nothing otherwise (an earlier
    flush may have moved the session start past the last activity; what that
    flush recorded, idle time included, stays recorded).  A flush that
    follows at any clock reading [t], its two storage calls resolving, then
    leaves no session and nothing pending, touches no key but that of the
    day of [t], and records under it, for every domain, what was recorded
    plus what was pending, plus, for [d], the amount the sweep added:
    the sweep and the flush count the time up to the last activity once and
    no time after it. *)
Theorem sweep_then_flush_credits_active_time (d : string) (start last t : Z)
    (w : World) :
  let w1 := world_after checkInactivityTimeout w in
  let wt := mkWorld (state w1) (storage w1) t (calls w1) in
  let w2 := world_after persistPendingTime wt in
  let credit := Z.max 0 (last - start) in
  isTracking (state w) = true →
  sessionStartTime (state w) = Some start →
  lastActivityTime (state w) = Some last → last ≠ 0 →
  activeDomain (state w) = Some d → d ≠ "" →
  INACTIVITY_TIMEOUT_MS ≤ now w - last →
  rejects (calls w) = false → rejects (S (calls w)) = false →
  w1 = mkWorld (state w1) (storage w) (now w) (calls w) ∧
  isTracking (state w1) = false ∧
  (∀ d', get_or_zero (pendingTime (state w1)) d'
         = get_or_zero (pendingTime (state w)) d'
           + if bool_decide (d' = d) then credit else 0) ∧
  isTracking (state w2) = false ∧
  pendingTime (state w2) = ∅ ∧
  (∀ key, key ≠ todayStorageKey wt → storage w2 !! key = storage w !! key) ∧
  ∀ d', get_or_zero (as_daily (storage w2 !! todayStorageKey wt)) d'
        = get_or_zero (as_daily (storage w !! todayStorageKey wt)) d'
          + get_or_zero (pendingTime (state w)) d'
          + if bool_decide (d' = d) then credit else 0.
Proof.
  intros w1 wt w2 credit Htr Hst Hlast Hlnz Hdom Hd Hgap H1 H2.
  set (pending1 := if 0 <? last - start
                   then <[d := get_or_zero (pendingTime (state w)) d + (last - start)]>
                          (pendingTime (state w))
                   else pendingTime (state w)).
  assert (checkInactivityTimeout w
          = (Resolved tt,
             mkWorld (set_lastActivityTime None
                        (set_sessionStartTime None
                           (set_isTracking false
                              (set_pendingTime pending1 (state w)))))
                     (storage w) (now w) (calls w))) as Hsweep.
  { unfold checkInactivityTimeout, pending1. run. rewrite Htr, Hlast, Hst, Hdom. simpl.
    destruct (Z.eqb_spec last 0) as [?|_]; [done|]. simpl.
    destruct (Z.leb_spec INACTIVITY_TIMEOUT_MS (now w - last)) as [_|?]; [|lia].
    destruct (Z.ltb_spec 0 (last - start)) as [?|?].
    - destruct (String.eqb_spec d "") as [?|_]; [done|]. run.
      by rewrite addPendingTime_pending by (done || lia).
    - run. done. }
  assert (∀ d', get_or_zero pending1 d'
                = get_or_zero (pendingTime (state w)) d'
                  + if bool_decide (d' = d) then credit else 0) as Hp1.
  { intros d'. unfold pending1, credit.
    destruct (Z.ltb_spec 0 (last - start)) as [?|?].
    - unfold get_or_zero at 1. case_bool_decide as Hdd.
      + subst d'. rewrite lookup_insert_eq. simpl. lia.
      + rewrite lookup_insert_ne by done. unfold get_or_zero. lia.
    - case_bool_decide; lia. }
  subst w2 wt w1. unfold world_after. rewrite Hsweep. simpl.
  split; [done|]. split; [done|]. split; [exact Hp1|].
  match goal with |- context [persistPendingTime ?x] => set (wt := x) end.
  assert (rolled wt = state wt) as Hr by (by apply rolled_not_tracking).
  destruct (decide (pending1 = ∅)) as [Hempty|Hne].
  - rewrite persistPendingTime_idle by (by rewrite Hr). rewrite Hr. simpl.
    split; [done|]. split; [done|]. split; [done|].
    intros d'. specialize (Hp1 d'). rewrite Hempty in Hp1.
    unfold get_or_zero at 1 in Hp1. rewrite lookup_empty in Hp1. simpl in Hp1. lia.
  - rewrite persistPendingTime_run by (by rewrite Hr). cbv zeta. rewrite Hr.
    change (calls wt) with (calls w). rewrite H1, H2. simpl.
    split; [done|]. split; [done|]. split.
    { intros key Hkey. by rewrite lookup_insert_ne. }
    intros d'. rewrite lookup_insert_eq. simpl.
    rewrite add_entries_get, Hp1. lia.
Qed.

(** ** What a tab change leaves behind *)

Lemma addPendingTime_activeTabId (dom : option string) (ms : Z) (s : State) :
  activeTabId (addPendingTime dom ms s) = activeTabId s.
Proof. unfold addPendingTime. destruct (_ || _); [done|]. by destruct dom. Qed.

Lemma rolled_activeTabId (w : World) : activeTabId (rolled w) = activeTabId (state w).
Proof.
  unfold rolled, world_after, rollForward. run.
  destruct (isTracking (state w) && truthy_num (sessionStartTime (state w))
            && truthy_str (activeDomain (state w))); simpl; [|done].
  destruct (0 <? now w - to_number (sessionStartTime (state w))); simpl; [|done].
  apply addPendingTime_activeTabId.
Qed.

Lemma persistPendingTime_rejected (w : World) :
  result_of persistPendingTime w = Rejected →
  state (world_after persistPendingTime w) = rolled w ∧
  storage (world_after persistPendingTime w) = storage w.
Proof.
  unfold world_after, result_of.
  destruct (decide (pendingTime (rolled w) = ∅)) as [He|Hne].
  - by rewrite persistPendingTime_idle.
  - rewrite persistPendingTime_run by done. simpl.
    destruct (rejects (calls w)); simpl; [done|].
    by destruct (rejects (S (calls w))).
Qed.

(** How [finalizeCurrentSession] ends, from a consistent state: resolved,
    with no session running, or rejected by its flush, with the session
    still running and storage as it was; the active tab and domain are not
    touched. *)
Lemma finalize_outcome (w : World) :
  Inv (state w) →
  match finalizeCurrentSession w with
  | (Resolved _, w1) =>
      isTracking (state w1) = false ∧
      activeTabId (state w1) = activeTabId (state w) ∧
      activeDomain (state w1) = activeDomain (state w)
  | (Rejected, w1) =>
      isTracking (state w1) = true ∧
      activeTabId (state w1) = activeTabId (state w) ∧
      activeDomain (state w1) = activeDomain (state w) ∧
      storage w1 = storage w
  end.
Proof.
  intros [Htruthy _]. unfold finalizeCurrentSession. run.
  destruct (negb (isTracking (state w))
            || negb (truthy_num (sessionStartTime (state w)))
            || negb (truthy_str (activeDomain (state w)))) eqn:Hguard; simpl.
  - split; [|done]. destruct (isTracking (state w)) eqn:Htr; [|done].
    destruct (Htruthy eq_refl) as [Hs Hd]. rewrite Hs, Hd in Hguard. done.
  - assert (isTracking (state w) = true) as Htr.
    { destruct (isTracking (state w)); [done|]. done. }
    match goal with |- context [0 <? ?e] => destruct (0 <? e) end; simpl; [|done].
    match goal with |- context [persistPendingTime ?x] => set (wa := x) end.
    pose proof (persistPendingTime_state wa) as [Hst _].
    pose proof (persistPendingTime_rejected wa) as Hrej.
    unfold world_after, result_of in *.
    assert (activeTabId (rolled wa) = activeTabId (state w)) as Htab.
    { rewrite rolled_activeTabId. apply addPendingTime_activeTabId. }
    assert (activeDomain (rolled wa) = activeDomain (state w)) as Hdom.
    { rewrite rolled_activeDomain. apply addPendingTime_activeDomain. }
    assert (isTracking (rolled wa) = true) as Hrtr.
    { rewrite rolled_isTracking. subst wa. simpl.
      by rewrite addPendingTime_isTracking. }
    destruct (persistPendingTime wa) as [[[]|] w1]; simpl in *.
    + split; [done|]. by destruct Hst as [->|[_ ->]].
    + destruct (Hrej eq_refl) as [-> ->]. done.
Qed.

(** X21: How a tab change ends, in its two steps.  The tab lookup, from the
    [await chrome.tabs.get] on and in whatever world [w'] it resumes (other
    handlers may have run since the handler was suspended), is one host
    call; it always resolves and leaves storage alone.  If the call rejects,
    the state is left as it is; if it resolves, the new tab is recorded,
    with the host name of its URL as the domain and the session fields
    reset, or, for a URL that is not tracked, with no domain and the other
    fields, [isTracking] among them, as they are.  Before it, from a
    consistent state, closing the running session leaves the active tab and
    domain as they were.  If the flush of that session rejects, the handler
    rejects there: the session is still running and storage is as it was.
    Otherwise no session is running and, when no other handler runs in
    between, the handler ends as the lookup does from there. *)
Theorem tab_change_outcome (tabId : Z) (url : option string) (w w' : World) :
  let w1 := world_after finalizeCurrentSession w in
  let recordedTab (s : State) :=
    if shouldTrackUrl url
    then mkState (Some tabId) (extractDomain url) None None false
                 (pendingTime s) (lastPersistTime s)
    else mkState (Some tabId) None (sessionStartTime s) (lastActivityTime s)
                 (isTracking s) (pendingTime s) (lastPersistTime s) in
  Inv (state w) →
  recordTab tabId url w' =
    (Resolved tt,
     if rejects (calls w') then after_call w'
     else mkWorld (recordedTab (state w')) (storage w')
                  (now (after_call w')) (calls (after_call w'))) ∧
  activeTabId (state w1) = activeTabId (state w) ∧
  activeDomain (state w1) = activeDomain (state w) ∧
  match result_of finalizeCurrentSession w with
  | Rejected =>
      isTracking (state w1) = true ∧
      storage w1 = storage w ∧
      handleTabChange tabId url w = (Rejected, w1)
  | Resolved _ =>
      isTracking (state w1) = false ∧
      handleTabChange tabId url w = recordTab tabId url w1
  end.
Proof.
  intros w1 recordedTab HI. pose proof (finalize_outcome w HI) as Hfin.
  split.
  { subst recordedTab. unfold recordTab, try_catch, host_call, after_call. run.
    destruct (rejects (calls w')); simpl; [done|].
    destruct (shouldTrackUrl url); simpl; done. }
  assert (handleTabChange tabId url w
          = match finalizeCurrentSession w with
            | (Resolved _, w2) => recordTab tabId url w2
            | (Rejected, w2) => (Rejected, w2)
            end) as Hrun by reflexivity.
  rewrite Hrun. subst w1. unfold result_of, world_after.
  destruct (finalizeCurrentSession w) as [[[]|] w1]; simpl.
  - destruct Hfin as (Htr & Htab & Hdom). done.
  - destruct Hfin as (Htr & Htab & Hdom & Hst). done.
Qed.

(** ** Storage under the event handlers *)

Lemma NonNeg_addPendingTime (dom : option string) (ms : Z) (s : State) :
  NonNeg s → NonNeg (addPendingTime dom ms s).
Proof.
  intros Hp. unfold addPendingTime.
  destruct (negb (truthy_str dom) || (ms <=? 0)) eqn:E; [done|].
  destruct dom as [d|]; [|done].
  apply orb_false_iff in E as [_ E]. apply Z.leb_gt in E.
  intros d' v. simpl. destruct (decide (d = d')) as [->|Hne].
  - rewrite lookup_insert_eq. intros [= <-]. unfold get_or_zero.
    destruct (pendingTime s !! d') as [v0|] eqn:Hv; simpl; [|lia].
    specialize (Hp d' v0 Hv). lia.
  - rewrite lookup_insert_ne by done. apply Hp.
Qed.

Lemma NonNeg_rolled (w : World) : NonNeg (state w) → NonNeg (rolled w).
Proof.
  intros Hp. unfold rolled, world_after, rollForward. run.
  destruct (isTracking (state w) && truthy_num (sessionStartTime (state w))
            && truthy_str (activeDomain (state w))); simpl; [|done].
  destruct (0 <? now w - to_number (sessionStartTime (state w))); simpl; [|done].
  by apply (NonNeg_addPendingTime _ _ _ Hp).
Qed.

Lemma grown_refl (st : gmap string StoredValue) : grown st st.
Proof. split; [done|]. intros key d. lia. Qed.

Lemma grown_flush (st0 st : gmap string StoredValue) (day : Z)
    (pending : gmap string Z) :
  (∀ d v, pending !! d = Some v → 0 ≤ v) →
  grown st0 st →
  grown st0
    (<[DAILY_PREFIX +:+ formatDateKey day :=
         DailyRecord (add_entries pending
                        (as_daily (st !! (DAILY_PREFIX +:+ formatDateKey day))))]> st).
Proof.
  intros Hp [Hother Hup]. split.
  - intros key Hkey. rewrite lookup_insert_ne; [by apply Hother|].
    intros <-. by rewrite startsWith_daily in Hkey.
  - intros key d. etrans; [apply Hup|].
    destruct (decide (key = DAILY_PREFIX +:+ formatDateKey day)) as [->|Hne].
    + rewrite lookup_insert_eq. simpl. rewrite add_entries_get.
      unfold get_or_zero at 3. destruct (pending !! d) as [v|] eqn:Hv; simpl; [|lia].
      specialize (Hp d v Hv). lia.
    + rewrite lookup_insert_ne by done. lia.
Qed.

Lemma grows_modify (st0 : gmap string StoredValue) (f : State → State) :
  (∀ s, NonNeg s → NonNeg (f s)) → keeps (grownFrom st0) (modify_state f).
Proof. intros H. apply triple_modify. intros w [Hp Hg]. split; [by apply H|done]. Qed.

Lemma grows_quiet {A} (st0 : gmap string StoredValue) (m : Async A) :
  quiet m → keeps (grownFrom st0) m.
Proof.
  intros Hq w [Hp Hg]. destruct (Hq w) as (Hst & Hsto & _).
  unfold world_after in *. destruct (m w) as [[a|] w1]; simpl in *;
    (split; [by rewrite Hst|by rewrite Hsto]).
Qed.

Lemma grows_persistPendingTime (st0 : gmap string StoredValue) :
  keeps (grownFrom st0) persistPendingTime.
Proof.
  intros w [Hp Hg]. pose proof (NonNeg_rolled w Hp) as Hr.
  destruct (decide (pendingTime (rolled w) = ∅)) as [He|Hne].
  - rewrite persistPendingTime_idle by done. done.
  - rewrite persistPendingTime_run by done. simpl.
    destruct (rejects (calls w)); [done|].
    destruct (rejects (S (calls w))); [done|].
    split.
    + intros d v. simpl. by rewrite lookup_empty.
    + simpl. unfold todayStorageKey. by apply grown_flush.
Qed.

Ltac grows_step :=
  repeat
    match goal with
    | |- keeps _ (mret _) => apply keeps_ret
    | |- keeps _ persistPendingTime => apply grows_persistPendingTime
    | |- keeps _ get_state => apply grows_quiet, quiet_get_state
    | |- keeps _ Date_now => apply grows_quiet, quiet_Date_now
    | |- keeps _ host_call => apply grows_quiet, quiet_host_call
    | |- keeps _ (getDomainStatus _) => apply grows_quiet, quiet_getDomainStatus
    | |- keeps _ (modify_state (addPendingTime _ _)) =>
        apply grows_modify; intros ? ?; by apply NonNeg_addPendingTime
    | |- keeps _ (modify_state _) => apply grows_modify; intros ? ?; assumption
    | |- keeps _ (when _ _) => apply keeps_when
    | |- keeps _ (try_catch _ _) => apply keeps_try_catch
    | |- keeps _ (_ ≫= _) => apply keeps_bind; [|intros ?]
    | |- keeps _ (if ?b then _ else _) => destruct b
    | |- keeps _ (match ?x with _ => _ end) => destruct x
    end.

Lemma grows_finalize (st0 : gmap string StoredValue) :
  keeps (grownFrom st0) finalizeCurrentSession.
Proof. unfold finalizeCurrentSession. grows_step. Qed.

Lemma grows_handle (st0 : gmap string StoredValue) (e : Event) :
  keeps (grownFrom st0) (handle e).
Proof.
  destruct e as [tab url|tab d q| | |]; simpl.
  - unfold handleTabChange, recordTab. apply keeps_bind; [apply grows_finalize|].
    intros _. grows_step.
  - unfold handleActivityDetected, confirmActiveTab, switchDomain,
      recordActivity, periodicPersist.
    apply keeps_bind; [|intros _; apply keeps_ret].
    apply keeps_bind; [grows_step|]. intros [|status]; [|grows_step].
    apply keeps_bind.
    { apply keeps_bind; [grows_step|]. intros s.
      destruct (negb _); [|grows_step].
      apply keeps_bind; [apply grows_finalize|]. intros _. grows_step. }
    intros _. grows_step.
  - unfold checkInactivityTimeout. grows_step.
  - apply grows_finalize.
  - apply grows_persistPendingTime.
Qed.

Lemma reachable_NonNeg (w : World) : reachable w → NonNeg (state w).
Proof.
  intros Hreach d v Hv. destruct (reachable_Inv w Hreach) as [_ Hp].
  specialize (Hp d v Hv). lia.
Qed.

(** X22: Whatever event comes next in a reachable world, delivered at any
    clock reading and whatever the host then does, the handlers write
    nothing but daily records (the limits table and every other key that
    does not start with the daily prefix hold what they held) and no amount
    recorded for a domain, under any date, goes down. *)
Theorem recorded_time_never_decreases (t : Z) (e : Event) (w : World) :
  reachable w →
  let w' := dispatch t e w in
  storage w' !! LIMITS = storage w !! LIMITS ∧
  (∀ key, startsWith DAILY_PREFIX key = false →
          storage w' !! key = storage w !! key) ∧
  (∀ key d, recorded w key d ≤ recorded w' key d).
Proof.
  intros Hreach w'. subst w'. unfold dispatch, world_after, recorded.
  pose proof (grows_handle (storage w) e
                (mkWorld (state w) (storage w) t (calls w))) as Hk.
  assert (grownFrom (storage w) (mkWorld (state w) (storage w) t (calls w))) as H0.
  { split; [exact (reachable_NonNeg w Hreach)|apply grown_refl]. }
  specialize (Hk H0).
  destruct (handle e _) as [[[]|] w']; simpl; destruct Hk as [_ [Hother Hup]];
    (split; [by apply Hother|]; split; [exact Hother|exact Hup]).
Qed.

(** ** A flush neither creates nor loses time *)

Lemma rolled_cases (w : World) :
  rolled w =
    let s := state w in
    if isTracking s && truthy_num (sessionStartTime s) && truthy_str (activeDomain s)
    then set_sessionStartTime (Some (now w))
           (if 0 <? now w - to_number (sessionStartTime s)
            then addPendingTime (activeDomain s)
                   (now w - to_number (sessionStartTime s)) s
            else s)
    else s.
Proof.
  unfold rolled, world_after, rollForward. run.
  destruct w as [s st t c]; simpl.
  destruct (isTracking s && truthy_num (sessionStartTime s)
            && truthy_str (activeDomain s)); simpl; [|done].
  destruct (0 <? t - to_number (sessionStartTime s)); done.
Qed.

Lemma rolled_total (w : World) (d : string) (st : gmap string StoredValue) (c : nat) :
  0 ≤ live d w →
  get_or_zero (pendingTime (rolled w)) d + live d (mkWorld (rolled w) st (now w) c)
  = get_or_zero (pendingTime (state w)) d + live d w.
Proof.
  intros Hlive. rewrite rolled_cases. cbv zeta.
  destruct (isTracking (state w) && truthy_num (sessionStartTime (state w))
            && truthy_str (activeDomain (state w))) eqn:Hguard; [|done].
  apply andb_true_iff in Hguard as [Hguard Hdom].
  apply andb_true_iff in Hguard as [Htr Hstart].
  destruct (activeDomain (state w)) as [a|] eqn:Ha; [|done].
  assert (a ≠ "") as Hane.
  { intros ->. done. }
  set (e := now w - to_number (sessionStartTime (state w))) in *.
  assert (live d w = if bool_decide (a = d) then e else 0) as Hl.
  { unfold live. rewrite Htr, Ha, Hstart. simpl.
    destruct (decide (a = d)) as [->|Hne].
    - by rewrite !bool_decide_eq_true_2.
    - by rewrite !bool_decide_eq_false_2 by congruence. }
  rewrite Hl in Hlive |- *.
  assert (∀ s', live d (mkWorld (set_sessionStartTime (Some (now w)) s') st (now w) c)
                = 0) as Hzero.
  { intros s'. unfold live. simpl. destruct (_ && _); lia. }
  rewrite Hzero.
  destruct (Z.ltb_spec 0 e) as [Hpos|Hnpos]; simpl.
  - rewrite addPendingTime_pending by done. simpl.
    destruct (decide (a = d)) as [->|Hne].
    + rewrite bool_decide_eq_true_2 by done.
      unfold get_or_zero at 1. rewrite lookup_insert_eq. simpl. lia.
    + rewrite bool_decide_eq_false_2 by done.
      unfold get_or_zero at 1. rewrite lookup_insert_ne by done.
      fold (get_or_zero (pendingTime (state w)) d). lia.
  - destruct (bool_decide (a = d)); lia.
Qed.

(** X23: A flush moves time from the buffer and the running session into
    today's record without creating or losing any: for every domain, what is
    recorded today plus what is pending plus the running session's time, all
    read at the clock reading at which the flush started, is the same after
    the flush as before it, whether the flush resolved or rejected. (The
    session's time must not be negative, that is the clock not behind the
    session start.) *)
Theorem flush_conserves_totals (d : string) (w : World) :
  0 ≤ live d w →
  let w' := world_after persistPendingTime w in
  let today := localDay (now w) in
  recordedOn (storage w') today d
  + get_or_zero (pendingTime (state w')) d
  + live d (mkWorld (state w') (storage w') (now w) (calls w'))
  = recordedOn (storage w) today d
    + get_or_zero (pendingTime (state w)) d
    + live d w.
Proof.
  intros Hlive w' today. subst w' today. unfold world_after.
  pose proof (rolled_total w d) as Hroll.
  destruct (decide (pendingTime (rolled w) = ∅)) as [He|Hne].
  - rewrite persistPendingTime_idle by done. cbn [snd state storage now calls].
    specialize (Hroll (storage w) (calls w) Hlive). lia.
  - rewrite persistPendingTime_run by done. cbv zeta.
    destruct (rejects (calls w)); cbn [snd state storage now calls].
    { specialize (Hroll (storage w) (S (calls w)) Hlive). lia. }
    destruct (rejects (S (calls w))); cbn [snd state storage now calls].
    { specialize (Hroll (storage w) (S (S (calls w))) Hlive). lia. }
    specialize (Hroll (storage w) (calls w) Hlive).
    unfold recordedOn at 1. fold (todayStorageKey w). rewrite lookup_insert_eq.
    cbn [as_daily]. rewrite add_entries_get.
    unfold recordedOn. fold (todayStorageKey w).
    assert (get_or_zero (pendingTime (set_pendingTime ∅ (rolled w))) d = 0) as ->.
    { simpl. unfold get_or_zero. by rewrite lookup_empty. }
    assert (live d (mkWorld (set_pendingTime ∅ (rolled w))
                      (<[todayStorageKey w :=
                           DailyRecord
                             (add_entries (pendingTime (rolled w))
                                (as_daily (storage w !! todayStorageKey w)))]>
                         (storage w))
                      (now w) (S (S (calls w))))
            = live d (mkWorld (rolled w) (storage w) (now w) (calls w))) as ->
      by done.
    lia.
Qed.

(** ** Weeks, display names and day keys *)

(** X24: The week of a day starts on the Monday on or before it and ends on
    the Sunday six days later; the start of a week is its own start. *)
Theorem week_runs_monday_to_sunday (date : Z) :
  let weekStart := getWeekStart date in
  getDay weekStart = 1 ∧
  getDay (getWeekEnd weekStart) = 0 ∧
  weekStart ≤ date ≤ getWeekEnd weekStart ∧
  getWeekStart weekStart = weekStart.
Proof.
  unfold getWeekStart, getWeekEnd, getDay. cbv zeta.
  destruct (Z.eqb_spec ((date + 4) mod 7) 0) as [H0|H0]; repeat split;
    repeat match goal with
           | |- context [?b =? 0] => destruct (Z.eqb_spec b 0)
           end;
    Z.div_mod_to_equations; lia.
Qed.

Lemma substring_length (n : nat) (s : string) :
  String.length (String.substring 0 n s) = Nat.min n (String.length s).
Proof.
  revert s. induction n as [|n IH]; intros [|c s]; simpl; try done.
  by rewrite IH.
Qed.

(** X25: A display name is never longer than the maximum asked for, or than
    3 characters when less than 3 are asked for (the three dots are always
    appended to a name that is cut); a name that fits, or is empty, is shown
    as it is, a longer one is cut to [maxLength - 3] characters and the
    dots, and no name gives the empty string. *)
Theorem truncateDomain_fits (domain : option string) (maxLength : Z) :
  Z.of_nat (String.length (truncateDomain domain maxLength)) ≤ Z.max maxLength 3 ∧
  truncateDomain None maxLength = "" ∧
  match domain with
  | Some d =>
      if String.eqb d "" || (Z.of_nat (String.length d) <=? maxLength)
      then truncateDomain domain maxLength = d
      else truncateDomain domain maxLength
           = String.substring 0 (Z.to_nat (maxLength - 3)) d +:+ "..." ∧
           String.length (truncateDomain domain maxLength)
           = (Z.to_nat (maxLength - 3) + 3)%nat
  | None => True
  end.
Proof.
  unfold truncateDomain. split; [|split; [done|]].
  - destruct domain as [d|]; simpl; [|lia].
    destruct (String.eqb_spec d ""); simpl; [lia|].
    destruct (Z.leb_spec (Z.of_nat (String.length d)) maxLength); [lia|].
    rewrite string_length_app, substring_length. simpl. lia.
  - destruct domain as [d|]; [|done]. simpl.
    destruct (String.eqb_spec d "") as [->|Hd]; simpl; [done|].
    destruct (Z.leb_spec (Z.of_nat (String.length d)) maxLength); [done|].
    split; [done|].
    rewrite string_length_app, substring_length. simpl. lia.
Qed.

(** X26: [getLastNDaysKeys(days)] lists the date keys of the [days] days
    that end today, today's first, each once: the keys whose records
    [getAggregatedData(days)] sums. *)
Theorem last_days_keys_are_the_aggregated_days (days : Z) (w : World) :
  let today := localDay (now w) in
  ∃ keys,
    getLastNDaysKeys days w = (Resolved keys, w) ∧
    length keys = Z.to_nat days ∧
    NoDup keys ∧
    keys !! 0%nat = (if 0 <? days then Some (formatDateKey today) else None) ∧
    ∀ k, k ∈ keys ↔ k ∈ formatDateKey <$> seqZ (today - days + 1) days.
Proof.
  intros today. unfold getLastNDaysKeys. run. eexists. split; [done|].
  split; [by rewrite length_fmap, length_seqZ|]. split; [|split].
  - apply NoDup_fmap_2_strong; [|apply NoDup_seqZ].
    intros i j _ _ Heq. apply formatDateKey_inj in Heq. lia.
  - destruct (Z.ltb_spec 0 days).
    + rewrite seqZ_cons by done. simpl. by rewrite Z.sub_0_r.
    + by rewrite seqZ_nil.
  - intros k. rewrite !list_elem_of_fmap. split.
    + intros (i & -> & Hi). apply elem_of_seqZ in Hi.
      exists (localDay (now w) - i). split; [done|]. apply elem_of_seqZ. lia.
    + intros (j & -> & Hj). apply elem_of_seqZ in Hj.
      exists (localDay (now w) - j). split; [f_equal; lia|]. apply elem_of_seqZ. lia.
Qed.

(** ** The content script never floods the worker *)

Lemma reports_spaced (last : Z) (events : list Z) (i : nat) (earlier later : Z) :
  (last :: reports last events) !! i = Some earlier →
  (last :: reports last events) !! S i = Some later →
  earlier + ACTIVITY_THROTTLE_MS ≤ later.
Proof.
  revert last i. induction events as [|now events IH]; intros last i; simpl.
  - intros _ Hlater. by rewrite lookup_nil in Hlater.
  - unfold handleActivity.
    destruct (Z.ltb_spec (now - last) ACTIVITY_THROTTLE_MS); [apply IH|].
    destruct i as [|i]; simpl.
    + intros [= <-] [= <-]. lia.
    + apply (IH now i).
Qed.

(** X27: Whatever the page events and the clock readings at which they
    arrive, two consecutive activity signals of a content script are at
    least [ACTIVITY_THROTTLE_MS] apart on its clock, and the first is that
    much after the initial [lastReportTime]; an event is reported exactly
    when it comes that long after the last signal. *)
Theorem activity_signals_are_throttled (lastReportTime : Z) (events : list Z) :
  (∀ i earlier later,
     (lastReportTime :: reports lastReportTime events) !! i = Some earlier →
     (lastReportTime :: reports lastReportTime events) !! S i = Some later →
     earlier + ACTIVITY_THROTTLE_MS ≤ later) ∧
  (∀ now, handleActivity now lastReportTime
          = if bool_decide (lastReportTime + ACTIVITY_THROTTLE_MS ≤ now)
            then (now, true) else (lastReportTime, false)).
Proof.
  split; [apply reports_spaced|].
  intros now. unfold handleActivity.
  destruct (Z.ltb_spec (now - lastReportTime) ACTIVITY_THROTTLE_MS).
  - by rewrite bool_decide_eq_false_2 by lia.
  - by rewrite bool_decide_eq_true_2 by lia.
Qed.

(** ** Session times and [isTracking] *)

Lemma addPendingTime_times (dom : option string) (ms : Z) (s : State) :
  sessionStartTime (addPendingTime dom ms s) = sessionStartTime s ∧
  lastActivityTime (addPendingTime dom ms s) = lastActivityTime s.
Proof. unfold addPendingTime. destruct (_ || _); [done|]. by destruct dom. Qed.

Lemma Sound_addPendingTime (dom : option string) (ms : Z) (s : State) :
  Sound s → Sound (addPendingTime dom ms s).
Proof.
  intros [HI [Hidle Hlast]]. split; [by apply Inv_addPendingTime|].
  destruct (addPendingTime_times dom ms s) as [Hs Hl].
  split; rewrite addPendingTime_isTracking, ?Hs, Hl; done.
Qed.

Lemma Sound_rolled (w : World) : ok Sound w → Sound (rolled w).
Proof.
  intros [[HI [Hidle Hlast]] Ht]. split; [by apply Inv_rolled|].
  rewrite rolled_cases. cbv zeta.
  destruct (isTracking (state w) && truthy_num (sessionStartTime (state w))
            && truthy_str (activeDomain (state w))) eqn:Hguard; [|done].
  apply andb_true_iff in Hguard as [Hguard _].
  apply andb_true_iff in Hguard as [Htr _].
  destruct (0 <? now w - to_number (sessionStartTime (state w))); simpl.
  - destruct (addPendingTime_times (activeDomain (state w))
                (now w - to_number (sessionStartTime (state w))) (state w))
      as [_ Hl].
    split; simpl; rewrite addPendingTime_isTracking, ?Hl; [congruence|done].
  - split; simpl; [congruence|done].
Qed.

Lemma Sound_clear (s : State) : Sound s → Sound (set_pendingTime ∅ s).
Proof. intros [HI HT]. split; [by apply Inv_clear|done]. Qed.

Lemma keeps_persist_Sound : keeps (ok Sound) persistPendingTime.
Proof. apply keeps_persistPendingTime; [apply Sound_rolled|apply Sound_clear]. Qed.

Lemma keeps_persist_SoundOn (d : string) : keeps (ok (SoundOn d)) persistPendingTime.
Proof.
  apply keeps_persistPendingTime.
  - intros w [[HS Hd] Ht]. split; [by apply Sound_rolled|].
    by rewrite rolled_activeDomain.
  - intros s [HS Hd]. split; [by apply Sound_clear|done].
Qed.

Lemma Sound_stop (s : State) :
  Sound s →
  Sound (set_lastActivityTime None (set_sessionStartTime None (set_isTracking false s))).
Proof. intros [HI _]. split; [by apply Inv_stop|]. split; done. Qed.

Lemma finalize_stops_Sound :
  triple (ok Sound) finalizeCurrentSession
         (λ _ w, ok Sound w ∧ isTracking (state w) = false) (ok Sound).
Proof.
  intros w [HS Ht]. unfold finalizeCurrentSession. run.
  destruct (negb (isTracking (state w))
            || negb (truthy_num (sessionStartTime (state w)))
            || negb (truthy_str (activeDomain (state w)))) eqn:Hguard; simpl.
  - split; [done|]. destruct (isTracking (state w)) eqn:Htr; [|done].
    destruct HS as [[Htruthy _] _]. destruct (Htruthy Htr) as [Hs Hd].
    rewrite Hs, Hd in Hguard. done.
  - match goal with |- context [0 <? ?e] => destruct (0 <? e) end; simpl.
    + match goal with |- context [persistPendingTime ?wa] =>
        pose proof (keeps_persist_Sound wa) as Hk;
        destruct (persistPendingTime wa) as [[[]|] w1]
      end; simpl in *.
      * destruct Hk as [HS1 Ht1]; [split; [by apply Sound_addPendingTime|done]|].
        split; [|done]. split; [by apply Sound_stop|done].
      * apply Hk. split; [by apply Sound_addPendingTime|done].
    + split; [|done]. split; [by apply Sound_stop|done].
Qed.

Lemma keeps_finalize_Sound : keeps (ok Sound) finalizeCurrentSession.
Proof.
  eapply triple_conseq; [apply finalize_stops_Sound|..]; simpl; try done.
  by intros _ w [? _].
Qed.

Lemma keeps_sweep_Sound : keeps (ok Sound) checkInactivityTimeout.
Proof.
  intros w [HS Ht]. unfold checkInactivityTimeout. run.
  destruct (negb (isTracking (state w))
            || negb (truthy_num (lastActivityTime (state w)))); simpl; [done|].
  destruct (INACTIVITY_TIMEOUT_MS <=? _); simpl; [|done].
  destruct (_ && _); simpl; (split; [apply Sound_stop|done]);
    [by apply Sound_addPendingTime|done].
Qed.

(** A state that is not tracking stays sound when its tab and domain are
    replaced, whatever the session times are reset to. *)
Lemma Sound_idle_fields (s s' : State) :
  Sound s → isTracking s = false →
  isTracking s' = false →
  pendingTime s' = pendingTime s →
  sessionStartTime s' = None → lastActivityTime s' = None →
  Sound s'.
Proof.
  intros [[_ Hp] _] Hidle Hidle' Hpend Hs Hl. split; split.
  - congruence.
  - by rewrite Hpend.
  - done.
  - congruence.
Qed.

Lemma keeps_tab_Sound (tabId : Z) (url : option string) :
  keeps (ok Sound) (handleTabChange tabId url).
Proof.
  unfold handleTabChange, recordTab.
  apply (triple_bind _ _ _ (λ _ w, ok (λ s, Sound s ∧ isTracking s = false) w)).
  { eapply triple_conseq; [apply finalize_stops_Sound|..]; simpl; try done.
    intros _ w [[? ?] ?]. done. }
  intros _. apply (triple_try_catch _ _ _ _ _ (ok Sound)); [|by apply triple_ret].
  apply (triple_bind _ _ _ (λ _ w, ok (λ s, Sound s ∧ isTracking s = false) w)).
  { eapply triple_conseq;
      [apply (keeps_quiet (λ s, Sound s ∧ isTracking s = false)), quiet_host_call
      |done|done|by intros w [[? _] ?]]. }
  intros _ w [[HS Hidle] Ht].
  destruct HS as [HI [Hnone Hlast]]. destruct (Hnone Hidle) as [Hs Hl].
  destruct (negb (shouldTrackUrl url)); simpl; (split; [|done]);
    by apply (Sound_idle_fields (state w)).
Qed.

(** A tracked session on [d] whose start and last activity time the code's
    tests accept. *)
Lemma SoundOn_session (d : string) (s s' : State) :
  d ≠ "" → Inv s →
  pendingTime s' = pendingTime s →
  activeDomain s' = Some d →
  isTracking s' = true →
  truthy_num (sessionStartTime s') = true →
  truthy_num (lastActivityTime s') = true →
  SoundOn d s'.
Proof.
  intros Hd [_ Hp] Hpend Hdom Htr Hs Hl. split; [|done]. split; split.
  - intros _. rewrite Hdom. split; [done|by apply truthy_str_Some].
  - by rewrite Hpend.
  - congruence.
  - done.
Qed.

Lemma keeps_recordActivity_Sound (d : string) :
  d ≠ "" → keeps (ok (SoundOn d)) recordActivity.
Proof.
  intros Hd w [[[HI [Hidle Hlast]] Hdom] Ht].
  assert (Sound (state w)) as HS by (by split).
  assert (truthy_num (Some (now w)) = true) as Hnow by (apply truthy_num_Some; lia).
  destruct (isTracking (state w)) eqn:Htr.
  - destruct (lastActivityTime (state w)) as [last|] eqn:Hl;
      [|by specialize (Hlast eq_refl)].
    assert (last ≠ 0) as Hlnz.
    { specialize (Hlast eq_refl). simpl in Hlast.
      by apply negb_true_iff, Z.eqb_neq in Hlast. }
    destruct HI as [Htruthy Hp]. destruct (Htruthy Htr) as [Hstart _].
    destruct (Z.le_gt_cases INACTIVITY_TIMEOUT_MS (now w - last)) as [Hgap|Hgap].
    + destruct ((0 <? last - to_number (sessionStartTime (state w)))
                && truthy_str (activeDomain (state w))) eqn:Hcredit.
      * rewrite (recordActivity_gap_credit w last) by done. cbv zeta.
        match goal with |- context [persistPendingTime ?wa] =>
          pose proof (keeps_persist_SoundOn d wa) as Hk;
          pose proof (persistPendingTime_state wa) as [Hst _];
          unfold world_after, result_of in Hst;
          destruct (persistPendingTime wa) as [[[]|] w1]
        end; simpl in *.
        -- destruct Hk as [[[HI1 HT1] Hd1] Ht1].
           { split; [|done].
             split; [|by simpl; rewrite addPendingTime_activeDomain].
             by apply Sound_addPendingTime. }
           assert (isTracking (state w1) = true) as Htr1.
           { destruct Hst as [->|[_ ->]]; simpl; rewrite rolled_isTracking; simpl;
               by rewrite addPendingTime_isTracking. }
           split; [|done].
           by apply (SoundOn_session d (state w1)).
        -- apply Hk. split; [|done].
           split; [|by simpl; rewrite addPendingTime_activeDomain].
           by apply Sound_addPendingTime.
      * rewrite (recordActivity_gap_no_credit w last) by done. simpl.
        split; [|done]. by apply (SoundOn_session d (state w)).
    + rewrite (recordActivity_continue w last) by (done || lia). simpl.
      split; [|done]. by apply (SoundOn_session d (state w)).
  - rewrite recordActivity_start by done. simpl.
    split; [|done]. by apply (SoundOn_session d (state w)).
Qed.

Lemma keeps_periodicPersist_Sound (d : string) (t : Z) :
  keeps (ok (SoundOn d)) (periodicPersist t).
Proof.
  unfold periodicPersist. apply with_state. intros s.
  eapply triple_conseq with (P := ok (SoundOn d)) (Q := λ _, ok (SoundOn d));
    [|by intros w [? _]|done|done].
  destruct (match lastPersistTime s with Some p => _ | None => _ end);
    [|by apply keeps_ret].
  apply keeps_bind.
  - apply keeps_modify. intros s0 [[[Htr Hp] HT] Hdom]. done.
  - intros _. apply keeps_try_catch; [apply keeps_persist_SoundOn|apply keeps_ret].
Qed.

Lemma switchDomain_sets_Sound (d : string) :
  d ≠ "" →
  triple (ok Sound) (switchDomain d) (λ _, ok (SoundOn d)) (ok Sound).
Proof.
  intros Hd. unfold switchDomain. apply with_state. intros s.
  destruct (bool_decide (Some d = activeDomain s)) eqn:Heq; simpl.
  - apply bool_decide_eq_true in Heq. intros w [[HS Ht] <-]. simpl. done.
  - apply (triple_bind _ _ _ (λ _ w, ok (λ s, Sound s ∧ isTracking s = false) w)).
    { eapply triple_conseq; [apply finalize_stops_Sound|..]; simpl; try done.
      - by intros w [? _].
      - intros _ w [[? ?] ?]. done. }
    intros _ w [[HS Hidle] Ht]. simpl. split; [|done]. split; [|done].
    destruct HS as [HI [Hnone Hlast]]. destruct (Hnone Hidle) as [Hs Hl].
    by apply (Sound_idle_fields (state w)).
Qed.

Lemma keeps_activity_Sound (tabId : Z) (d : string) (q : option Z) :
  d ≠ "" → keeps (ok Sound) (handleActivityDetected tabId d q).
Proof.
  intros Hd. unfold handleActivityDetected.
  apply (triple_bind _ _ _ (λ _, ok Sound)).
  { unfold confirmActiveTab. apply with_state. intros s.
    eapply triple_conseq with (P := ok Sound) (Q := λ _, ok Sound);
      [|by intros w [? _]|done|done].
    destruct (_ || _); [|by apply keeps_ret].
    assert (keeps (ok Sound) (r ← getDomainStatus d; mret (Answer r))) as Hans.
    { apply keeps_bind; [apply keeps_quiet, quiet_getDomainStatus|].
      intros r. apply keeps_ret. }
    apply keeps_try_catch; [|done].
    apply keeps_bind; [apply keeps_quiet, quiet_host_call|]. intros _.
    destruct (bool_decide _); [|done].
    intros w [[[Htruthy Hp] HT] Ht]. simpl. split; [|done]. split; [|done].
    split; [|exact Hp].
    simpl. intros Htr. destruct (Htruthy Htr) as [Hs _].
    split; [done|by apply truthy_str_Some]. }
  intros [|status]; [|by apply keeps_ret].
  apply (triple_bind _ _ _ (λ _, ok (SoundOn d))); [by apply switchDomain_sets_Sound|].
  intros _. eapply triple_conseq with (P := ok (SoundOn d)) (Q := λ _, ok (SoundOn d))
                                      (R := ok (SoundOn d));
    [|done|by intros _ w [[? _] ?]|by intros w [[? _] ?]].
  apply keeps_bind; [by apply keeps_recordActivity_Sound|]. intros t.
  apply keeps_bind; [apply keeps_periodicPersist_Sound|]. intros _.
  apply keeps_quiet, quiet_getDomainStatus.
Qed.

Lemma keeps_handle_Sound (t : Z) (e : Event) :
  plausible t e → keeps (ok Sound) (handle e).
Proof.
  intros [_ He]. destruct e as [tab url|tab d q| | |]; simpl.
  - apply keeps_tab_Sound.
  - apply keeps_bind; [by apply keeps_activity_Sound|].
    intros _. apply keeps_ret.
  - apply keeps_sweep_Sound.
  - apply keeps_finalize_Sound.
  - apply keeps_persist_Sound.
Qed.

Lemma reachable_Sound (w : World) : reachable w → Sound (state w).
Proof.
  induction 1 as [st t c|t e w Hreach IH Hpl].
  { split; [apply Inv_initial|]. split; done. }
  unfold dispatch, world_after.
  pose proof (keeps_handle_Sound t e Hpl (mkWorld (state w) (storage w) t (calls w)))
    as Hk.
  destruct (handle e _) as [[[]|] w']; simpl; apply Hk; (split; [done|apply Hpl]).
Qed.

(** X28: In every reachable world the session times agree with [isTracking]:
    while no session is tracked there is neither a session start nor a last
    activity time, and while one is tracked there is a last activity time
    (other than 0). No handler leaves stale times behind when it stops a
    session, whether its host calls resolve or reject. *)
Theorem session_times_follow_tracking (w : World) :
  reachable w →
  (isTracking (state w) = false →
     sessionStartTime (state w) = None ∧ lastActivityTime (state w) = None) ∧
  (isTracking (state w) = true →
     ∃ last, lastActivityTime (state w) = Some last ∧ last ≠ 0).
Proof.
  intros Hreach. destruct (reachable_Sound w Hreach) as [_ [Hidle Hlast]].
  split; [exact Hidle|]. intros Htr. specialize (Hlast Htr).
  destruct (lastActivityTime (state w)) as [last|]; [|done].
  exists last. split; [done|]. simpl in Hlast.
  by apply negb_true_iff, Z.eqb_neq in Hlast.
Qed.

End Host.

(** The host of the examples delivering an event. *)
Abbreviation deliver := (dispatch instant reliable utc hostname_of).

(** * The model at work *)

Example formatDateKey_2024_06_15 : formatDateKey 19889 = "2024-06-15".
Proof. vm_compute. reflexivity. Qed.

Example formatDateKey_epoch : formatDateKey 0 = "1970-01-01".
Proof. vm_compute. reflexivity. Qed.

Example parseIsoDate_2024_06_15 :
  parseIsoDate "2024-06-15" = Some (19889 * MS_PER_DAY).
Proof. vm_compute. reflexivity. Qed.

Example parseIsoDate_other : parseIsoDate "yesterday" = None.
Proof. vm_compute. reflexivity. Qed.

Example hostname_of_page :
  hostname_of "https://news.example.org/today" = Some "news.example.org".
Proof. vm_compute. reflexivity. Qed.

Example shouldTrackUrl_settings : shouldTrackUrl (Some "chrome://settings") = false.
Proof. vm_compute. reflexivity. Qed.

Example getLimits_legacy :
  result_of (getLimits instant reliable)
    (mkWorld initialState {[LIMITS := LimitsTable {["a.com" := LegacyMs 600000]}]} 0 0)
  = Resolved {["a.com" := Config 600000 "day"]}.
Proof. vm_compute. reflexivity. Qed.

(** ** Finalizing credits a session twice *)

(** C2, at a run the worker can see: signals on [a.com] at 1000 and 5000,
    the window loses focus at 6000.  The session ran from 1000 to 6000, and
    finalizing computes that elapsed time, 5000 ms, and goes idle; but
    today's record ends with 10000 ms for [a.com]: the flush called by
    [finalizeCurrentSession] still finds the session tracked and rolls it
    forward, adding [now - sessionStartTime] a second time. *)
Theorem finalize_credits_session_twice :
  let w1 := deliver 1000 signal idleWorld in
  let w2 := deliver 5000 signal w1 in
  let w3 := deliver 6000 WindowBlurred w2 in
  state w2 = trackingOn 1 "a.com" 1000 5000 (Some 1000) ∧
  storage w2 = ∅ ∧
  finalElapsed (mkWorld (state w2) (storage w2) 6000 (calls w2)) 1000 = 5000 ∧
  isTracking (state w3) = false ∧
  sessionStartTime (state w3) = None ∧
  lastActivityTime (state w3) = None ∧
  pendingTime (state w3) = ∅ ∧
  recorded w3 "daily:1970-01-01" "a.com" = 10000.
Proof.
  cbv zeta.
  split; [vm_compute; reflexivity|]. split; [vm_compute; reflexivity|].
  split; [vm_compute; reflexivity|]. split; [vm_compute; reflexivity|].
  split; [vm_compute; reflexivity|]. split; [vm_compute; reflexivity|].
  split; vm_compute; reflexivity.
Qed.

(** The same roll-forward in the inline inactivity check: a session from
    1000 whose last activity was at 11000, the next signal at 31000.  The
    time up to the last activity, 10000 ms, goes to the buffer, and the
    flush called before the session is restarted adds the 30000 ms from
    1000 to 31000: today's record ends with 40000 ms. *)
Example gap_branch_credits_idle_time :
  let w' := world_after (recordActivity instant reliable utc) staleWorld in
  sessionStartTime (state w') = Some 31000 ∧
  pendingTime (state w') = ∅ ∧
  recorded w' "daily:1970-01-01" "a.com" = 40000.
Proof.
  cbv zeta. split; [vm_compute; reflexivity|].
  split; vm_compute; reflexivity.
Qed.

(** C1, at a run the worker can see: on a worker idle on tab 1 and [a.com],
    signals at 1000, 11000 and 31000, every storage call resolving.  The
    third signal finds the session running from 1000 with its last activity
    at 11000, 20000 ms ago; [lastActivityTime - sessionStartTime] is 10000
    ms.  The session does restart at 31000 with an empty buffer, but
    today's record ends with 40000 ms for [a.com], not 10000: the flush
    called at line 241 still finds the session tracked from 1000 and rolls
    it forward, adding the 30000 ms from 1000 to 31000, the idle gap
    included, to the 10000 ms just credited.  The inactivity sweep, whose
    comment is the same ("up to last activity"), run at 31000 on the same
    session and followed by a flush, records the 10000 ms. *)
Theorem activity_after_gap_credits_idle_time :
  let w1 := deliver 1000 signal idleWorld in
  let w2 := deliver 11000 signal w1 in
  let w3 := deliver 31000 signal w2 in
  let v3 := deliver 31000 FlushTick (deliver 31000 InactivitySweep w2) in
  state w2 = trackingOn 1 "a.com" 1000 11000 (Some 1000) ∧
  storage w2 = ∅ ∧
  state w3 = trackingOn 1 "a.com" 31000 31000 (Some 1000) ∧
  recorded w3 "daily:1970-01-01" "a.com" = 40000 ∧
  isTracking (state v3) = false ∧
  pendingTime (state v3) = ∅ ∧
  recorded v3 "daily:1970-01-01" "a.com" = 10000.
Proof.
  cbv zeta.
  split; [vm_compute; reflexivity|]. split; [vm_compute; reflexivity|].
  split; [vm_compute; reflexivity|]. split; [vm_compute; reflexivity|].
  split; [vm_compute; reflexivity|]. split; vm_compute; reflexivity.
Qed.

(** ** A tab change overtaken by an activity signal *)

(** C6, at a run the worker can see, every clock reading above 0 and no
    host call rejecting.  A fresh worker is pointed at tab 1 on [a.com] at
    1000.  At 5000 the user moves to tab 2, a settings page:
    [handleTabChange(2)] finds no session to close and is suspended at its
    [await chrome.tabs.get(2)].  At 5001 a signal that tab 1 sent before the
    move is handled: tab 1 is still the recorded tab, so a session starts.
    At 5002 the tab arrives; its URL is not tracked, and lines 178-182 set
    [activeTabId] and clear [activeDomain] without touching the session
    fields (the branch for tracked pages, lines 186-190, resets them): the
    worker tracks a session that has no domain.  Handled one after the
    other, the same signal and tab change leave no session. *)
Theorem tab_lookup_overtaken_by_activity :
  let w0 := deliver 1000 (TabChanged 1 (Some "https://a.com/")) fresh in
  let w3 := tabChangeAroundSignal instant reliable utc hostname_of 5000 5001 5002
              2 (Some "chrome://settings") 1 "a.com" (Some 2) w0 in
  let v3 := deliver 5002 (TabChanged 2 (Some "chrome://settings"))
              (deliver 5001 (ActivityDetected 1 "a.com" (Some 2)) w0) in
  state w0 = idleOn 1 "a.com" ∧
  isTracking (state w3) = true ∧
  sessionStartTime (state w3) = Some 5001 ∧
  activeTabId (state w3) = Some 2 ∧
  activeDomain (state w3) = None ∧
  isTracking (state v3) = false ∧
  activeDomain (state v3) = None.
Proof.
  cbv zeta.
  split; [vm_compute; reflexivity|]. split; [vm_compute; reflexivity|].
  split; [vm_compute; reflexivity|]. split; [vm_compute; reflexivity|].
  split; [vm_compute; reflexivity|]. split; vm_compute; reflexivity.
Qed.

(** ** A clock that reads 0 *)

(** Signals at clock readings 0 and 20000 on the same tab and domain.  The first session starts at 0, which
    the code takes for "no timestamp": the second signal skips the inline
    inactivity check and the session still starts at 0, not at 20000. *)
Lemma gap_scenario_at_clock_zero :
  let w1 := deliver 0 signal idleWorld in
  let w2 := deliver 20000 signal w1 in
  isTracking (state w2) = true ∧
  lastActivityTime (state w2) = Some 20000 ∧
  sessionStartTime (state w2) = Some 0 ∧
  sessionStartTime (state w2) ≠ Some 20000.
Proof.
  cbv zeta.
  split; [vm_compute; reflexivity|]. split; [vm_compute; reflexivity|].
  assert (sessionStartTime (state (deliver 20000 signal (deliver 0 signal idleWorld)))
          = Some 0) as H by (vm_compute; reflexivity).
  split; [exact H|]. rewrite H. discriminate.
Qed.

(** The guard of the inline check at ordinary clock readings: signals at
    30000 and 35000, a flush at 40000 (it credits 10000 ms and moves the
    session start to 40000), a signal at 60000.  The gap is 25000 ms and
    [lastActivityTime - sessionStartTime] is -5000: nothing is credited and
    no flush runs (a flush would have written the 20000 ms since 40000);
    the session restarts at 60000. *)
Example gap_after_flush_credits_nothing :
  let w1 := deliver 30000 signal idleWorld in
  let w2 := deliver 35000 signal w1 in
  let w3 := deliver 40000 FlushTick w2 in
  let w4 := deliver 60000 signal w3 in
  state w3 = mkState (Some 1) (Some "a.com") (Some 40000) (Some 35000) true ∅
                     (Some 30000) ∧
  recorded w3 "daily:1970-01-01" "a.com" = 10000 ∧
  state w4 = trackingOn 1 "a.com" 60000 60000 (Some 30000) ∧
  recorded w4 "daily:1970-01-01" "a.com" = 10000.
Proof.
  cbv zeta.
  split; [vm_compute; reflexivity|]. split; [vm_compute; reflexivity|].
  split; vm_compute; reflexivity.
Qed.

(** The scenario of C4 at the clock readings it names: signals at 0 and at
    10000, then a flush at 10000.  The session start 0 is "no timestamp" to
    the flush, which rolls nothing forward: nothing is pending, nothing is
    written, and no 10000 ms are credited. *)
Lemma flush_scenario_at_clock_zero :
  let w1 := deliver 0 signal idleWorld in
  let w2 := deliver 10000 signal w1 in
  let w3 := deliver 10000 FlushTick w2 in
  isTracking (state w2) = true ∧
  sessionStartTime (state w2) = Some 0 ∧
  pendingTime (state w3) = ∅ ∧
  storage w3 = ∅ ∧
  recorded w3 "daily:1970-01-01" "a.com" = 0 ∧
  sessionStartTime (state w3) = Some 0.
Proof.
  cbv zeta.
  split; [vm_compute; reflexivity|]. split; [vm_compute; reflexivity|].
  split; [vm_compute; reflexivity|]. split; [vm_compute; reflexivity|].
  split; vm_compute; reflexivity.
Qed.

(** Handlers run one after another, at a clock that reads 0: a signal at
    clock reading 0 from the active tab starts a session whose start the
    code takes for absent, so the tab change that follows does not finalize it,
    and moving to a page that is not tracked clears [activeDomain] while
    [isTracking] stays true. *)
Lemma tracking_without_domain_after_clock_zero :
  let w1 := deliver 0 signal fresh in
  let w2 := deliver 5 (TabChanged 2 (Some "chrome://settings")) w1 in
  isTracking (state w1) = true ∧
  sessionStartTime (state w1) = Some 0 ∧
  isTracking (state w2) = true ∧
  activeDomain (state w2) = None.
Proof.
  cbv zeta.
  split; [vm_compute; reflexivity|]. split; [vm_compute; reflexivity|].
  split; vm_compute; reflexivity.
Qed.

(** ** A second flush during a session *)

(** C5 refuted: a signal at 1000 starts a session; a flush at 5000 resolves
    and empties the buffer; a flush at 6000, with no activity in between,
    rolls the session forward again: it makes two storage calls and today's
    record goes from 4000 ms to 5000 ms. *)
Lemma second_flush_writes_during_session :
  let w1 := deliver 1000 signal idleWorld in
  let w1t := mkWorld (state w1) (storage w1) 5000 (calls w1) in
  let w2 := deliver 5000 FlushTick w1 in
  let w3 := deliver 6000 FlushTick w2 in
  result_of (persistPendingTime instant reliable utc) w1t = Resolved tt ∧
  pendingTime (state w2) = ∅ ∧
  recorded w2 "daily:1970-01-01" "a.com" = 4000 ∧
  recorded w3 "daily:1970-01-01" "a.com" = 5000 ∧
  calls w3 = S (S (calls w2)) ∧
  storage w3 ≠ storage w2.
Proof.
  cbv zeta.
  split; [vm_compute; reflexivity|]. split; [vm_compute; reflexivity|].
  assert (recorded (deliver 5000 FlushTick (deliver 1000 signal idleWorld))
            "daily:1970-01-01" "a.com" = 4000) as H2 by (vm_compute; reflexivity).
  assert (recorded (deliver 6000 FlushTick
                      (deliver 5000 FlushTick (deliver 1000 signal idleWorld)))
            "daily:1970-01-01" "a.com" = 5000) as H3 by (vm_compute; reflexivity).
  split; [exact H2|]. split; [exact H3|]. split; [vm_compute; reflexivity|].
  intros Heq. unfold recorded in H2, H3. rewrite Heq, H2 in H3. discriminate H3.
Qed.

(** ** The theorems at concrete worlds *)

(** A flush whose storage calls reject keeps the 5000 ms pending. *)
Lemma persist_keeps_buffer_on_failure_witness :
  result_of (persistPendingTime instant failing utc) pendingWorld = Rejected ∧
  pendingTime (state (world_after (persistPendingTime instant failing utc) pendingWorld))
    = pendingTime (state pendingWorld) ∧
  storage (world_after (persistPendingTime instant failing utc) pendingWorld)
    = storage pendingWorld.
Proof.
  assert (pendingTime (rolled pendingWorld) ≠ ∅) as Hbuffer.
  { intros H. apply (f_equal (λ m : gmap string Z, m !! "a.com")) in H.
    vm_compute in H. discriminate H. }
  destruct (persist_keeps_buffer_on_failure instant failing utc pendingWorld
              Hbuffer) as (_ & Hsame & H).
  simpl in Hsame, H. destruct H as (H1 & H2 & H3 & _).
  split; [exact H1|]. split; [exact (eq_trans H2 Hsame)|exact H3].
Defined.

(** A second flush on the idle worker does nothing. *)
Lemma second_flush_is_noop_witness :
  let w1 := world_after (persistPendingTime instant reliable utc) pendingWorld in
  let w1t := mkWorld (state w1) (storage w1) 2000 (calls w1) in
  let w2 := world_after (persistPendingTime instant reliable utc) w1t in
  pendingTime (state w1) = ∅ ∧
  result_of (persistPendingTime instant reliable utc) w1t = Resolved tt ∧
  calls w2 = calls w1 ∧
  storage w2 = storage w1 ∧
  pendingTime (state w2) = ∅.
Proof.
  apply (second_flush_is_noop instant reliable utc pendingWorld 2000).
  - vm_compute. reflexivity.
  - left. reflexivity.
Defined.

Lemma status_exceeded_by_10000_witness :
  ∃ status,
    result_of (getDomainStatus instant reliable utc "a.com") (limitedWorld 70000)
      = Resolved status ∧
    hasLimit status = true ∧
    limitExceeded status = true ∧
    exceededBy status = Some 10000.
Proof.
  apply (status_exceeded_by_10000 instant reliable utc "a.com" (limitedWorld 70000)
           {["a.com" := 70000]}).
  - discriminate.
  - vm_compute. reflexivity.
  - vm_compute. reflexivity.
  - vm_compute. reflexivity.
  - vm_compute. reflexivity.
  - left. reflexivity.
  - reflexivity.
  - reflexivity.
  - reflexivity.
Defined.

(** With exactly 60000 ms recorded against the limit of 60000 the status is
    not exceeded, exceeded by 0, with 0 remaining. *)
Lemma limit_test_is_strict_witness :
  ∃ status,
    result_of (getDomainStatus instant reliable utc "a.com") (limitedWorld 60000)
      = Resolved status ∧
    periodTime status = Some 60000 ∧
    limitExceeded status = false ∧
    exceededBy status = Some 0 ∧
    remainingTime status = Some 0.
Proof.
  destruct (limit_test_is_strict instant reliable utc "a.com" (limitedWorld 60000)
              (Config 60000 "day"))
    as (status & l & pt & Hres & _ & _ & Hl & Hpt & _ & _ & _ & _ & Heq).
  - discriminate.
  - vm_compute. reflexivity.
  - reflexivity.
  - reflexivity.
  - reflexivity.
  - exists status. split; [exact Hres|].
    assert (periodTime status = Some 60000) as Hp.
    { assert (result_of (getDomainStatus instant reliable utc "a.com")
                (limitedWorld 60000)
              = Resolved (limitedStatus "a.com" 60000 "day" 60000 60000)) as Hc
        by (vm_compute; reflexivity).
      rewrite Hc in Hres. injection Hres as <-. reflexivity. }
    split; [exact Hp|]. apply Heq.
    rewrite Hp in Hpt. injection Hpt as <-. simpl in Hl. congruence.
Defined.

(** The legacy table [{"domain": 600000}] reads back as
    [{"domain": {limit: 600000, period: "day"}}], the structured entry as it
    is stored, and the stored table still holds the bare number. *)
Lemma getLimits_upgrades_legacy_on_read_witness :
  let w' := world_after (getLimits instant reliable) legacyWorld in
  storage w' = storage legacyWorld ∧
  storage w' !! LIMITS = Some (LimitsTable (<["domain" := LegacyMs 600000]>
                                              {["b.com" := Config 1000 "week"]})) ∧
  ∃ limits,
    result_of (getLimits instant reliable) legacyWorld = Resolved limits ∧
    limits !! "domain" = Some (Config 600000 "day") ∧
    limits !! "b.com" = Some (Config 1000 "week") ∧
    limits !! "c.com" = None.
Proof.
  destruct (getLimits_upgrades_legacy_on_read instant reliable
              (Some (LimitsTable (<["domain" := LegacyMs 600000]>
                                    {["b.com" := Config 1000 "week"]})))
              legacyWorld)
    as (Hsame & Hstored & limits & Hres & Hlimits); [vm_compute; reflexivity|].
  cbv zeta. split; [exact Hsame|]. split; [exact Hstored|].
  exists limits. split; [exact Hres|].
  split; [|split].
  - rewrite (Hlimits "domain"). vm_compute. reflexivity.
  - rewrite (Hlimits "b.com"). vm_compute. reflexivity.
  - rewrite (Hlimits "c.com"). vm_compute. reflexivity.
Defined.


Lemma activity_after_gap_restarts_session_witness :
  gapOutcome instant reliable utc staleWorld 11000 ∧
  (let w1 := deliver 1000 signal idleWorld in
   let w2 := deliver 21000 signal w1 in
   pendingTime (state w2) = ∅ ∧
   storage w2 = storage idleWorld ∧
   isTracking (state w2) = true ∧
   sessionStartTime (state w2) = Some 21000 ∧
   lastActivityTime (state w2) = Some 21000).
Proof.
  destruct (activity_after_gap_restarts_session instant reliable utc hostname_of)
    as [Hgap Hscenario].
  split.
  - apply Hgap.
    + reflexivity.
    + reflexivity.
    + discriminate.
    + vm_compute. discriminate.
  - apply (Hscenario 1 "a.com" (Some 1) (Some 1) 1000 idleWorld).
    + discriminate.
    + discriminate.
    + reflexivity.
Defined.

Lemma flush_rolls_session_forward_witness :
  (let w := mkWorld (state staleWorld) (storage staleWorld) 31000 0 in
   get_or_zero (pendingTime (rolled w)) "a.com" = 0 + (31000 - 1000) ∧
   sessionStartTime
     (state (world_after (persistPendingTime instant reliable utc) w)) = Some 31000 ∧
   isTracking
     (state (world_after (persistPendingTime instant reliable utc) w)) = true) ∧
  (let w1 := deliver 1000 signal idleWorld in
   let w2 := deliver 11000 signal w1 in
   let w3 := deliver 11000 FlushTick w2 in
   pendingTime (rolled (mkWorld (state w2) (storage w2) 11000 (calls w2)))
     = {["a.com" := 10000]} ∧
   isTracking (state w3) = true ∧
   sessionStartTime (state w3) = Some 11000).
Proof.
  destruct (flush_rolls_session_forward instant reliable utc hostname_of)
    as [Hroll Hscenario].
  split.
  - destruct (Hroll staleWorld "a.com" 1000) as (H1 & _ & H3 & H4 & _).
    + reflexivity.
    + reflexivity.
    + discriminate.
    + reflexivity.
    + discriminate.
    + vm_compute. discriminate.
    + cbv zeta. split; [exact H1|]. split; [exact H3|exact H4].
  - destruct (Hscenario 1 "a.com" (Some 1) (Some 1) 1000 idleWorld)
      as (H1 & H2 & H3 & _).
    + discriminate.
    + discriminate.
    + reflexivity.
    + cbv zeta. split; [exact H1|]. split; [exact H2|exact H3].
Defined.

(** The worker after a signal at 1000 and a flush at 5000 is reachable, and
    consistent. *)
Lemma reachable_states_are_consistent_witness :
  let w := deliver 5000 FlushTick (deliver 1000 signal fresh) in
  isTracking (state w) = true ∧
  (isTracking (state w) = true →
     (∃ t, sessionStartTime (state w) = Some t ∧ t ≠ 0) ∧
     (∃ d, activeDomain (state w) = Some d ∧ d ≠ "")) ∧
  (∀ d v, pendingTime (state w) !! d = Some v → 0 ≤ v ∧ 0 < v).
Proof.
  split; [vm_compute; reflexivity|].
  apply (reachable_states_are_consistent instant reliable utc hostname_of).
  apply reachable_dispatch.
  - apply reachable_dispatch.
    + apply reachable_init.
    + split; [reflexivity|discriminate].
  - split; [reflexivity|exact I].
Defined.

(** ** The further properties at concrete worlds *)

(** Two daily records summed in either order. *)
Lemma aggregateDomains_any_order_witness :
  aggregateDomains [{["a.com" := 1000]}; {["b.com" := 2000]}]
  = aggregateDomains [{["b.com" := 2000]}; {["a.com" := 1000]}].
Proof. apply aggregateDomains_any_order. apply perm_swap. Defined.

(** On 2024-06-15 the cleanup keeps the record of 2024-06-01 and removes
    the one of 2024-01-01. *)
Lemma cleanup_retention_window_witness :
  let w' := world_after (cleanupOldData instant reliable utc (fixedOffset utc) parseIsoDate) agedWorld in
  storage w' !! (DAILY_PREFIX +:+ formatDateKey 19875)
    = storage agedWorld !! (DAILY_PREFIX +:+ formatDateKey 19875) ∧
  storage w' !! (DAILY_PREFIX +:+ formatDateKey 19723) = None.
Proof.
  split.
  - destruct (cleanup_retention_window instant reliable utc (fixedOffset utc)
                parseIsoDate agedWorld 19875) as (_ & Hkeep & _).
    + vm_compute. reflexivity.
    + intros local. unfold fixedOffset, utc, MS_PER_DAY. lia.
    + apply Hkeep. vm_compute. discriminate.
  - destruct (cleanup_retention_window instant reliable utc (fixedOffset utc)
                parseIsoDate agedWorld 19723) as (_ & _ & Hgone).
    + vm_compute. reflexivity.
    + intros local. unfold fixedOffset, utc, MS_PER_DAY. lia.
    + apply Hgone; [vm_compute; reflexivity|reflexivity|reflexivity].
Defined.

(** The status of [a.com] with 5000 ms pending and no limit. *)
Lemma status_without_limit_witness :
  getDomainStatus instant reliable utc "a.com" pendingWorld
  = (Resolved (mkStatus false false None None (Some 5000) None None None
                        (Some "a.com")),
     after_call instant (after_call instant pendingWorld)).
Proof.
  pose proof (status_without_limit instant reliable utc "a.com" pendingWorld)
    as Hstatus.
  cbv zeta in Hstatus. rewrite Hstatus.
  - vm_compute. reflexivity.
  - discriminate.
  - apply (proj1 (bool_decide_eq_false _)). vm_compute. reflexivity.
  - vm_compute. reflexivity.
Defined.


(** Statistics over three days on a reliable host. *)
Lemma stats_cover_the_last_days_witness :
  ∃ todayStats stats w',
    result_of (getTodayStats instant reliable utc) (limitedWorld 70000)
      = Resolved todayStats ∧
    getStats instant reliable utc 3 (limitedWorld 70000) = (Resolved stats, w') ∧
    dailyData stats !! date todayStats = Some (data todayStats).
Proof.
  destruct (stats_cover_the_last_days instant reliable utc 3 (limitedWorld 70000))
    as (todayStats & stats & w' & Htoday & Hstats & _ & _ & _ & Hentry & _).
  - intros n. reflexivity.
  - exists todayStats, stats, w'. split; [exact Htoday|]. split; [exact Hstats|].
    exact Hentry.
Defined.


(** A signal from tab 2 while tab 1 is the active one. *)
Lemma signal_from_inactive_tab_only_reads_witness :
  let w' := world_after
              (handleActivityDetected instant reliable utc 2 "b.com" (Some 1))
              idleWorld in
  state w' = state idleWorld ∧ storage w' = storage idleWorld.
Proof.
  destruct (signal_from_inactive_tab_only_reads instant reliable utc 2 "b.com"
              (Some 1) idleWorld) as (Hstate & Hstorage & _).
  - vm_compute. discriminate.
  - discriminate.
  - split; [exact Hstate|exact Hstorage].
Defined.

(** A session on [a.com] since 1000; at 12000 tab 2, on [b.com], turns out
    to be the active one: a flush at 20000 counts 19000 ms for [b.com]. *)
Lemma newly_active_tab_takes_over_session_witness :
  let w' := world_after
              (handleActivityDetected instant reliable utc 2 "b.com" (Some 2))
              busyWorld in
  state w' = set_lastActivityTime (Some 12000)
               (set_activeDomain (Some "b.com")
                  (set_activeTabId (Some 2) (state busyWorld))) ∧
  storage w' = storage busyWorld ∧
  get_or_zero
    (pendingTime (rolled (mkWorld (state w') (storage w') 20000 (calls w')))) "b.com"
  = get_or_zero (pendingTime (state busyWorld)) "b.com" + (20000 - 1000).
Proof.
  apply (newly_active_tab_takes_over_session instant reliable utc 2 "b.com"
           1000 11000 20000 busyWorld).
  - vm_compute. discriminate.
  - reflexivity.
  - reflexivity.
  - discriminate.
  - reflexivity.
  - vm_compute. reflexivity.
  - reflexivity.
  - reflexivity.
  - discriminate.
  - vm_compute. discriminate.
Defined.

(** A flush between the last activity and the sweep: signals at 1000 and
    11000, a flush at 25000 (it records the 24000 ms since 1000 and moves
    the session start to 25000), the sweep at 31000, a flush at 40000.  The
    sweep finds [lastActivityTime - sessionStartTime] negative and adds
    nothing; the 24000 ms stay recorded for 10000 ms of activity. *)
Example sweep_after_flush_adds_nothing :
  let w2 := deliver 11000 signal (deliver 1000 signal idleWorld) in
  let w3 := deliver 25000 FlushTick w2 in
  let w4 := deliver 31000 InactivitySweep w3 in
  let w5 := deliver 40000 FlushTick w4 in
  sessionStartTime (state w3) = Some 25000 ∧
  lastActivityTime (state w3) = Some 11000 ∧
  recorded w3 "daily:1970-01-01" "a.com" = 24000 ∧
  isTracking (state w4) = false ∧
  pendingTime (state w4) = ∅ ∧
  recorded w5 "daily:1970-01-01" "a.com" = 24000.
Proof.
  cbv zeta.
  split; [vm_compute; reflexivity|]. split; [vm_compute; reflexivity|].
  split; [vm_compute; reflexivity|]. split; [vm_compute; reflexivity|].
  split; vm_compute; reflexivity.
Qed.

(** The sweep at 31000 of a session from 1000 whose last activity was at
    11000, then a flush at 40000: 10000 ms are recorded for [a.com]. *)
Lemma sweep_then_flush_credits_active_time_witness :
  let w1 := world_after checkInactivityTimeout staleWorld in
  let wt := mkWorld (state w1) (storage w1) 40000 (calls w1) in
  let w2 := world_after (persistPendingTime instant reliable utc) wt in
  isTracking (state w1) = false ∧
  get_or_zero (pendingTime (state w1)) "a.com" = 10000 ∧
  isTracking (state w2) = false ∧
  pendingTime (state w2) = ∅ ∧
  recorded w2 "daily:1970-01-01" "a.com" = 10000 ∧
  recorded w2 "daily:1970-01-01" "b.com" = 0.
Proof.
  destruct (sweep_then_flush_credits_active_time instant reliable utc "a.com"
              1000 11000 40000 staleWorld)
    as (_ & Hidle & Hpending & Hidle' & Hempty & _ & Hrecorded).
  - reflexivity.
  - reflexivity.
  - reflexivity.
  - discriminate.
  - reflexivity.
  - discriminate.
  - vm_compute. discriminate.
  - reflexivity.
  - reflexivity.
  - cbv zeta. split; [exact Hidle|]. split; [exact (Hpending "a.com")|].
    split; [exact Hidle'|]. split; [exact Hempty|].
    split; [exact (Hrecorded "a.com")|exact (Hrecorded "b.com")].
Defined.

(** A change to tab 2 on [b.com] that closes the session of [staleWorld],
    and the lookup of a settings page resuming in [staleWorld], where a
    session is running. *)
Lemma tab_change_outcome_witness :
  (∃ w', handleTabChange instant reliable utc hostname_of 2
           (Some "https://b.com/page") staleWorld = (Resolved tt, w')
         ∧ state w' = mkState (Some 2) (Some "b.com") None None false ∅ (Some 11000)) ∧
  (∃ w', recordTab instant reliable hostname_of 2
           (Some "chrome://settings") staleWorld = (Resolved tt, w')
         ∧ state w'
           = mkState (Some 2) None (Some 1000) (Some 11000) true ∅ (Some 11000)).
Proof.
  assert (Inv (state staleWorld)) as HI.
  { split.
    - intros _. split; reflexivity.
    - intros d v. simpl. rewrite lookup_empty. discriminate. }
  assert (result_of (finalizeCurrentSession instant reliable utc) staleWorld
          = Resolved tt) as Hfin by (vm_compute; reflexivity).
  split.
  - set (w1 := world_after (finalizeCurrentSession instant reliable utc) staleWorld).
    destruct (tab_change_outcome instant reliable utc hostname_of 2
                (Some "https://b.com/page") staleWorld w1 HI)
      as (Hlookup & _ & _ & Hrun).
    rewrite Hfin in Hrun. destruct Hrun as [_ Hrun].
    eexists. split; [exact (eq_trans Hrun Hlookup)|]. vm_compute. reflexivity.
  - destruct (tab_change_outcome instant reliable utc hostname_of 2
                (Some "chrome://settings") staleWorld staleWorld HI)
      as (Hlookup & _).
    eexists. split; [exact Hlookup|]. vm_compute. reflexivity.
Defined.

(** A flush after the first signal on a fresh worker. *)
Lemma recorded_time_never_decreases_witness :
  let w := deliver 1000 signal fresh in
  let w' := deliver 5000 FlushTick w in
  storage w' !! LIMITS = storage w !! LIMITS ∧
  (∀ key, startsWith DAILY_PREFIX key = false →
          storage w' !! key = storage w !! key) ∧
  (∀ key d, recorded w key d ≤ recorded w' key d).
Proof.
  apply (recorded_time_never_decreases instant reliable utc hostname_of 5000
           FlushTick (deliver 1000 signal fresh)).
  apply reachable_dispatch.
  - apply reachable_init.
  - split; [reflexivity|discriminate].
Defined.

(** A flush at 12000 of a session that started at 1000: the 11000 ms of the
    session are all there afterwards. *)
Lemma flush_conserves_totals_witness :
  let w' := world_after (persistPendingTime instant reliable utc) busyWorld in
  recordedOn (storage w') (localDay utc (now busyWorld)) "a.com"
  + get_or_zero (pendingTime (state w')) "a.com"
  + live "a.com" (mkWorld (state w') (storage w') (now busyWorld) (calls w'))
  = recordedOn (storage busyWorld) (localDay utc (now busyWorld)) "a.com"
    + get_or_zero (pendingTime (state busyWorld)) "a.com"
    + live "a.com" busyWorld.
Proof.
  apply (flush_conserves_totals instant reliable utc "a.com" busyWorld).
  vm_compute. discriminate.
Defined.

(** Page events at 500, 1200, 1900 and 2500: signals go out at 1200 and
    at 2500. *)
Lemma activity_signals_are_throttled_witness :
  reports 0 [500; 1200; 1900; 2500] = [1200; 2500] ∧
  1200 + ACTIVITY_THROTTLE_MS ≤ 2500.
Proof.
  split; [reflexivity|].
  destruct (activity_signals_are_throttled 0 [500; 1200; 1900; 2500]) as [Hgap _].
  apply (Hgap 1%nat 1200 2500); reflexivity.
Defined.

(** After a signal at 1000 and a sweep a minute later. *)
Lemma session_times_follow_tracking_witness :
  let w1 := deliver 1000 signal fresh in
  let w2 := deliver 61000 InactivitySweep w1 in
  isTracking (state w2) = false ∧
  ((isTracking (state w2) = false →
      sessionStartTime (state w2) = None ∧ lastActivityTime (state w2) = None) ∧
   (isTracking (state w2) = true →
      ∃ last, lastActivityTime (state w2) = Some last ∧ last ≠ 0)).
Proof.
  split; [vm_compute; reflexivity|].
  apply (session_times_follow_tracking instant reliable utc hostname_of).
  apply reachable_dispatch.
  - apply reachable_dispatch.
    + apply reachable_init.
    + split; [reflexivity|discriminate].
  - split; [reflexivity|exact I].
Defined.
